(** * Bird-strike warning system: risk scoring and strategic response

    A shallow embedding of the decision core of the repository:

    - [backend/bird_communication_system.py]
      ([AdvancedBirdCommunicationAnalyzer]): the communication-pattern
      classifier, the behavioural-intent predictor, the risk scorer, the
      alert thresholds and the predator-sound status flag;
    - [backend/strategic_response.py] ([PredatorSoundLibrary],
      [AIDecisionEngine], [StrategicResponseSystem], [NextActionPanel]):
      sound selection, looped playback with its stop event, the strategy
      templates, the confidence score and the automated execution loop.

    Conventions.
    - Python [float]s are modelled by exact rationals ([Q]); every literal
      of the source is a decimal and is written as in the source.  Rounding
      is not modelled, and where the source compares computed values the
      model compares them exactly.
    - Python [dict]s that are used as records with string keys are
      [gmap string _]; a [dict] whose iteration order is observed
      ([intent_scores], [sound_cache]) is an association list in insertion
      order.
    - A Python exception is a value of [exn] returned through [res].
    - Wall-clock time is a rational number of seconds that the caller
      passes in ([now]); [random.choice] takes its draw as an argument. *)

From Stdlib Require Import QArith Qminmax Qround Lqa String Ascii.
From stdpp Require Import gmap strings list fin_maps.

Local Open Scope string_scope.
Local Open Scope list_scope.
Local Open Scope Q_scope.

(** ** Python values, exceptions and comparisons *)

Module Py.

(** The values that occur in a communication-pattern [dict]. *)
Inductive pyval : Type :=
| PBool (b : bool)
| PStr (s : string)
| PNone.

(** Truth value of an object in an [if]. *)
Definition truthy (v : pyval) : bool :=
  match v with
  | PBool b => b
  | PStr s => negb (String.eqb s "")
  | PNone => false
  end.

(** [v == 'literal'] *)
Definition eq_str (v : pyval) (lit : string) : bool :=
  match v with
  | PStr s => String.eqb s lit
  | _ => false
  end.

Inductive exn : Type :=
| KeyError (key : string)
| IndexError
| ValueError
| ZeroDivisionError.

Inductive res (A : Type) : Type :=
| Ok (a : A)
| Raise (e : exn).
Arguments Ok {A} a.
Arguments Raise {A} e.

Definition bind {A B} (m : res A) (k : A -> res B) : res B :=
  match m with
  | Ok a => k a
  | Raise e => Raise e
  end.

(** [try: body except Exception: handler] *)
Definition try_except {A} (body : res A) (handler : exn -> A) : A :=
  match body with
  | Ok a => a
  | Raise e => handler e
  end.

(** [d[key]] *)
Definition getitem {V} (d : gmap string V) (key : string) : res V :=
  match d !! key with
  | Some v => Ok v
  | None => Raise (KeyError key)
  end.

(** [d.get(key, dflt)] *)
Definition get {V} (d : gmap string V) (key : string) (dflt : V) : V :=
  default dflt (d !! key).

(** [x > y] on floats. *)
Definition gt (x y : Q) : bool := negb (Qle_bool x y).

(** [min(a, b)]: the first argument unless the second is smaller. *)
Definition min (a b : Q) : Q := if gt a b then b else a.

(** [max(a, b)]: the first argument unless the second is larger. *)
Definition max (a b : Q) : Q := if gt b a then b else a.

(** [sum(xs)] *)
Definition sum (xs : list Q) : Q := fold_left Qplus xs 0.

(** [len(xs)] as a float operand. *)
Definition len {A} (xs : list A) : Q := inject_Z (Z.of_nat (length xs)).

(** [a / b] *)
Definition div (a b : Q) : res Q :=
  if Qeq_bool b 0 then Raise ZeroDivisionError else Ok (a / b).

(** [xs[-n:]] *)
Definition last_n {A} (n : nat) (xs : list A) : list A :=
  drop (length xs - n) xs.

(** [s.lower()], on ASCII. *)
Definition lower_ascii (c : ascii) : ascii :=
  let n := nat_of_ascii c in
  if (65 <=? n)%nat && (n <=? 90)%nat then ascii_of_nat (n + 32) else c.

Fixpoint lower (s : string) : string :=
  match s with
  | EmptyString => EmptyString
  | String c s' => String (lower_ascii c) (lower s')
  end.

(** [needle in hay] on strings. *)
Fixpoint contains (needle hay : string) : bool :=
  String.prefix needle hay ||
  match hay with
  | EmptyString => false
  | String _ hay' => contains needle hay'
  end.

(** [x in xs] on a list of strings. *)
Definition mem (x : string) (xs : list string) : bool :=
  existsb (String.eqb x) xs.

End Py.

#[global] Instance res_ret : MRet Py.res := @Py.Ok.
#[global] Instance res_bind : MBind Py.res := fun A B k m => Py.bind m k.

(** ** [bird_communication_system.py]: [AdvancedBirdCommunicationAnalyzer] *)

Module Comm.
Import Py.

(** An entry of [HIGH_RISK_SPECIES]. *)
Record species_data : Type := {
  common : string;
  risk : Q;
  flock_behavior : string;
  territorial_calls : list string;
  alarm_patterns : list string;
  flight_patterns : string
}.

Definition HIGH_RISK_SPECIES : gmap string species_data :=
  list_to_map [
    ("Corvus splendens",
     {| common := "House Crow"; risk := 0.9;
        flock_behavior := "highly_social";
        territorial_calls := ["caw"; "rattle"; "click"];
        alarm_patterns := ["rapid_succession"; "pitch_variation"];
        flight_patterns := "erratic_when_alarmed" |});
    ("Corvus macrorhynchos",
     {| common := "Large-billed Crow"; risk := 0.8;
        flock_behavior := "family_groups";
        territorial_calls := ["deep_caw"; "grunt"; "whistle"];
        alarm_patterns := ["descending_pitch"; "repeated_calls"];
        flight_patterns := "coordinated_group_movement" |});
    ("Haliaeetus leucogaster",
     {| common := "White-bellied Sea Eagle"; risk := 0.95;
        flock_behavior := "solitary_pairs";
        territorial_calls := ["harsh_bark"; "whistle"; "scream"];
        alarm_patterns := ["extended_calls"; "circling_behavior"];
        flight_patterns := "soaring_thermal_riding" |});
    ("Acridotheres javanicus",
     {| common := "Javan Myna"; risk := 0.7;
        flock_behavior := "large_flocks";
        territorial_calls := ["chatter"; "whistle"; "click"];
        alarm_patterns := ["chorus_calling"; "synchronized_movement"];
        flight_patterns := "dense_group_formation" |})
  ].

(** The [species_info] dict built per detection; both keys are read with
    [.get]. *)
Record species_info : Type := {
  scientific : option string;
  common_name : option string
}.

(** [if species_info:] is false for [None] and for the empty dict. *)
Definition species_info_truthy (si : option species_info) : bool :=
  match si with
  | None => false
  | Some i => bool_decide (is_Some (scientific i)) || bool_decide (is_Some (common_name i))
  end.

(** What the classifier reads from the feature dict of
    [extract_audio_features]: [np.mean(features['spectral_centroid'])],
    [features.get('tempo', 0)] and [np.var(features['zero_crossing_rate'])].
    The numpy reductions themselves are inputs of the model. *)
Record audio_features : Type := {
  spectral_centroid_mean : Q;
  tempo : option Q;
  zcr_variance : Q
}.

(** The initial [patterns] dict of [analyze_communication_patterns]. *)
Definition default_patterns : gmap string pyval :=
  list_to_map [
    ("call_type", PStr "unknown");
    ("emotional_state", PStr "neutral");
    ("behavioral_context", PStr "normal");
    ("urgency_level", PStr "low");
    ("flock_communication", PBool false);
    ("territorial_behavior", PBool false);
    ("alarm_signal", PBool false)
  ].

(** The five rules of [analyze_communication_patterns], in source order.
    Each one is a block of assignments on the [patterns] dict. *)

Definition rule_call_type (f : audio_features) (patterns : gmap string pyval)
  : gmap string pyval :=
  if gt (spectral_centroid_mean f) 3000 then
    <["urgency_level" := PStr "high"]>
      (<["call_type" := PStr "high_frequency_alert"]> patterns)
  else if gt (spectral_centroid_mean f) 1500 then
    <["territorial_behavior" := PBool true]>
      (<["call_type" := PStr "territorial_call"]> patterns)
  else
    <["call_type" := PStr "contact_call"]> patterns.

Definition rule_flock (f : audio_features) (patterns : gmap string pyval)
  : gmap string pyval :=
  if gt (default 0 (tempo f)) 150 then
    <["behavioral_context" := PStr "group_coordination"]>
      (<["flock_communication" := PBool true]> patterns)
  else patterns.

Definition rule_alarm (f : audio_features) (patterns : gmap string pyval)
  : gmap string pyval :=
  if gt (zcr_variance f) 0.01 then
    <["urgency_level" := PStr "high"]>
      (<["emotional_state" := PStr "alarmed"]>
        (<["alarm_signal" := PBool true]> patterns))
  else patterns.

Definition rule_rapid_succession (f : audio_features) (alarms : list string)
    (patterns : gmap string pyval) : gmap string pyval :=
  if mem "rapid_succession" alarms && gt (default 0 (tempo f)) 180 then
    <["urgency_level" := PStr "critical"]>
      (<["behavioral_context" := PStr "immediate_threat_response"]> patterns)
  else patterns.

Definition rule_pitch_variation (f : audio_features) (alarms : list string)
    (patterns : gmap string pyval) : gmap string pyval :=
  if mem "pitch_variation" alarms && gt (zcr_variance f) 0.015 then
    <["urgency_level" := PStr "high"]>
      (<["behavioral_context" := PStr "predator_warning"]> patterns)
  else patterns.

(** [species_data.get('alarm_patterns', [])] for
    [HIGH_RISK_SPECIES.get(species_info.get('scientific', ''), {})]. *)
Definition alarm_patterns_of (si : option species_info) : list string :=
  match HIGH_RISK_SPECIES !! default "" (si ≫= scientific) with
  | Some d => alarm_patterns d
  | None => []
  end.

(** [analyze_communication_patterns(audio_features, species_info)];
    [audio_features] is [None] when extraction failed.  The reads that
    could raise inside the [try] block are the ones of the feature dict,
    which are inputs here. *)
Definition analyze_communication_patterns (features : option audio_features)
    (si : option species_info) : gmap string pyval :=
  let patterns := default_patterns in
  match features with
  | None => patterns
  | Some f =>
      let patterns := rule_call_type f patterns in
      let patterns := rule_flock f patterns in
      let patterns := rule_alarm f patterns in
      if species_info_truthy si then
        let alarms := alarm_patterns_of si in
        let patterns := rule_rapid_succession f alarms patterns in
        rule_pitch_variation f alarms patterns
      else patterns
  end.

(** The rules one call runs on the features [f], in the order it runs
    them. *)
Definition rules (f : audio_features) (si : option species_info)
  : list (gmap string pyval -> gmap string pyval) :=
  [rule_call_type f; rule_flock f; rule_alarm f]
  ++ (if species_info_truthy si
      then [rule_rapid_succession f (alarm_patterns_of si);
            rule_pitch_variation f (alarm_patterns_of si)]
      else []).

(** The [patterns] dict before the first rule and after each rule. *)
Fixpoint run_rules (rs : list (gmap string pyval -> gmap string pyval))
    (patterns : gmap string pyval) : list (gmap string pyval) :=
  match rs with
  | [] => [patterns]
  | r :: rs' => patterns :: run_rules rs' (r patterns)
  end.

(** The value of [patterns['urgency_level']] at each of these points. *)
Definition urgency_trace (f : audio_features) (si : option species_info)
  : list (option pyval) :=
  (fun patterns : gmap string pyval => patterns !! "urgency_level")
    <$> run_rules (rules f si) default_patterns.

(** The order of the urgency levels, [low < medium < high < critical]. *)
Definition urgency_rank (v : option pyval) : nat :=
  match v with
  | Some (PStr "low") => 0
  | Some (PStr "medium") => 1
  | Some (PStr "high") => 2
  | Some (PStr "critical") => 3
  | _ => 0
  end.

(** A trace of urgency values never goes down. *)
Fixpoint never_downgraded (tr : list (option pyval)) : bool :=
  match tr with
  | u :: ((u' :: _) as tr') =>
      (urgency_rank u <=? urgency_rank u')%nat && never_downgraded tr'
  | _ => true
  end.

(** *** [predict_behavioral_intent] *)

(** [intent_scores]: a dict whose insertion order [max] observes. *)
Definition intent_scores_init : list (string * Q) :=
  [("landing_approach", 0.0);
   ("territory_defense", 0.0);
   ("flock_gathering", 0.0);
   ("predator_avoidance", 0.0);
   ("normal_flight", 0.0)].

(** [scores[key] += d] *)
Definition add_to (key : string) (d : Q) (scores : list (string * Q))
  : list (string * Q) :=
  (fun kv => if String.eqb (fst kv) key then (fst kv, snd kv + d) else kv) <$> scores.

(** [scores[key] = v] on a key that is present. *)
Definition set_to (key : string) (v : Q) (scores : list (string * Q))
  : list (string * Q) :=
  (fun kv => if String.eqb (fst kv) key then (fst kv, v) else kv) <$> scores.

(** [scores[key]] *)
Fixpoint score_of (key : string) (scores : list (string * Q)) : res Q :=
  match scores with
  | [] => Raise (KeyError key)
  | kv :: rest => if String.eqb (fst kv) key then Ok (snd kv) else score_of key rest
  end.

(** [max(scores, key=scores.get)]: the running best is replaced only by a
    strictly larger value, so the first maximum wins. *)
Fixpoint max_from (best : string * Q) (rest : list (string * Q)) : string * Q :=
  match rest with
  | [] => best
  | kv :: rest' => if gt (snd kv) (snd best) then max_from kv rest' else max_from best rest'
  end.

Definition max_key (scores : list (string * Q)) : res string :=
  match scores with
  | [] => Raise ValueError
  | kv :: rest => Ok (fst (max_from kv rest))
  end.

(** [sum(1 for p in recent if p.get(key, False))] *)
Definition frequency (key : string) (recent : list (gmap string pyval)) : nat :=
  length (List.filter (fun p => truthy (get p key (PBool false))) recent).

(** The result dict of the predictor; its consumers read every key with
    [.get]. *)
Record intent_dict : Type := {
  primary_intent : option string;
  confidence : option Q;
  all_scores : option (list (string * Q))
}.

(** The additive contributions, before normalisation. *)
Definition contributions (communication_patterns : gmap string pyval)
    (historical_data : list (gmap string pyval)) : res (list (string * Q)) :=
  let s := intent_scores_init in
  alarm ← getitem communication_patterns "alarm_signal";
  let s := if truthy alarm then add_to "predator_avoidance" 0.4 s else s in
  territorial ← getitem communication_patterns "territorial_behavior";
  let s := if truthy territorial then add_to "territory_defense" 0.3 s else s in
  flock ← getitem communication_patterns "flock_communication";
  let s := if truthy flock then add_to "flock_gathering" 0.4 s else s in
  if (0 <? length historical_data)%nat then
    let recent_patterns := last_n 5 historical_data in
    let s := if (2 <? frequency "alarm_signal" recent_patterns)%nat
             then add_to "predator_avoidance" 0.3 s else s in
    let s := if (1 <? frequency "territorial_behavior" recent_patterns)%nat
             then add_to "territory_defense" 0.2 s else s in
    mret s
  else mret s.

(** [# Normalize scores] *)
Definition normalize (s : list (string * Q)) : list (string * Q) :=
  let total_score := sum (snd <$> s) in
  if gt total_score 0 then (fun kv => (fst kv, snd kv / total_score)) <$> s
  else set_to "normal_flight" 1.0 s.

(** The body of the [try] block. *)
Definition predict_body (communication_patterns : gmap string pyval)
    (historical_data : list (gmap string pyval)) : res intent_dict :=
  s ← contributions communication_patterns historical_data;
  let intent_scores := normalize s in
  primary ← max_key intent_scores;
  conf ← score_of primary intent_scores;
  mret {| primary_intent := Some primary;
          confidence := Some conf;
          all_scores := Some intent_scores |}.

(** [predict_behavioral_intent(communication_patterns, historical_data)] *)
Definition predict_behavioral_intent (communication_patterns : gmap string pyval)
    (historical_data : list (gmap string pyval)) : intent_dict :=
  try_except (predict_body communication_patterns historical_data)
    (fun _ => {| primary_intent := Some "unknown";
                 confidence := Some 0.0;
                 all_scores := Some [] |}).

(** The closed set of intents, in declaration order. *)
Definition intent_names : list string := fst <$> intent_scores_init.

(** [(key, value)] is the first maximum of [scores]: it stands at some
    position, no value is larger, and every earlier value is strictly
    smaller. *)
Definition first_max (scores : list (string * Q)) (key : string) (value : Q) : Prop :=
  exists i : nat,
    scores !! i = Some (key, value)
    /\ (forall j kv, scores !! j = Some kv -> snd kv <= value)
    /\ (forall j kv, (j < i)%nat -> scores !! j = Some kv -> snd kv < value).

(** The weights before normalisation, for each outcome of the five
    conditions the predictor tests: the three flags of the current
    pattern, and the two frequency tests on the recent history. *)
Definition weights (alarm territorial flock alarm_often territorial_often : bool)
  : list (string * Q) :=
  let s := intent_scores_init in
  let s := if alarm then add_to "predator_avoidance" 0.4 s else s in
  let s := if territorial then add_to "territory_defense" 0.3 s else s in
  let s := if flock then add_to "flock_gathering" 0.4 s else s in
  let s := if alarm_often then add_to "predator_avoidance" 0.3 s else s in
  if territorial_often then add_to "territory_defense" 0.2 s else s.

(** *** [calculate_enhanced_risk_score] *)

Definition intent_multipliers : gmap string Q :=
  list_to_map [
    ("landing_approach", 1.5);
    ("territory_defense", 1.3);
    ("flock_gathering", 1.2);
    ("predator_avoidance", 0.8);
    ("normal_flight", 1.0)
  ].

(** [HIGH_RISK_SPECIES.get(species, {}).get('risk', 0.3)] *)
Definition base_risk_of (species : string) : Q :=
  match HIGH_RISK_SPECIES !! species with
  | Some d => risk d
  | None => 0.3
  end.

Definition calculate_enhanced_risk_score (species : string) (conf : Q)
    (communication_patterns : gmap string pyval) (behavioral_intent : intent_dict)
  : res Q :=
  let base_risk := base_risk_of species in
  let risk_score := base_risk * conf in
  alarm ← getitem communication_patterns "alarm_signal";
  let risk_score := if truthy alarm then risk_score + 0.2 else risk_score in
  urgency ← getitem communication_patterns "urgency_level";
  let risk_score :=
    if eq_str urgency "critical" then risk_score + 0.3
    else if eq_str urgency "high" then risk_score + 0.15
    else risk_score in
  flock ← getitem communication_patterns "flock_communication";
  let risk_score := if truthy flock then risk_score + 0.1 else risk_score in
  let primary := default "normal_flight" (primary_intent behavioral_intent) in
  let intent_confidence := default 0.0 (confidence behavioral_intent) in
  let multiplier := get intent_multipliers primary 1.0 in
  let risk_score := risk_score * (1 + (multiplier - 1) * intent_confidence) in
  mret (min risk_score 1.0).

(** *** The alert thresholds of [analyze_audio_with_ai] *)

(** [(alert_level, action)] for a risk score. *)
Definition alert_level_and_action (risk_score : Q) : string * string :=
  if gt risk_score 0.8 then ("CRITICAL", "IMMEDIATE_RUNWAY_CLOSURE")
  else if gt risk_score 0.6 then ("HIGH", "DELAY_TAKEOFF")
  else if gt risk_score 0.4 then ("MEDIUM", "INCREASE_MONITORING")
  else ("LOW", "CONTINUE_NORMAL").

(** *** Predator-sound status *)

Record predator_status : Type := {
  is_predator_playing : bool;
  predator_play_start : option Q;
  predator_play_duration : Q
}.

(** The fields as [__init__] sets them. *)
Definition predator_status_init : predator_status :=
  {| is_predator_playing := false;
     predator_play_start := None;
     predator_play_duration := 0 |}.

(** [update_predator_status(is_playing, duration=0)], called at time [now]. *)
Definition update_predator_status (is_playing : bool) (duration now : Q)
  : predator_status :=
  if is_playing then
    {| is_predator_playing := true;
       predator_play_start := Some now;
       predator_play_duration := duration |}
  else
    {| is_predator_playing := false;
       predator_play_start := None;
       predator_play_duration := 0 |}.

(** [is_predator_sound_active()], asked at time [now]. *)
Definition is_predator_sound_active (st : predator_status) (now : Q) : bool :=
  match predator_play_start st with
  | Some start =>
      if negb (is_predator_playing st) || Qeq_bool start 0 then false
      else if gt (predator_play_duration st) 0
           then gt (predator_play_duration st) (now - start)
           else false
  | None => false
  end.

End Comm.

(** ** [strategic_response.py] *)

Module Strategic.
Import Py Comm.

Inductive ThreatLevel : Type := LOW | MEDIUM | HIGH | CRITICAL.

Inductive ActionType : Type :=
| MONITOR | DELAY | REDIRECT | EVACUATE | SOUND_DETERRENT | EMERGENCY_STOP.

#[global] Instance ActionType_eq_dec : EqDecision ActionType.
Proof. solve_decision. Defined.

(** [action_type.value] *)
Definition ActionType_value (t : ActionType) : string :=
  match t with
  | MONITOR => "MONITOR"
  | DELAY => "DELAY"
  | REDIRECT => "REDIRECT"
  | EVACUATE => "EVACUATE"
  | SOUND_DETERRENT => "SOUND_DETERRENT"
  | EMERGENCY_STOP => "EMERGENCY_STOP"
  end.

Record StrategicAction : Type := {
  action_type : ActionType;
  priority : Z;
  description : string;
  estimated_duration : Z;
  resources_required : list string;
  success_probability : Q;
  risk_assessment : string;
  automated : bool
}.

(** *** [PredatorSoundLibrary] *)

Definition predator_mappings : gmap string (list string) :=
  list_to_map [
    ("corvids", ["hawk_screech"; "eagle_cry"; "falcon_call"]);
    ("passerines", ["cat_meow"; "snake_hiss"; "hawk_screech"]);
    ("raptors", ["owl_hoot"; "hawk_screech"]);
    ("waterfowl", ["fox_bark"; "coyote_howl"; "hawk_screech"]);
    ("default", ["hawk_screech"; "eagle_cry"; "owl_hoot"])
  ].

(** Playback runs on threads, and the claims about it are about which
    threads are alive.  The model keeps the threads that run
    [playback_loop] and have not returned, and lets time pass explicitly:

    - the body of [playback_loop] is a loop that tests
      [self._stop_playback_event], plays the sound and calls
      [time.sleep(duration)]; a thread is therefore asleep until some time
      [wakes_at], and only then looks at the event;
    - the calling thread takes no time, except inside
      [join(timeout=2)], which returns when the joined thread returns or
      after two seconds;
    - [pygame.mixer.stop()] silences what the mixer is playing and has no
      effect on the threads: a thread that is still looping plays again
      when it wakes.

    [thread_id] stands for the identity of the [Thread] object. *)

(** A thread running [playback_loop] that has not returned.  Between two
    tests of the stop event it is inside [time.sleep(duration)], until
    [wakes_at]. *)
Record playback_loop : Type := {
  thread_id : nat;
  sound_name : string;
  duration : Q;
  wakes_at : Q
}.

(** The fields of the library object, together with the playback threads
    it has started that are still alive.  [sound_cache] maps a sound name
    to the [get_length()] of its [Sound], in seconds. *)
Record PredatorSoundLibrary : Type := {
  sound_cache : list (string * Q);
  communication_analyzer : option predator_status;
  playback_thread : option nat;
  stop_playback_event : bool;
  live_threads : list playback_loop;
  threads_started : nat
}.

(** The object after [__init__] with the given cache and analyzer. *)
Definition library_init (cache : list (string * Q))
    (analyzer : option predator_status) : PredatorSoundLibrary :=
  {| sound_cache := cache;
     communication_analyzer := analyzer;
     playback_thread := None;
     stop_playback_event := false;
     live_threads := [];
     threads_started := 0 |}.

(** [list(self.sound_cache.keys())] *)
Definition cache_keys (cache : list (string * Q)) : list string := fst <$> cache.

(** [any(k in bird_species_lower for k in keywords)] *)
Definition any_in (keywords : list string) (bird_species_lower : string) : bool :=
  existsb (fun k => contains k bird_species_lower) keywords.

Definition bird_category_of (bird_species : string) : string :=
  let bird_species_lower := lower bird_species in
  if any_in ["crow"; "raven"; "magpie"; "jay"] bird_species_lower then "corvids"
  else if any_in ["sparrow"; "finch"; "warbler"; "robin"] bird_species_lower then "passerines"
  else if any_in ["hawk"; "eagle"; "falcon"; "kestrel"] bird_species_lower then "raptors"
  else if any_in ["duck"; "goose"; "swan"; "gull"] bird_species_lower then "waterfowl"
  else "default".

(** [random.choice(xs)] with the draw made explicit. *)
Definition random_choice (xs : list string) (draw : nat) : res string :=
  match xs !! (draw mod length xs)%nat with
  | Some x => Ok x
  | None => Raise IndexError
  end.

(** [xs[0]] *)
Definition first_item (xs : list string) : res string :=
  match xs with
  | x :: _ => Ok x
  | [] => Raise IndexError
  end.

(** [get_effective_predator_sound(bird_species, bird_behavior)] *)
Definition get_effective_predator_sound (cache : list (string * Q))
    (bird_species bird_behavior : string) (draw : nat) : res string :=
  let bird_category := bird_category_of bird_species in
  fallback ← getitem predator_mappings "default";
  let mapped_sounds := get predator_mappings bird_category fallback in
  let available_sounds :=
    List.filter (fun s => mem s (cache_keys cache)) mapped_sounds in
  let available_sounds :=
    match available_sounds with
    | [] => cache_keys cache
    | _ => available_sounds
    end in
  let available_sounds :=
    if contains "territorial" (lower bird_behavior)
       || contains "aggressive" (lower bird_behavior)
    then
      let aggressive_sounds := ["hawk_screech"; "eagle_cry"; "falcon_call"] in
      let aggressive_available :=
        List.filter (fun s => mem s aggressive_sounds) available_sounds in
      match aggressive_available with
      | [] => available_sounds
      | _ => aggressive_available
      end
    else available_sounds in
  match available_sounds with
  | [] => first_item (cache_keys cache)
  | _ => random_choice available_sounds draw
  end.

(** [sound_cache[sound_name].get_length()], when the name is cached. *)
Fixpoint cached_length (name : string) (cache : list (string * Q)) : option Q :=
  match cache with
  | [] => None
  | kv :: rest => if String.eqb (fst kv) name then Some (snd kv) else cached_length name rest
  end.

(** The first wake-up of [th] after [now], when it keeps looping. *)
Definition next_wake (th : playback_loop) (now : Q) : Q :=
  if Qle_bool (duration th) 0 then now
  else wakes_at th
       + duration th * inject_Z (Qfloor ((now - wakes_at th) / duration th) + 1).

(** One playback thread, observed at time [now].  While it sleeps nothing
    happens.  Once awake it tests [self._stop_playback_event]: if the
    event is set the loop ends and the thread returns, otherwise it plays
    the sound again and sleeps for another [duration]. *)
Definition resume (stopped : bool) (now : Q) (th : playback_loop)
  : option playback_loop :=
  if gt (wakes_at th) now then Some th
  else if stopped then None
  else Some {| thread_id := thread_id th;
               sound_name := sound_name th;
               duration := duration th;
               wakes_at := next_wake th now |}.

(** Let the playback threads run until [now].  The stop event is only
    changed by the caller's thread, so it is constant meanwhile.  A thread
    that returns goes through its [finally] block and resets the
    analyzer's status. *)
Definition elapse (now : Q) (lib : PredatorSoundLibrary) : PredatorSoundLibrary :=
  let threads := omap (resume (stop_playback_event lib) now) (live_threads lib) in
  let returned := (length threads <? length (live_threads lib))%nat in
  {| sound_cache := sound_cache lib;
     communication_analyzer :=
       if returned
       then (fun _ => update_predator_status false 0 now) <$> communication_analyzer lib
       else communication_analyzer lib;
     playback_thread := playback_thread lib;
     stop_playback_event := stop_playback_event lib;
     live_threads := threads;
     threads_started := threads_started lib |}.

(** [self._playback_thread] when it [is_alive()]. *)
Definition alive_playback_thread (lib : PredatorSoundLibrary) : option playback_loop :=
  tid ← playback_thread lib;
  List.find (fun th => (thread_id th =? tid)%nat) (live_threads lib).

(** [stop_predator_sound()] called at time [now]; also gives the time at
    which the call returns.  [join(timeout=2)] returns when the thread
    returns or after two seconds, whichever is first. *)
Definition stop_predator_sound (now : Q) (lib : PredatorSoundLibrary)
  : PredatorSoundLibrary * Q :=
  let lib := elapse now lib in
  let lib :=
    {| sound_cache := sound_cache lib;
       communication_analyzer := communication_analyzer lib;
       playback_thread := playback_thread lib;
       stop_playback_event := true;
       live_threads := live_threads lib;
       threads_started := threads_started lib |} in
  let returns_at :=
    match alive_playback_thread lib with
    | Some th => if gt (wakes_at th) (now + 2) then now + 2 else wakes_at th
    | None => now
    end in
  let lib := elapse returns_at lib in
  ({| sound_cache := sound_cache lib;
      communication_analyzer :=
        (fun _ => update_predator_status false 0 returns_at) <$> communication_analyzer lib;
      playback_thread := None;
      stop_playback_event := true;
      live_threads := live_threads lib;
      threads_started := threads_started lib |},
   returns_at).

(** [play_predator_sound(sound_name, volume, repeat)] called at time [now]:
    the success flag, the object and the time at which the call returns.
    [volume] is stored on the [Sound] and [repeat] is not read.  The new
    thread runs at once up to its first [time.sleep(duration)]; a negative
    duration makes that call raise, and the thread returns. *)
Definition play_predator_sound (name : string) (now : Q) (lib : PredatorSoundLibrary)
  : bool * PredatorSoundLibrary * Q :=
  let '(lib, t) := stop_predator_sound now lib in
  match cached_length name (sound_cache lib) with
  | Some d =>
      let tid := threads_started lib in
      let sleeps := negb (gt 0 d) in
      (true,
       {| sound_cache := sound_cache lib;
          communication_analyzer :=
            (fun _ => if sleeps then update_predator_status true 9999 t
                      else update_predator_status false 0 t)
              <$> communication_analyzer lib;
          playback_thread := Some tid;
          stop_playback_event := false;
          live_threads :=
            if sleeps
            then live_threads lib ++
                 [{| thread_id := tid; sound_name := name;
                     duration := d; wakes_at := t + d |}]
            else live_threads lib;
          threads_started := S tid |},
       t)
  | None => (false, lib, t)
  end.

(** *** [AIDecisionEngine] *)

(** The [bird_data] dict; every key is read with [.get]. *)
Record bird_data : Type := {
  species : option species_info;
  alert_level : option string;
  risk_score : option Q;
  communication_analysis : option (gmap string pyval);
  behavioral_prediction : option intent_dict
}.

(** [bird_data.get('communication_analysis', {}).get(key, False)] as a
    condition. *)
Definition communication_flag (bd : bird_data) (key : string) : bool :=
  truthy (get (default ∅ (communication_analysis bd)) key (PBool false)).

(** An entry of [decision_history]; only the keys the engine reads. *)
Record incident : Type := {
  incident_species : option string;
  incident_success_rate : option Q
}.

(** The keys of the historical-context dict that are numbers; the most
    common action and the recurrence label are narrative. *)
Record historical_context : Type := {
  similar_incidents : nat;
  average_success_rate : Q
}.

(** The [analysis] dict of [analyze_situation], without the environmental
    factors, which depend on the wall clock only and are not read by the
    scoring. *)
Record situation : Type := {
  threat_level : ThreatLevel;
  urgency_score : Q;
  complexity_factors : list string;
  historical : historical_context
}.

Definition _assess_threat_level (bd : bird_data) : ThreatLevel :=
  let risk := default 0 (risk_score bd) in
  let alert := default "LOW" (alert_level bd) in
  let flock_behavior := communication_flag bd "flock_communication" in
  if gt risk 0.8 || String.eqb alert "CRITICAL" then CRITICAL
  else if gt risk 0.6 || String.eqb alert "HIGH" || flock_behavior then HIGH
  else if gt risk 0.4 || String.eqb alert "MEDIUM" then MEDIUM
  else LOW.

Definition _calculate_urgency_score (bd : bird_data) : Q :=
  let base_score := default 0 (risk_score bd) in
  let urgency_level :=
    get (default ∅ (communication_analysis bd)) "urgency_level" (PStr "low") in
  let base_score :=
    if eq_str urgency_level "high" then base_score + 0.2
    else if eq_str urgency_level "medium" then base_score + 0.1
    else base_score in
  let base_score :=
    if communication_flag bd "flock_communication" then base_score + 0.15
    else base_score in
  let base_score :=
    if communication_flag bd "territorial_behavior" then base_score + 0.1
    else base_score in
  min base_score 1.0.

Definition _identify_complexity_factors (bd : bird_data) : list string :=
  let factors := [] in
  let factors :=
    if communication_flag bd "flock_communication"
    then factors ++ ["Flock coordination detected"] else factors in
  let factors :=
    if communication_flag bd "territorial_behavior"
    then factors ++ ["Territorial behavior - birds may return"] else factors in
  let factors :=
    if communication_flag bd "alarm_signal"
    then factors ++ ["Alarm signals - potential for mass movement"] else factors in
  let behavioral_intent :=
    default "" (behavioral_prediction bd ≫= primary_intent) in
  if String.eqb behavioral_intent "territory_defense"
  then factors ++ ["Territory defense - persistent threat"]
  else if String.eqb behavioral_intent "flock_gathering"
  then factors ++ ["Flock gathering - increasing numbers expected"]
  else factors.

(** [bird_data.get('species', {}).get('scientific', 'unknown')] *)
Definition scientific_name (bd : bird_data) : string :=
  default "unknown" (species bd ≫= scientific).

Definition _get_historical_context (decision_history : list incident)
    (bd : bird_data) : historical_context :=
  let sp := scientific_name bd in
  let similar :=
    List.filter
      (fun i => bool_decide (incident_species i = Some sp)) decision_history in
  match similar with
  | [] => {| similar_incidents := 0; average_success_rate := 0 |}
  | _ =>
      {| similar_incidents := length similar;
         average_success_rate :=
           sum ((fun i => default 0 (incident_success_rate i)) <$> similar)
           / len similar |}
  end.

Definition analyze_situation (decision_history : list incident) (bd : bird_data)
  : situation :=
  {| threat_level := _assess_threat_level bd;
     urgency_score := _calculate_urgency_score bd;
     complexity_factors := _identify_complexity_factors bd;
     historical := _get_historical_context decision_history bd |}.

(** *** [StrategicResponseSystem] *)

Definition _generate_low_threat_strategies (bd : bird_data) : list StrategicAction :=
  [ {| action_type := MONITOR; priority := 1;
       description := "Continue passive monitoring with standard sensors";
       estimated_duration := 15;
       resources_required := ["audio_sensors"; "visual_monitoring"];
       success_probability := 0.9;
       risk_assessment := "Minimal risk - routine monitoring sufficient";
       automated := true |};
    {| action_type := SOUND_DETERRENT; priority := 2;
       description := "Gentle sound deterrent if bird approaches critical zones";
       estimated_duration := 2;
       resources_required := ["speaker_system"];
       success_probability := 0.7;
       risk_assessment := "Low risk - gentle deterrent should be sufficient";
       automated := true |} ].

(** [bird_data.get('species', {}).get('common', 'Unknown')] *)
Definition common_name_of (bd : bird_data) : string :=
  default "Unknown" (species bd ≫= common_name).

Definition _generate_medium_threat_strategies (bd : bird_data) : list StrategicAction :=
  let strategies :=
    [ {| action_type := SOUND_DETERRENT; priority := 1;
         description :=
           "Deploy predator sound deterrent optimized for " +:+ common_name_of bd;
         estimated_duration := 5;
         resources_required := ["speaker_system"; "predator_sounds"];
         success_probability := 0.8;
         risk_assessment := "Medium risk - sound deterrent should be effective";
         automated := true |};
      {| action_type := MONITOR; priority := 2;
         description := "Enhanced monitoring with increased sensor sensitivity";
         estimated_duration := 10;
         resources_required := ["audio_sensors"; "visual_monitoring"; "radar"];
         success_probability := 0.85;
         risk_assessment := "Essential for tracking bird response to deterrent";
         automated := true |} ] in
  if communication_flag bd "flock_communication" then
    strategies ++
    [ {| action_type := DELAY; priority := 3;
         description := "Consider brief operational delay if deterrent ineffective";
         estimated_duration := 3;
         resources_required := ["air_traffic_control"];
         success_probability := 0.95;
         risk_assessment := "Precautionary delay to prevent flock collision";
         automated := false |} ]
  else strategies.

Definition _generate_high_threat_strategies (bd : bird_data) : list StrategicAction :=
  [ {| action_type := SOUND_DETERRENT; priority := 1;
       description :=
         "Immediate intensive predator sound deployment for " +:+ common_name_of bd;
       estimated_duration := 3;
       resources_required := ["speaker_system"; "predator_sounds"];
       success_probability := 0.75;
       risk_assessment := "High urgency - immediate deterrent required";
       automated := true |};
    {| action_type := DELAY; priority := 2;
       description := "Implement operational delay until threat clears";
       estimated_duration := 10;
       resources_required := ["air_traffic_control"; "operations_team"];
       success_probability := 0.9;
       risk_assessment := "Necessary precaution for high-risk scenario";
       automated := false |};
    {| action_type := REDIRECT; priority := 3;
       description := "Prepare alternative routing if delay extends";
       estimated_duration := 15;
       resources_required := ["air_traffic_control"; "flight_planning"];
       success_probability := 0.8;
       risk_assessment := "Contingency plan for extended bird presence";
       automated := false |} ].

Definition _generate_critical_threat_strategies (bd : bird_data) : list StrategicAction :=
  [ {| action_type := EMERGENCY_STOP; priority := 1;
       description := "Immediate emergency stop of all runway operations";
       estimated_duration := 1;
       resources_required := ["emergency_protocols"; "all_personnel"];
       success_probability := 0.99;
       risk_assessment := "Critical - immediate action required";
       automated := true |};
    {| action_type := SOUND_DETERRENT; priority := 2;
       description := "Maximum intensity predator sound deployment";
       estimated_duration := 5;
       resources_required := ["speaker_system"; "predator_sounds"];
       success_probability := 0.7;
       risk_assessment := "Emergency deterrent - all available resources";
       automated := true |};
    {| action_type := EVACUATE; priority := 3;
       description := "Evacuate aircraft from immediate danger zone";
       estimated_duration := 20;
       resources_required := ["ground_crew"; "emergency_vehicles"];
       success_probability := 0.95;
       risk_assessment := "Essential for preventing catastrophic collision";
       automated := false |} ].

(** [self.strategy_templates[threat_level]] *)
Definition strategy_templates (level : ThreatLevel)
  : bird_data -> list StrategicAction :=
  match level with
  | LOW => _generate_low_threat_strategies
  | MEDIUM => _generate_medium_threat_strategies
  | HIGH => _generate_high_threat_strategies
  | CRITICAL => _generate_critical_threat_strategies
  end.

Definition _calculate_confidence_score (analysis : situation)
    (strategies : list StrategicAction) : res Q :=
  let base_confidence := 0.8 in
  let n_factors := len (complexity_factors analysis) in
  let confidence_reduction := min (n_factors * 0.1) 0.3 in
  let base_confidence :=
    if (5 <? similar_incidents (historical analysis))%nat
    then base_confidence + 0.1 else base_confidence in
  avg_strategy_success ←
    div (sum (success_probability <$> strategies)) (len strategies);
  let combined_confidence := (base_confidence + avg_strategy_success) / 2 in
  mret (max 0.0 (min 1.0 (combined_confidence - confidence_reduction))).

(** The fields of the recommendation that the engine computes from
    numbers; the timestamp, the formatted analysis, the reasoning text and
    the success metrics are left out. *)
Record NextActionRecommendation : Type := {
  recommended_actions : list StrategicAction;
  risk_factors : list string;
  confidence_score : Q
}.

Definition generate_next_action_recommendation (decision_history : list incident)
    (bd : bird_data) : res NextActionRecommendation :=
  let situation_analysis := analyze_situation decision_history bd in
  let strategies := strategy_templates (threat_level situation_analysis) bd in
  score ← _calculate_confidence_score situation_analysis strategies;
  mret {| recommended_actions := strategies;
          risk_factors := complexity_factors situation_analysis;
          confidence_score := score |}.

(** An entry of [response_history]. *)
Record log_entry : Type := {
  log_timestamp : Q;
  log_action : string;
  log_species : string;
  log_threat_level : string;
  log_success_probability : Q;
  log_automated : bool
}.

Record StrategicResponseSystem : Type := {
  decision_history : list incident;
  predator_sounds : PredatorSoundLibrary;
  response_history : list log_entry
}.

(** What one run of the execution loop does, in order. *)
Inductive effect : Type :=
| EnhancedMonitoring (action : StrategicAction)
| EmergencyStop (action : StrategicAction)
| ActionLogged (entry : log_entry).

Definition make_log_entry (action : StrategicAction) (bd : bird_data) (now : Q)
  : log_entry :=
  {| log_timestamp := now;
     log_action := ActionType_value (action_type action);
     log_species := scientific_name bd;
     log_threat_level := default "UNKNOWN" (alert_level bd);
     log_success_probability := success_probability action;
     log_automated := automated action |}.

Definition _log_action_execution (action : StrategicAction) (bd : bird_data)
    (now : Q) (sys : StrategicResponseSystem) : StrategicResponseSystem :=
  let history := response_history sys ++ [make_log_entry action bd now] in
  {| decision_history := decision_history sys;
     predator_sounds := predator_sounds sys;
     response_history :=
       if (1000 <? length history)%nat then last_n 1000 history else history |}.

(** The executor the loop dispatches to, if the action type has one. *)
Definition dispatch (action : StrategicAction) : list effect :=
  match action_type action with
  | MONITOR => [EnhancedMonitoring action]
  | EMERGENCY_STOP => [EmergencyStop action]
  | _ => []
  end.

(** One iteration of the loop of [execute_automated_response]. *)
Definition execute_one (bd : bird_data) (now : Q)
    (st : StrategicResponseSystem * list effect) (action : StrategicAction)
  : StrategicResponseSystem * list effect :=
  if automated action then
    if bool_decide (action_type action = SOUND_DETERRENT) then st
    else
      (_log_action_execution action bd now st.1,
       st.2 ++ dispatch action ++ [ActionLogged (make_log_entry action bd now)])
  else st.

Definition execute_automated_response (bd : bird_data)
    (recommendation : NextActionRecommendation) (now : Q)
    (sys : StrategicResponseSystem) : StrategicResponseSystem * list effect :=
  fold_left (execute_one bd now) (recommended_actions recommendation) (sys, []).

(** [_execute_sound_deterrent(bird_data, action)], the one method of the
    system that engages the sound library. *)
Definition _execute_sound_deterrent (bd : bird_data) (draw : nat) (now : Q)
    (sys : StrategicResponseSystem) : res (bool * StrategicResponseSystem) :=
  let behavior := default "unknown" (behavioral_prediction bd ≫= primary_intent) in
  predator_sound ←
    get_effective_predator_sound (sound_cache (predator_sounds sys))
      (common_name_of bd) behavior draw;
  let '(success, lib, _) :=
    play_predator_sound predator_sound now (predator_sounds sys) in
  mret (success,
        {| decision_history := decision_history sys;
           predator_sounds := lib;
           response_history := response_history sys |}).

(** *** [NextActionPanel] *)

Record NextActionPanel : Type := {
  strategic_system : StrategicResponseSystem;
  current_recommendation : option NextActionRecommendation
}.

Definition update_recommendation (bd : bird_data) (now : Q) (panel : NextActionPanel)
  : res (NextActionPanel * list effect) :=
  recommendation ←
    generate_next_action_recommendation
      (decision_history (strategic_system panel)) bd;
  let '(sys, effects) :=
    execute_automated_response bd recommendation now (strategic_system panel) in
  mret ({| strategic_system := sys;
           current_recommendation := Some recommendation |}, effects).

(** A run of the panel over a sequence of detections, each with the time
    at which it is processed. *)
Fixpoint process_detections (detections : list (bird_data * Q))
    (panel : NextActionPanel) : res (NextActionPanel * list effect) :=
  match detections with
  | [] => mret (panel, [])
  | (bd, now) :: rest =>
      '(panel', effects) ← update_recommendation bd now panel;
      '(panel'', effects') ← process_detections rest panel';
      mret (panel'', effects ++ effects')
  end.

(** *** Vocabulary of the statements *)

(** A sequence of [play_predator_sound] calls, each with its sound name
    and the time of the call, starting from an object whose last call
    returned at [t]: the object after the last call and the time at which
    that call returns. *)
Fixpoint play_all (calls : list (string * Q)) (lib : PredatorSoundLibrary) (t : Q)
  : PredatorSoundLibrary * Q :=
  match calls with
  | [] => (lib, t)
  | (name, now) :: rest =>
      let '(_, lib', t') := play_predator_sound name now lib in
      play_all rest lib' t'
  end.

(** The calls are made one after the other: each at or after the time
    the previous one returned. *)
Fixpoint sequential (calls : list (string * Q)) (lib : PredatorSoundLibrary) (t : Q)
  : Prop :=
  match calls with
  | [] => True
  | (name, now) :: rest =>
      t <= now
      /\ sequential rest (play_predator_sound name now lib).1.2
                         (play_predator_sound name now lib).2
  end.

(** Every cached sound lasts at most the two seconds [join] waits. *)
Definition short_sounds (cache : list (string * Q)) : Prop :=
  Forall (fun kv => 0 <= snd kv /\ snd kv <= 2) cache.

(** At most one playback thread is alive, and it is the one the object
    holds in [_playback_thread]; [t] is the time the last call returned. *)
Definition at_most_current (lib : PredatorSoundLibrary) (t : Q) : Prop :=
  live_threads lib = []
  \/ exists th,
       live_threads lib = [th]
       /\ playback_thread lib = Some (thread_id th)
       /\ 0 <= duration th /\ duration th <= 2
       /\ wakes_at th <= t + duration th.

(** The action type an effect of the execution loop is about, as the
    string the log records. *)
Definition effect_kind (e : effect) : string :=
  match e with
  | EnhancedMonitoring action => ActionType_value (action_type action)
  | EmergencyStop action => ActionType_value (action_type action)
  | ActionLogged entry => log_action entry
  end.

(** The actions the loop takes through its execution branch. *)
Definition executed_automatically (action : StrategicAction) : bool :=
  automated action && negb (bool_decide (action_type action = SOUND_DETERRENT)).

(** An executor of the loop ran for [action]: the call
    [_execute_enhanced_monitoring(action)] or
    [_execute_emergency_stop(action)] is among the effects. *)
Definition executed (action : StrategicAction) (effects : list effect) : Prop :=
  EnhancedMonitoring action ∈ effects \/ EmergencyStop action ∈ effects.

(** The execution rule as the specification words it: every action
    flagged automated, other than a sound deterrent, is executed and
    logged. *)
Definition spec_every_automated_action_executed (bd : bird_data)
    (actions : list StrategicAction) (now : Q) (effects : list effect) : Prop :=
  forall a,
    a ∈ actions -> automated a = true -> action_type a <> SOUND_DETERRENT ->
    executed a effects /\ ActionLogged (make_log_entry a bd now) ∈ effects.

(** [clamp(lo, hi, x)] *)
Definition clamp (lo hi x : Q) : Q := Qmax lo (Qmin hi x).

(** The average success probability of a list of actions. *)
Definition average_success (strategies : list StrategicAction) : Q :=
  Py.sum (success_probability <$> strategies) / len strategies.

(** The confidence formula of the specification without the bonus. *)
Definition base_formula (n_factors : nat) (strategies : list StrategicAction) : Q :=
  (0.8 + average_success strategies) / 2
  - Qmin (0.1 * inject_Z (Z.of_nat n_factors)) 0.3.

(** The confidence score as the specification words it: the clamped
    formula with a bonus of 0.1 on the score when more than five similar
    incidents are on record.  The two definitions place the bonus after
    and before the clamp. *)
Definition spec_confidence_bonus_on_score (n_factors similar : nat)
    (strategies : list StrategicAction) : Q :=
  clamp 0 1 (base_formula n_factors strategies)
  + (if (5 <? similar)%nat then 0.1 else 0).

Definition spec_confidence_bonus_in_clamp (n_factors similar : nat)
    (strategies : list StrategicAction) : Q :=
  clamp 0 1 (base_formula n_factors strategies
             + (if (5 <? similar)%nat then 0.1 else 0)).

(** The number of incidents on record for the species of [bd]. *)
Definition count_similar (history : list incident) (bd : bird_data) : nat :=
  length (List.filter
            (fun i => bool_decide (incident_species i = Some (scientific_name bd)))
            history).

End Strategic.

(** ** [bird_communication_system.py]: insights, the detection loop and
       the stored segments *)

Module Monitor.
Import Py Comm.

(** [interpret_call_meaning(communication_patterns)] *)
Definition interpret_call_meaning (communication_patterns : gmap string pyval)
  : res (list string) :=
  let interpretations := [] in
  alarm ← getitem communication_patterns "alarm_signal";
  let interpretations :=
    if truthy alarm
    then interpretations ++ ["Alarm call - indicates perceived threat"]
    else interpretations in
  territorial ← getitem communication_patterns "territorial_behavior";
  let interpretations :=
    if truthy territorial
    then interpretations ++ ["Territorial call - defending area"]
    else interpretations in
  flock ← getitem communication_patterns "flock_communication";
  let interpretations :=
    if truthy flock
    then interpretations ++ ["Flock coordination - group movement"]
    else interpretations in
  urgency ← getitem communication_patterns "urgency_level";
  let interpretations :=
    if eq_str urgency "critical"
    then interpretations ++ ["High urgency - immediate response needed"]
    else interpretations in
  mret (match interpretations with
        | [] => ["Normal vocalization"]
        | _ => interpretations
        end).

(** [d['primary_intent']] on the result dict of the predictor. *)
Definition primary_intent_item (behavioral_intent : intent_dict) : res string :=
  match primary_intent behavioral_intent with
  | Some v => Ok v
  | None => Raise (KeyError "primary_intent")
  end.

(** [assess_threat_level(communication_patterns, behavioral_intent)] *)
Definition assess_threat_level (communication_patterns : gmap string pyval)
    (behavioral_intent : intent_dict) : res (list string) :=
  let threat_factors := [] in
  alarm ← getitem communication_patterns "alarm_signal";
  let threat_factors :=
    if truthy alarm
    then threat_factors ++ ["Active alarm signals detected"]
    else threat_factors in
  primary ← primary_intent_item behavioral_intent;
  let threat_factors :=
    if String.eqb primary "landing_approach"
    then threat_factors ++ ["Potential landing approach behavior"]
    else threat_factors in
  flock ← getitem communication_patterns "flock_communication";
  let threat_factors :=
    if truthy flock
    then threat_factors ++ ["Flock coordination increases collision risk"]
    else threat_factors in
  urgency ← getitem communication_patterns "urgency_level";
  let threat_factors :=
    if eq_str urgency "high" || eq_str urgency "critical"
    then threat_factors ++ ["High urgency vocalizations"]
    else threat_factors in
  mret (match threat_factors with
        | [] => ["No significant threat indicators"]
        | _ => threat_factors
        end).

(** [get_monitoring_recommendations(behavioral_intent)] *)
Definition get_monitoring_recommendations (behavioral_intent : intent_dict)
  : list string :=
  let primary := default "unknown" (primary_intent behavioral_intent) in
  let conf := default 0.0 (confidence behavioral_intent) in
  let recommendations :=
    if String.eqb primary "landing_approach" && gt conf 0.5 then
      ["Increase visual monitoring of approach corridors";
       "Activate bird dispersal systems"]
    else if String.eqb primary "flock_gathering" && gt conf 0.4 then
      ["Monitor for increasing flock size";
       "Prepare for potential mass movement"]
    else if String.eqb primary "territory_defense" && gt conf 0.3 then
      ["Bird may remain in area - sustained monitoring needed"]
    else [] in
  match recommendations with
  | [] => ["Continue standard monitoring protocols"]
  | _ => recommendations
  end.

(** An entry of [recording.detections], as the species classifier
    supplies it. *)
Record detection : Type := {
  det_scientific_name : string;
  det_common_name : string;
  det_confidence : Q;
  det_start_time : Q;
  det_end_time : Q
}.

(** The [alert] dict, without its timestamp and its audio-segment
    metadata. *)
Record alert : Type := {
  al_species : species_info;
  al_confidence : Q;
  al_risk_score : Q;
  al_alert_level : string;
  al_recommended_action : string;
  al_communication_analysis : gmap string pyval;
  al_behavioral_prediction : intent_dict;
  al_detection_time : Q * Q;
  al_call_interpretation : list string;
  al_threat_assessment : list string;
  al_recommended_monitoring : list string
}.

(** The body of [for detection in recording.detections] in
    [analyze_audio_with_ai], on the features of the chunk and the
    communication history: the alert, and the history with the new
    pattern appended and cut to its last 100 entries.  The alert
    callbacks are not part of the model. *)
Definition process_detection (features : option audio_features) (d : detection)
    (communication_history : list (gmap string pyval))
  : res (alert * list (gmap string pyval)) :=
  let si := {| scientific := Some (det_scientific_name d);
               common_name := Some (det_common_name d) |} in
  let communication_patterns := analyze_communication_patterns features (Some si) in
  let behavioral_intent :=
    predict_behavioral_intent communication_patterns communication_history in
  risk ← calculate_enhanced_risk_score (det_scientific_name d) (det_confidence d)
           communication_patterns behavioral_intent;
  let level_action := alert_level_and_action risk in
  interpretation ← interpret_call_meaning communication_patterns;
  threat ← assess_threat_level communication_patterns behavioral_intent;
  let monitoring := get_monitoring_recommendations behavioral_intent in
  let history := communication_history ++ [communication_patterns] in
  let history :=
    if (100 <? length history)%nat then last_n 100 history else history in
  mret ({| al_species := si;
           al_confidence := det_confidence d;
           al_risk_score := risk;
           al_alert_level := level_action.1;
           al_recommended_action := level_action.2;
           al_communication_analysis := communication_patterns;
           al_behavioral_prediction := behavioral_intent;
           al_detection_time := (det_start_time d, det_end_time d);
           al_call_interpretation := interpretation;
           al_threat_assessment := threat;
           al_recommended_monitoring := monitoring |},
        history).

(** The loop over the detections.  The history is a field of the
    analyzer: what earlier iterations appended stays when a later one
    raises. *)
Fixpoint detection_loop (features : option audio_features)
    (detections : list detection)
    (communication_history : list (gmap string pyval)) (alerts : list alert)
  : list (gmap string pyval) * res (list alert) :=
  match detections with
  | [] => (communication_history, Ok alerts)
  | d :: rest =>
      match process_detection features d communication_history with
      | Ok (a, history) => detection_loop features rest history (alerts ++ [a])
      | Raise e => (communication_history, Raise e)
      end
  end.

(** [analyze_audio_with_ai], from the point where the features and the
    detections of the chunk are known, called at time [now]: the alerts
    it returns and the communication history it leaves. *)
Definition analyze_audio_with_ai (status : predator_status) (now : Q)
    (features : option audio_features) (detections : list detection)
    (communication_history : list (gmap string pyval))
  : list alert * list (gmap string pyval) :=
  if is_predator_sound_active status now then ([], communication_history)
  else
    let out := detection_loop features detections communication_history [] in
    (try_except out.2 (fun _ => []), out.1).

(** The pattern the loop computes for a detection. *)
Definition pattern_of (features : option audio_features) (d : detection)
  : gmap string pyval :=
  analyze_communication_patterns features
    (Some {| scientific := Some (det_scientific_name d);
             common_name := Some (det_common_name d) |}).

(** What one iteration of the loop computes for a detection [d] on the
    history [h]. *)
Definition alert_for (features : option audio_features) (d : detection)
    (h : list (gmap string pyval)) (a : alert) : Prop :=
  al_communication_analysis a = pattern_of features d
  /\ al_behavioral_prediction a
     = predict_behavioral_intent (pattern_of features d) h
  /\ calculate_enhanced_risk_score (det_scientific_name d) (det_confidence d)
       (pattern_of features d) (al_behavioral_prediction a)
     = Ok (al_risk_score a)
  /\ (al_alert_level a, al_recommended_action a)
     = alert_level_and_action (al_risk_score a)
  /\ al_call_interpretation a <> []
  /\ al_threat_assessment a <> []
  /\ al_recommended_monitoring a <> [].

(** The history after the loop has run over the detections. *)
Definition history_after (features : option audio_features)
    (detections : list detection) (h : list (gmap string pyval))
  : list (gmap string pyval) :=
  fold_left (fun h d => last_n 100 (h ++ [pattern_of features d])) detections h.

(** The alerts of a run of the loop: one per detection, in order, each
    computed on the history the earlier iterations left. *)
Fixpoint alerts_for (features : option audio_features)
    (detections : list detection) (h : list (gmap string pyval))
    (alerts : list alert) : Prop :=
  match detections, alerts with
  | [], [] => True
  | d :: detections', a :: alerts' =>
      alert_for features d h a
      /\ alerts_for features detections'
           (last_n 100 (h ++ [pattern_of features d])) alerts'
  | _, _ => False
  end.

(** The rest of [predict_behavioral_intent] once the contributions are
    summed: normalisation, primary intent and confidence. *)
Definition finish_prediction (s : list (string * Q)) : res intent_dict :=
  let intent_scores := normalize s in
  primary ← max_key intent_scores;
  conf ← score_of primary intent_scores;
  mret {| primary_intent := Some primary;
          confidence := Some conf;
          all_scores := Some intent_scores |}.

(** *** Stored audio segments *)

(** The keys of a segment's metadata that the storage functions read. *)
Record segment : Type := {
  segment_id : string;
  file_path : option string
}.

(** [stored_segments], the paths that exist on disk, and the paths on
    which [os.remove] raises: a directory, a file that is locked or that
    the process may not delete. *)
Record storage : Type := {
  stored_segments : list segment;
  files : gset string;
  protected : gset string
}.

Definition MAX_STORED_SEGMENTS : nat := 100.

(** [os.remove(path)] on a path that exists; [None] when it raises, and
    the file is then still there. *)
Definition os_remove (protected : gset string) (p : string) (fs : gset string)
  : option (gset string) :=
  if bool_decide (p ∈ protected) then None else Some (fs ∖ {[p]}).

(** [if file_path and os.path.exists(file_path): os.remove(file_path)] *)
Definition remove_file (protected : gset string) (path : option string)
    (fs : gset string) : option (gset string) :=
  match path with
  | Some p =>
      if String.eqb p "" then Some fs
      else if bool_decide (p ∈ fs) then os_remove protected p fs
      else Some fs
  | None => Some fs
  end.

(** The loop [for segment in segments_to_remove] of
    [cleanup_old_segments]: the files on disk after it, and whether it ran
    to its end.  It stops at the first [os.remove] that raises, with the
    files removed so far gone. *)
Fixpoint remove_files (protected : gset string) (segs : list segment)
    (fs : gset string) : gset string * bool :=
  match segs with
  | [] => (fs, true)
  | seg :: rest =>
      match remove_file protected (file_path seg) fs with
      | Some fs' => remove_files protected rest fs'
      | None => (fs, false)
      end
  end.

(** [cleanup_old_segments()].  The body is inside [try]: when a removal
    raises, the handler prints the error and the assignment that cuts the
    list is not reached. *)
Definition cleanup_old_segments (st : storage) : storage :=
  if (MAX_STORED_SEGMENTS <? length (stored_segments st))%nat then
    let segments_to_remove :=
      take (length (stored_segments st) - MAX_STORED_SEGMENTS) (stored_segments st) in
    let removal := remove_files (protected st) segments_to_remove (files st) in
    {| stored_segments :=
         if removal.2 then last_n MAX_STORED_SEGMENTS (stored_segments st)
         else stored_segments st;
       files := removal.1;
       protected := protected st |}
  else st.

(** [save_audio_segment], when the file is written: the metadata of the
    new segment is appended and the old segments are cleaned up. *)
Definition save_audio_segment (id path : string) (st : storage) : storage :=
  cleanup_old_segments
    {| stored_segments :=
         stored_segments st ++ [{| segment_id := id; file_path := Some path |}];
       files := files st ∪ {[path]};
       protected := protected st |}.

(** [get_audio_segment_info(segment_id)] *)
Definition get_audio_segment_info (id : string) (st : storage) : option segment :=
  List.find (fun seg => String.eqb (segment_id seg) id) (stored_segments st).

(** [delete_audio_segment(segment_id)].  The body is inside [try]: a
    segment without a [file_path] key makes the lookup raise, and an
    [os.remove] that raises does so before the list is filtered; in both
    cases the handler returns [False] and nothing has changed. *)
Definition delete_audio_segment (id : string) (st : storage) : bool * storage :=
  match get_audio_segment_info id st with
  | Some seg =>
      match file_path seg with
      | Some p =>
          let removed :=
            if bool_decide (p ∈ files st) then os_remove (protected st) p (files st)
            else Some (files st) in
          match removed with
          | Some fs =>
              (true,
               {| stored_segments :=
                    List.filter (fun s => negb (String.eqb (segment_id s) id))
                      (stored_segments st);
                  files := fs;
                  protected := protected st |})
          | None => (false, st)
          end
      | None => (false, st)
      end
  | None => (false, st)
  end.

(** The storage is consistent when the stored segments name pairwise
    different files and each of these files exists. *)
Definition files_present (st : storage) : Prop :=
  NoDup (file_path <$> stored_segments st)
  /\ Forall (fun seg => exists p, file_path seg = Some p /\ p <> "" /\ p ∈ files st)
            (stored_segments st).

(** The removal of the file of [seg] raises on the disk [fs]. *)
Definition removal_raises (protected fs : gset string) (seg : segment) : Prop :=
  exists p, file_path seg = Some p /\ p <> "" /\ p ∈ fs /\ p ∈ protected.

(** The segments that [save_audio_segment] has to drop from the front of
    the list [segs] to keep 100 with the new one. *)
Definition dropped_by_save (segs : list segment) : list segment :=
  take (length segs + 1 - MAX_STORED_SEGMENTS) segs.

(** A storage of [n] segments numbered from 1, each with its file on
    disk, none of them protected. *)
Definition numbered_path (n : nat) : string :=
  String (ascii_of_nat (n + 64)) ".wav".

Definition numbered_segment (n : nat) : segment :=
  {| segment_id := String (ascii_of_nat (n + 64)) EmptyString;
     file_path := Some (numbered_path n) |}.

Definition numbered_storage (n : nat) : storage :=
  {| stored_segments := numbered_segment <$> seq 1 n;
     files := list_to_set (numbered_path <$> seq 1 n);
     protected := ∅ |}.

End Monitor.

(** ** [strategic_response.py] and [services/strategic_service.py]: metrics,
       manual actions and the conversion of alerts *)

Module Panel.
Import Py Comm Strategic Monitor.

(** [threat_level.value] *)
Definition ThreatLevel_value (t : ThreatLevel) : string :=
  match t with
  | LOW => "LOW"
  | MEDIUM => "MEDIUM"
  | HIGH => "HIGH"
  | CRITICAL => "CRITICAL"
  end.

(** The [success_metrics] dict. *)
Record success_metrics : Type := {
  overall_success_probability : Q;
  automation_coverage : Q;
  resource_efficiency : Q;
  time_efficiency : Q
}.

(** [sum(1 for s in strategies if s.automated)] *)
Definition count_automated (strategies : list StrategicAction) : nat :=
  length (List.filter automated strategies).

Definition _calculate_success_metrics (strategies : list StrategicAction)
  : res success_metrics :=
  overall ← div (sum (success_probability <$> strategies)) (len strategies);
  coverage ← div (inject_Z (Z.of_nat (count_automated strategies))) (len strategies);
  resources ←
    div (sum ((fun s => len (resources_required s)) <$> strategies))
        (len strategies * 10);
  mret {| overall_success_probability := overall;
          automation_coverage := coverage;
          resource_efficiency := 1.0 - resources;
          time_efficiency :=
            max 0 (1.0 - sum ((fun s => inject_Z (estimated_duration s))
                                <$> strategies) / 60) |}.

(** [NextActionPanel.execute_manual_action(action_id)]; the panel is not
    changed by it. *)
Definition execute_manual_action (action_id : Z) (panel : NextActionPanel) : bool :=
  match current_recommendation panel with
  | None => false
  | Some recommendation =>
      if (0 <=? action_id)%Z
         && (action_id <? Z.of_nat (length (recommended_actions recommendation)))%Z
      then
        match recommended_actions recommendation !! Z.to_nat action_id with
        | Some action => negb (automated action)
        | None => false
        end
      else false
  end.

(** [StrategicResponseService._convert_alert_to_bird_data] on an alert of
    the detection loop. *)
Definition _convert_alert_to_bird_data (a : alert) : bird_data :=
  {| species := Some (al_species a);
     alert_level := Some (al_alert_level a);
     risk_score := Some (al_risk_score a);
     communication_analysis := Some (al_communication_analysis a);
     behavioral_prediction := Some (al_behavioral_prediction a) |}.

(** The log entries among the effects of the execution loop, in order. *)
Definition logged (effects : list effect) : list log_entry :=
  omap (fun e => match e with
                 | ActionLogged entry => Some entry
                 | _ => None
                 end) effects.

(** [action.action_type == ActionType.SOUND_DETERRENT] *)
Definition is_sound_deterrent (action : StrategicAction) : bool :=
  bool_decide (action_type action = SOUND_DETERRENT).

(** The detection [bd] with the urgency level of its communication
    analysis set to [urgency]. *)
Definition with_urgency (urgency : string) (bd : bird_data) : bird_data :=
  {| species := species bd;
     alert_level := alert_level bd;
     risk_score := risk_score bd;
     communication_analysis :=
       Some (<["urgency_level" := PStr urgency]>
               (default ∅ (communication_analysis bd)));
     behavioral_prediction := behavioral_prediction bd |}.

End Panel.

(** * Properties *)

Import Py Comm Strategic.

(** ** Comparisons and clamps *)

Lemma gt_true (x y : Q) : gt x y = true <-> y < x.
Proof.
  unfold gt. rewrite negb_true_iff. split; intros H.
  - destruct (Qlt_le_dec y x) as [Hlt|Hle]; [exact Hlt|].
    apply Qle_bool_iff in Hle. congruence.
  - destruct (Qle_bool x y) eqn:E; [|reflexivity].
    apply Qle_bool_iff in E. lra.
Qed.

Lemma gt_false (x y : Q) : gt x y = false <-> x <= y.
Proof.
  unfold gt. rewrite negb_false_iff. apply Qle_bool_iff.
Qed.

(** Case analysis on a float comparison of the source, leaving the
    inequality it decides in the context. *)
Ltac case_gt x y :=
  let E := fresh "Hgt" in
  destruct (gt x y) eqn:E;
  [apply gt_true in E | apply gt_false in E].

Lemma min_le_r (a b : Q) : Py.min a b <= b.
Proof. unfold Py.min. case_gt a b; lra. Qed.

Lemma min_ge (a b c : Q) : c <= a -> c <= b -> c <= Py.min a b.
Proof. unfold Py.min. case_gt a b; lra. Qed.

Lemma min_eq (a b : Q) : Py.min a b == Qmin a b.
Proof.
  unfold Py.min. case_gt a b.
  - symmetry. apply Q.min_r. lra.
  - symmetry. apply Q.min_l. lra.
Qed.

Lemma max_eq (a b : Q) : Py.max a b == Qmax a b.
Proof.
  unfold Py.max. case_gt b a.
  - symmetry. apply Q.max_r. lra.
  - symmetry. apply Q.max_l. lra.
Qed.

(** ** The risk score *)

Lemma base_risk_bounds (species : string) : 0 <= base_risk_of species <= 1.
Proof.
  unfold base_risk_of.
  destruct (HIGH_RISK_SPECIES !! species) as [d|] eqn:E; [|lra].
  apply elem_of_list_to_map_2 in E.
  repeat (apply elem_of_cons in E as [E|E];
          [injection E as _ Hd; subst d; simpl; lra|]).
  by apply elem_of_nil in E.
Qed.

Lemma multiplier_cases (primary : string) :
  let m := get intent_multipliers primary 1.0 in
  m = 1.5 \/ m = 1.3 \/ m = 1.2 \/ m = 0.8 \/ m = 1.0.
Proof.
  unfold get. destruct (intent_multipliers !! primary) as [m|] eqn:E; simpl.
  - apply elem_of_list_to_map_2 in E.
    repeat (apply elem_of_cons in E as [E|E];
            [injection E as _ Hm; subst m; tauto|]).
    by apply elem_of_nil in E.
  - tauto.
Qed.

(** The interpolation factor [1 + (multiplier - 1) * intent_confidence]
    stays between 0.8 and 1.5. *)
Lemma intent_factor_bounds (primary : string) (c : Q) :
  0 <= c <= 1 ->
  0.8 <= 1 + (get intent_multipliers primary 1.0 - 1) * c <= 1.5.
Proof.
  intros Hc. destruct (multiplier_cases primary) as [H|[H|[H|[H|H]]]];
    rewrite H; lra.
Qed.

(** C1: for every species name, every detection confidence in [0, 1],
    every communication pattern that carries the three keys the scorer
    reads (with any values) and every behavioural-intent result whose
    confidence, when present, is in [0, 1], [calculate_enhanced_risk_score]
    returns a score, and the score is in [0, 1]. *)
Theorem risk_score_in_unit_interval
    (species : string) (conf : Q) (patterns : gmap string pyval)
    (intent : intent_dict) (alarm urgency flock : pyval) :
  0 <= conf <= 1 ->
  patterns !! "alarm_signal" = Some alarm ->
  patterns !! "urgency_level" = Some urgency ->
  patterns !! "flock_communication" = Some flock ->
  (forall c, confidence intent = Some c -> 0 <= c <= 1) ->
  exists r,
    calculate_enhanced_risk_score species conf patterns intent = Ok r
    /\ 0 <= r <= 1.
Proof.
  intros Hconf Ha Hu Hf Hic.
  unfold calculate_enhanced_risk_score, getitem.
  rewrite Ha, Hu, Hf. cbn [mbind res_bind Py.bind mret res_ret].
  eexists. split; [reflexivity|].
  pose proof (base_risk_bounds species) as Hb.
  assert (Hbase : 0 <= base_risk_of species * conf)
    by (apply Qmult_le_0_compat; lra).
  set (r0 := base_risk_of species * conf) in *.
  assert (Hic' : 0 <= default 0.0 (confidence intent) <= 1).
  { destruct (confidence intent) as [c|]; simpl; [by apply Hic | lra]. }
  pose proof (intent_factor_bounds
                (default "normal_flight" (primary_intent intent)) _ Hic') as Hfac.
  set (factor := 1 + _ * _) in *.
  split.
  - apply min_ge; [|lra].
    apply Qmult_le_0_compat; [|lra].
    destruct (truthy alarm), (eq_str urgency "critical"),
      (eq_str urgency "high"), (truthy flock); lra.
  - match goal with
    | |- Py.min ?a ?b <= _ => pose proof (min_le_r a b)
    end.
    lra.
Qed.

(** The scenario of the specification: a House Crow at confidence 0.88
    with an alarm call, high urgency and a flock, and the intent result
    [flock_gathering] at 0.5. *)
Lemma risk_score_in_unit_interval_witness :
  exists r,
    calculate_enhanced_risk_score "Corvus splendens" 0.88
      (<["alarm_signal" := PBool true]>
         (<["urgency_level" := PStr "high"]>
            (<["flock_communication" := PBool true]> default_patterns)))
      {| primary_intent := Some "flock_gathering";
         confidence := Some 0.5;
         all_scores := None |} = Ok r
    /\ 0 <= r <= 1.
Proof.
  apply (risk_score_in_unit_interval _ _ _ _
           (PBool true) (PStr "high") (PBool true)).
  - lra.
  - reflexivity.
  - reflexivity.
  - reflexivity.
  - intros c Hc. injection Hc as <-. lra.
Defined.

(** ** The alert thresholds *)

(** C7: the thresholds are strict; a score on a boundary belongs to the
    lower tier, and 0.8 itself gives HIGH / DELAY_TAKEOFF. *)
Theorem alert_thresholds_strict (r : Q) :
  (0.8 < r -> alert_level_and_action r = ("CRITICAL", "IMMEDIATE_RUNWAY_CLOSURE"))
  /\ (0.6 < r /\ r <= 0.8 -> alert_level_and_action r = ("HIGH", "DELAY_TAKEOFF"))
  /\ (0.4 < r /\ r <= 0.6 -> alert_level_and_action r = ("MEDIUM", "INCREASE_MONITORING"))
  /\ (r <= 0.4 -> alert_level_and_action r = ("LOW", "CONTINUE_NORMAL"))
  /\ alert_level_and_action 0.8 = ("HIGH", "DELAY_TAKEOFF").
Proof.
  unfold alert_level_and_action.
  repeat split; try reflexivity; intros H;
    case_gt r 0.8; try lra; try reflexivity;
    case_gt r 0.6; try lra; try reflexivity;
    case_gt r 0.4; try lra; reflexivity.
Qed.

(** ** The intent predictor *)

Lemma add_to_keys (key : string) (d : Q) (s : list (string * Q)) :
  fst <$> add_to key d s = fst <$> s.
Proof.
  unfold add_to. induction s as [|kv s IH]; [reflexivity|].
  rewrite !fmap_cons, IH. f_equal. by destruct (String.eqb (fst kv) key).
Qed.

Lemma set_to_keys (key : string) (v : Q) (s : list (string * Q)) :
  fst <$> set_to key v s = fst <$> s.
Proof.
  unfold set_to. induction s as [|kv s IH]; [reflexivity|].
  rewrite !fmap_cons, IH. f_equal. by destruct (String.eqb (fst kv) key).
Qed.

Lemma weights_keys (a t f ha ht : bool) :
  fst <$> weights a t f ha ht = intent_names.
Proof.
  unfold weights. destruct a, t, f, ha, ht; rewrite ?add_to_keys; reflexivity.
Qed.

Lemma normalize_keys (s : list (string * Q)) :
  fst <$> normalize s = fst <$> s.
Proof.
  unfold normalize. destruct (gt _ _); [|apply set_to_keys].
  rewrite <- list_fmap_compose. reflexivity.
Qed.

(** [sum] with a running total. *)
Lemma fold_left_Qplus (xs : list Q) (acc : Q) :
  fold_left Qplus xs acc == acc + Py.sum xs.
Proof.
  unfold Py.sum. revert acc.
  induction xs as [|x xs IH]; intros acc; simpl.
  - lra.
  - rewrite (IH (acc + x)), (IH (0 + x)). lra.
Qed.

Lemma sum_cons (x : Q) (xs : list Q) : Py.sum (x :: xs) == x + Py.sum xs.
Proof.
  unfold Py.sum at 1. simpl. rewrite fold_left_Qplus. lra.
Qed.

(** Dividing every value by [t] divides the sum by [t]. *)
Lemma sum_div (xs : list Q) (t : Q) :
  Py.sum ((fun v => v / t) <$> xs) == Py.sum xs / t.
Proof.
  induction xs as [|x xs IH].
  - unfold Py.sum. simpl. unfold Qdiv. lra.
  - rewrite fmap_cons, !sum_cons, IH. unfold Qdiv. lra.
Qed.

(** A positive total normalises to a distribution. *)
Lemma normalize_sum_positive (s : list (string * Q)) :
  0 < Py.sum (snd <$> s) ->
  normalize s = (fun kv => (fst kv, snd kv / Py.sum (snd <$> s))) <$> s
  /\ Py.sum (snd <$> normalize s) == 1.
Proof.
  intros Hpos. unfold normalize.
  apply gt_true in Hpos as Hgt. rewrite Hgt. split; [reflexivity|].
  assert (Hmap : snd <$> ((fun kv : string * Q =>
                             (fst kv, snd kv / Py.sum (snd <$> s))) <$> s)
                 = (fun v => v / Py.sum (snd <$> s)) <$> (snd <$> s))
    by (rewrite <- !list_fmap_compose; reflexivity).
  rewrite Hmap, sum_div.
  field. lra.
Qed.

(** Either no condition holds and the weights are the initial zeros, or
    the total is positive. *)
Lemma weights_zero_or_positive (a t f ha ht : bool) :
  weights a t f ha ht = intent_scores_init
  \/ 0 < Py.sum (snd <$> weights a t f ha ht).
Proof.
  destruct a, t, f, ha, ht;
    first [ left; reflexivity | right; vm_compute; reflexivity ].
Qed.

Lemma normalize_weights (a t f ha ht : bool) :
  let raw := weights a t f ha ht in
  Py.sum (snd <$> normalize raw) == 1
  /\ (0 < Py.sum (snd <$> raw) ->
      normalize raw = (fun kv => (fst kv, snd kv / Py.sum (snd <$> raw))) <$> raw)
  /\ (~ 0 < Py.sum (snd <$> raw) ->
      normalize raw = [("landing_approach", 0.0); ("territory_defense", 0.0);
                       ("flock_gathering", 0.0); ("predator_avoidance", 0.0);
                       ("normal_flight", 1.0)]).
Proof.
  intros raw. destruct (weights_zero_or_positive a t f ha ht) as [Hz|Hpos].
  - fold raw in Hz. rewrite Hz. repeat split.
    + intros H. vm_compute in H. discriminate.
  - fold raw in Hpos. destruct (normalize_sum_positive raw Hpos) as [Hn Hs].
    repeat split; [exact Hs | intros _; exact Hn | intros H; contradiction].
Qed.

(** [max_from] returns the first maximum of the running best followed by
    the rest. *)
Lemma max_from_first_max (best : string * Q) (rest : list (string * Q)) :
  first_max (best :: rest) (fst (max_from best rest)) (snd (max_from best rest)).
Proof.
  revert best. induction rest as [|kv rest IH]; intros best; simpl.
  - exists 0%nat. repeat split.
    + by destruct best.
    + intros [|j] kv' H; simpl in H; [injection H as <-; lra | done].
    + intros j kv' Hj. lia.
  - case_gt (snd kv) (snd best).
    + destruct (IH kv) as (i & Hi & Hle & Hlt).
      exists (S i). repeat split; [exact Hi | |].
      * intros [|j] kv' H; simpl in H.
        -- injection H as <-. specialize (Hle 0%nat kv eq_refl). lra.
        -- by apply (Hle j).
      * intros [|j] kv' Hj H; simpl in H.
        -- injection H as <-. specialize (Hle 0%nat kv eq_refl). lra.
        -- apply (Hlt j); [lia | exact H].
    + destruct (IH best) as (i & Hi & Hle & Hlt).
      destruct i as [|i].
      * exists 0%nat. simpl in Hi. repeat split; [exact Hi | |].
        -- intros [|[|j]] kv' H; simpl in H.
           ++ by apply (Hle 0%nat).
           ++ injection H as <-. injection Hi as Hi.
              apply (f_equal snd) in Hi. simpl in Hi. rewrite <- Hi. lra.
           ++ by apply (Hle (S j)).
        -- intros j kv' Hj. lia.
      * exists (S (S i)). simpl in Hi. repeat split; [exact Hi | |].
        -- intros [|[|j]] kv' H; simpl in H.
           ++ by apply (Hle 0%nat).
           ++ injection H as <-.
              assert (snd best < snd (max_from best rest))
                by (apply (Hlt 0%nat); [lia | reflexivity]).
              lra.
           ++ by apply (Hle (S j)).
        -- intros [|[|j]] kv' Hj H; simpl in H.
           ++ apply (Hlt 0%nat); [lia | exact H].
           ++ injection H as <-.
              assert (snd best < snd (max_from best rest))
                by (apply (Hlt 0%nat); [lia | reflexivity]).
              lra.
           ++ apply (Hlt (S j)); [lia | exact H].
Qed.

(** With distinct keys, [scores[key]] is the value paired with [key]. *)
Lemma score_of_lookup (scores : list (string * Q)) (i : nat) (key : string) (v : Q) :
  NoDup (fst <$> scores) ->
  scores !! i = Some (key, v) ->
  score_of key scores = Ok v.
Proof.
  revert i. induction scores as [|kv scores IH]; intros i Hnd Hi; [done|].
  rewrite fmap_cons in Hnd. apply NoDup_cons in Hnd as [Hnotin Hnd].
  destruct i as [|i]; simpl in Hi |- *.
  - injection Hi as ->. simpl. by rewrite String.eqb_refl.
  - destruct (String.eqb (fst kv) key) eqn:E.
    + apply String.eqb_eq in E. exfalso. apply Hnotin.
      rewrite E. apply list_elem_of_fmap. exists (key, v). split; [done|].
      by eapply list_elem_of_lookup_2.
    + by apply (IH i).
Qed.

Lemma intent_names_NoDup : NoDup intent_names.
Proof.
  apply (bool_decide_unpack _). by vm_compute.
Qed.

(** The additive contributions, when the three flags are present: the
    weights for the truth values of the flags and for the two frequency
    tests, which only run on a non-empty history. *)
Lemma contributions_weights
    (patterns : gmap string pyval) (history : list (gmap string pyval))
    (alarm territorial flock : pyval) :
  patterns !! "alarm_signal" = Some alarm ->
  patterns !! "territorial_behavior" = Some territorial ->
  patterns !! "flock_communication" = Some flock ->
  contributions patterns history
  = Ok (weights (truthy alarm) (truthy territorial) (truthy flock)
          ((0 <? length history)%nat
           && (2 <? frequency "alarm_signal" (last_n 5 history))%nat)
          ((0 <? length history)%nat
           && (1 <? frequency "territorial_behavior" (last_n 5 history))%nat)).
Proof.
  intros Ha Ht Hf. unfold contributions, getitem.
  rewrite Ha, Ht, Hf. cbn [mbind res_bind Py.bind].
  destruct (0 <? length history)%nat; reflexivity.
Qed.

(** C5: for a pattern that carries the three flags and any history, the
    scores returned by [predict_behavioral_intent] are over the five
    intents in declaration order and sum to 1: when the total of the
    additive contributions is positive each weight is divided by the
    total, otherwise the result is exactly [normal_flight = 1.0] with the
    other intents at 0.  The primary intent is the first maximum in that
    order and the confidence is its weight. *)
Theorem intent_scores_form_distribution
    (patterns : gmap string pyval) (history : list (gmap string pyval)) :
  is_Some (patterns !! "alarm_signal") ->
  is_Some (patterns !! "territorial_behavior") ->
  is_Some (patterns !! "flock_communication") ->
  exists raw scores primary conf,
    contributions patterns history = Ok raw
    /\ predict_behavioral_intent patterns history
       = {| primary_intent := Some primary;
            confidence := Some conf;
            all_scores := Some scores |}
    /\ fst <$> scores = intent_names
    /\ Py.sum (snd <$> scores) == 1
    /\ (0 < Py.sum (snd <$> raw) ->
        scores = (fun kv => (fst kv, snd kv / Py.sum (snd <$> raw))) <$> raw)
    /\ (~ 0 < Py.sum (snd <$> raw) ->
        scores = [("landing_approach", 0.0); ("territory_defense", 0.0);
                  ("flock_gathering", 0.0); ("predator_avoidance", 0.0);
                  ("normal_flight", 1.0)])
    /\ first_max scores primary conf.
Proof.
  intros [a Ha] [t Ht] [f Hf].
  pose proof (contributions_weights patterns history a t f Ha Ht Hf) as Hraw.
  set (raw := weights _ _ _ _ _) in Hraw.
  pose proof (normalize_weights (truthy a) (truthy t) (truthy f)
                ((0 <? length history)%nat
                 && (2 <? frequency "alarm_signal" (last_n 5 history))%nat)
                ((0 <? length history)%nat
                 && (1 <? frequency "territorial_behavior" (last_n 5 history))%nat))
    as (Hsum & Hpos & Hzero).
  fold raw in Hsum, Hpos, Hzero.
  assert (Hkeys : fst <$> normalize raw = intent_names)
    by (rewrite normalize_keys; apply weights_keys).
  destruct (normalize raw) as [|kv rest] eqn:En; [discriminate Hkeys|].
  pose proof (max_from_first_max kv rest) as Hmax.
  destruct Hmax as (i & Hi & Hle & Hlt).
  assert (Hscore : score_of (fst (max_from kv rest)) (kv :: rest)
                   = Ok (snd (max_from kv rest))).
  { apply (score_of_lookup _ i); [|exact Hi].
    rewrite Hkeys. apply intent_names_NoDup. }
  exists raw, (kv :: rest), (fst (max_from kv rest)), (snd (max_from kv rest)).
  split; [exact Hraw|]. split.
  - unfold predict_behavioral_intent, predict_body.
    rewrite Hraw. cbn [mbind res_bind Py.bind]. rewrite En.
    cbn [max_key mbind res_bind Py.bind]. rewrite Hscore. reflexivity.
  - repeat split; try assumption.
    exists i. auto.
Qed.

(** An alarm call in a flock, after three alarm calls: the weights are
    0.7 for predator avoidance and 0.4 for flock gathering. *)
Lemma intent_scores_form_distribution_witness :
  exists raw scores primary conf,
    let patterns :=
      <["alarm_signal" := PBool true]>
        (<["flock_communication" := PBool true]> default_patterns) in
    let history :=
      [<["alarm_signal" := PBool true]> default_patterns;
       <["alarm_signal" := PBool true]> default_patterns;
       <["alarm_signal" := PBool true]> default_patterns] in
    contributions patterns history = Ok raw
    /\ predict_behavioral_intent patterns history
       = {| primary_intent := Some primary;
            confidence := Some conf;
            all_scores := Some scores |}
    /\ fst <$> scores = intent_names
    /\ Py.sum (snd <$> scores) == 1
    /\ (0 < Py.sum (snd <$> raw) ->
        scores = (fun kv => (fst kv, snd kv / Py.sum (snd <$> raw))) <$> raw)
    /\ (~ 0 < Py.sum (snd <$> raw) ->
        scores = [("landing_approach", 0.0); ("territory_defense", 0.0);
                  ("flock_gathering", 0.0); ("predator_avoidance", 0.0);
                  ("normal_flight", 1.0)])
    /\ first_max scores primary conf.
Proof.
  apply (intent_scores_form_distribution
           (<["alarm_signal" := PBool true]>
              (<["flock_communication" := PBool true]> default_patterns))
           [<["alarm_signal" := PBool true]> default_patterns;
            <["alarm_signal" := PBool true]> default_patterns;
            <["alarm_signal" := PBool true]> default_patterns]).
  - exists (PBool true). reflexivity.
  - exists (PBool false). reflexivity.
  - exists (PBool true). reflexivity.
Defined.

(** A tie: an alarm call in a flock with no history gives 0.5 to both
    flock gathering and predator avoidance, and the earlier of the two in
    declaration order is the primary intent. *)
Example predict_tie_takes_first :
  let r :=
    predict_behavioral_intent
      (<["alarm_signal" := PBool true]>
         (<["flock_communication" := PBool true]> default_patterns)) [] in
  primary_intent r = Some "flock_gathering"
  /\ (exists c, confidence r = Some c /\ c == 0.5)
  /\ (exists c, (all_scores r ≫= fun s => s !! 3%nat)
                = Some ("predator_avoidance", c) /\ c == 0.5).
Proof.
  vm_compute. split; [reflexivity|].
  split; eexists; (split; [reflexivity|]); reflexivity.
Qed.

(** C10: when the pattern lacks one of the three flags the predictor
    reads, the lookup raises inside the [try] block and the handler's
    result is returned: the primary intent is [unknown], which is not one
    of the five intents, the confidence is 0.0 and the scores are empty,
    so that they do not sum to 1. *)
Theorem missing_flag_gives_unknown
    (patterns : gmap string pyval) (history : list (gmap string pyval)) :
  patterns !! "alarm_signal" = None
  \/ patterns !! "territorial_behavior" = None
  \/ patterns !! "flock_communication" = None ->
  predict_behavioral_intent patterns history
  = {| primary_intent := Some "unknown";
       confidence := Some 0.0;
       all_scores := Some [] |}
  /\ ("unknown" ∉ intent_names)
  /\ ~ Py.sum (snd <$> ([] : list (string * Q))) == 1.
Proof.
  intros Hmissing. split; [|split].
  - unfold predict_behavioral_intent, predict_body, contributions, getitem.
    destruct (patterns !! "alarm_signal") as [a|]; [|reflexivity].
    destruct (patterns !! "territorial_behavior") as [t|]; [|reflexivity].
    destruct (patterns !! "flock_communication") as [f|]; [|reflexivity].
    destruct Hmissing as [H|[H|H]]; discriminate H.
  - apply (bool_decide_unpack _). by vm_compute.
  - intros H. vm_compute in H. discriminate H.
Qed.

(** The default pattern without its [alarm_signal] key. *)
Lemma missing_flag_gives_unknown_witness :
  predict_behavioral_intent (delete "alarm_signal" default_patterns) []
  = {| primary_intent := Some "unknown";
       confidence := Some 0.0;
       all_scores := Some [] |}
  /\ ("unknown" ∉ intent_names)
  /\ ~ Py.sum (snd <$> ([] : list (string * Q))) == 1.
Proof.
  apply (missing_flag_gives_unknown (delete "alarm_signal" default_patterns) []).
  left. reflexivity.
Defined.

(** ** The classifier's urgency *)

Lemma mem_true (x : string) (xs : list string) : mem x xs = true <-> x ∈ xs.
Proof.
  unfold mem. rewrite existsb_exists. split.
  - intros (y & Hy & E). apply String.eqb_eq in E. subst y.
    by apply list_elem_of_In.
  - intros H. exists x. split; [by apply list_elem_of_In | apply String.eqb_refl].
Qed.

(** The trace ends with the dict the call returns. *)
Lemma trace_ends_with_result (f : audio_features) (si : option species_info) :
  last (run_rules (rules f si) default_patterns)
  = Some (analyze_communication_patterns (Some f) si).
Proof.
  unfold rules, analyze_communication_patterns.
  destruct (species_info_truthy si); reflexivity.
Qed.

(** The urgency goes down during a call exactly when the two species
    rules both fire; the conditions are the ones the source tests. *)
Lemma never_downgraded_bool (f : audio_features) (si : option species_info) :
  never_downgraded (urgency_trace f si)
  = negb (species_info_truthy si
          && (mem "rapid_succession" (alarm_patterns_of si)
              && gt (default 0 (tempo f)) 180)
          && (mem "pitch_variation" (alarm_patterns_of si)
              && gt (zcr_variance f) 0.015)).
Proof.
  unfold urgency_trace, rules,
    rule_call_type, rule_flock, rule_alarm,
    rule_rapid_succession, rule_pitch_variation.
  destruct (species_info_truthy si);
    destruct (mem "rapid_succession" (alarm_patterns_of si));
    destruct (mem "pitch_variation" (alarm_patterns_of si));
    repeat match goal with
           | |- context [gt ?a ?b] => destruct (gt a b)
           end;
    vm_compute; reflexivity.
Qed.

(** The final urgency when the rule for [pitch_variation] fires. *)
Lemma pitch_variation_sets_high (f : audio_features) (si : option species_info) :
  species_info_truthy si = true ->
  mem "pitch_variation" (alarm_patterns_of si) = true ->
  gt (zcr_variance f) 0.015 = true ->
  let patterns := analyze_communication_patterns (Some f) si in
  patterns !! "urgency_level" = Some (PStr "high")
  /\ patterns !! "behavioral_context" = Some (PStr "predator_warning").
Proof.
  intros Hsi Hmem Hgt.
  unfold analyze_communication_patterns.
  rewrite Hsi. cbv zeta. unfold rule_pitch_variation.
  rewrite Hmem, Hgt. simpl.
  split; [apply lookup_insert_eq|].
  rewrite lookup_insert_ne by done. apply lookup_insert_eq.
Qed.

(** C4, as amended: within one call the urgency level is never lowered
    by a later rule, except by the rule for [pitch_variation], whose
    assignment of [high] is unconditional.  The urgency goes down exactly
    when the species information is present, the alarm patterns of the
    species contain both [rapid_succession] and [pitch_variation], the
    tempo is above 180 and the zero-crossing variance above 0.015; the
    call then ends with urgency [high] and context [predator_warning]. *)
Theorem urgency_lowered_only_by_pitch_variation
    (f : audio_features) (si : option species_info) :
  let alarms := alarm_patterns_of si in
  let both_fire :=
    species_info_truthy si = true
    /\ "rapid_succession" ∈ alarms /\ 180 < default 0 (tempo f)
    /\ "pitch_variation" ∈ alarms /\ 0.015 < zcr_variance f in
  (never_downgraded (urgency_trace f si) = false <-> both_fire)
  /\ (both_fire ->
      analyze_communication_patterns (Some f) si !! "urgency_level"
      = Some (PStr "high")
      /\ analyze_communication_patterns (Some f) si !! "behavioral_context"
         = Some (PStr "predator_warning")).
Proof.
  intros alarms both_fire. subst both_fire alarms. split.
  - rewrite never_downgraded_bool, negb_false_iff, !andb_true_iff,
      !mem_true, !gt_true. tauto.
  - intros (Hsi & _ & _ & Hp & Hz).
    apply pitch_variation_sets_high; [exact Hsi | by apply mem_true | by apply gt_true].
Qed.

(** A House Crow calling at tempo 200 with zero-crossing variance 0.02:
    the rule for [rapid_succession] raises the urgency to [critical] and
    the rule for [pitch_variation] then sets it to [high]. *)
Lemma pitch_variation_lowers_critical :
  let f := {| spectral_centroid_mean := 1000;
              tempo := Some 200;
              zcr_variance := 0.02 |} in
  let si := Some {| scientific := Some "Corvus splendens";
                    common_name := Some "House Crow" |} in
  alarm_patterns_of si = ["rapid_succession"; "pitch_variation"]
  /\ urgency_trace f si
     = [Some (PStr "low"); Some (PStr "low"); Some (PStr "low");
        Some (PStr "high"); Some (PStr "critical"); Some (PStr "high")]
  /\ never_downgraded (urgency_trace f si) = false
  /\ analyze_communication_patterns (Some f) si !! "urgency_level"
     = Some (PStr "high").
Proof.
  repeat split; vm_compute; reflexivity.
Qed.

(** The same call for a species without [pitch_variation] keeps
    [critical]: here with the alarm patterns reduced to
    [rapid_succession] alone. *)
Lemma rapid_succession_alone_keeps_critical (f : audio_features)
    (patterns : gmap string pyval) :
  gt (default 0 (tempo f)) 180 = true ->
  rule_pitch_variation f ["rapid_succession"]
    (rule_rapid_succession f ["rapid_succession"] patterns)
    !! "urgency_level" = Some (PStr "critical").
Proof.
  intros Hgt. unfold rule_pitch_variation, rule_rapid_succession.
  rewrite Hgt. simpl. apply lookup_insert_eq.
Qed.

(** ** Sound selection *)

Lemma filter_mem_nil (xs : list string) :
  List.filter (fun s => mem s []) xs = [].
Proof. induction xs as [|x xs IH]; [reflexivity | exact IH]. Qed.

Lemma default_mapping :
  getitem predator_mappings "default" = Ok ["hawk_screech"; "eagle_cry"; "owl_hoot"].
Proof. reflexivity. Qed.

(** With no sound loaded the selection raises, whatever the inputs. *)
Lemma selection_raises_on_empty_cache
    (bird_species bird_behavior : string) (draw : nat) :
  get_effective_predator_sound [] bird_species bird_behavior draw
  = Raise IndexError.
Proof.
  unfold get_effective_predator_sound.
  rewrite default_mapping. cbn [mbind res_bind Py.bind cache_keys fmap list_fmap].
  rewrite filter_mem_nil.
  destruct (contains "territorial" (lower bird_behavior)
            || contains "aggressive" (lower bird_behavior)); reflexivity.
Qed.

(** The caller does not catch it: with no sound loaded,
    [_execute_sound_deterrent] raises as well and the library is not
    reached. *)
Lemma sound_deterrent_raises_on_empty_cache
    (bd : bird_data) (draw : nat) (now : Q) (sys : StrategicResponseSystem) :
  sound_cache (predator_sounds sys) = [] ->
  _execute_sound_deterrent bd draw now sys = Raise IndexError.
Proof.
  intros Hempty. unfold _execute_sound_deterrent.
  rewrite Hempty, selection_raises_on_empty_cache. reflexivity.
Qed.

(** C6, on the code: with an empty sound cache the selection raises
    [IndexError] for every species name, behaviour text and random draw,
    and so does the sound deterrent that calls it.  No candidate survives
    the filters, and the fallback of the last line indexes the empty list
    of cache keys. *)
Theorem empty_cache_raises_IndexError
    (bird_species bird_behavior : string) (draw : nat) :
  get_effective_predator_sound [] bird_species bird_behavior draw
  = Raise IndexError
  /\ (forall bd now sys,
        sound_cache (predator_sounds sys) = [] ->
        _execute_sound_deterrent bd draw now sys = Raise IndexError).
Proof.
  split.
  - apply selection_raises_on_empty_cache.
  - intros bd now sys. apply sound_deterrent_raises_on_empty_cache.
Qed.

Lemma filter_subseteq (p : string -> bool) (xs : list string) (x : string) :
  x ∈ List.filter p xs -> x ∈ xs.
Proof.
  rewrite !list_elem_of_In, filter_In. tauto.
Qed.

Lemma random_choice_elem (xs : list string) (draw : nat) :
  xs <> [] -> exists x, random_choice xs draw = Ok x /\ x ∈ xs.
Proof.
  intros Hne. unfold random_choice.
  assert (Hlt : (draw mod length xs < length xs)%nat).
  { apply Nat.mod_upper_bound. destruct xs; [done | simpl; lia]. }
  apply lookup_lt_is_Some_2 in Hlt as [x Hx]. rewrite Hx.
  exists x. split; [reflexivity | by eapply list_elem_of_lookup_2].
Qed.

(** With at least one sound loaded the selection returns a sound of the
    cache, for every species name, behaviour text and random draw. *)
Lemma selected_sound_is_cached
    (cache : list (string * Q)) (bird_species bird_behavior : string) (draw : nat) :
  cache <> [] ->
  exists s,
    get_effective_predator_sound cache bird_species bird_behavior draw = Ok s
    /\ s ∈ cache_keys cache.
Proof.
  intros Hne. unfold get_effective_predator_sound.
  rewrite default_mapping. cbn [mbind res_bind Py.bind].
  set (mapped := get predator_mappings _ _).
  set (avail1 := List.filter _ mapped).
  set (avail2 := match avail1 with [] => cache_keys cache | _ => avail1 end).
  assert (H2 : avail2 <> [] /\ forall x, x ∈ avail2 -> x ∈ cache_keys cache).
  { subst avail2. destruct avail1 as [|a l] eqn:E.
    - split; [|auto]. destruct cache; [done | discriminate].
    - split; [discriminate|]. intros x Hx. rewrite <- E in Hx.
      apply list_elem_of_In, filter_In in Hx as [_ Hx].
      by apply mem_true in Hx. }
  destruct H2 as [Hne2 Hsub2].
  set (avail3 := if _ || _ then _ else avail2).
  assert (H3 : avail3 <> [] /\ forall x, x ∈ avail3 -> x ∈ avail2).
  { subst avail3. destruct (_ || _); [|auto].
    destruct (List.filter _ avail2) as [|a l] eqn:E; [auto|].
    split; [discriminate|]. intros x Hx. rewrite <- E in Hx.
    by apply filter_subseteq in Hx. }
  destruct H3 as [Hne3 Hsub3].
  destruct (random_choice_elem avail3 draw Hne3) as (s & Hs & Hin).
  exists s. split; [|auto].
  destruct avail3; [done | exact Hs].
Qed.

(** ** The confidence score *)

Lemma len_pos {A} (xs : list A) : xs <> [] -> 0 < len xs.
Proof.
  intros Hne. unfold len. destruct xs as [|x xs]; [done|].
  change 0 with (inject_Z 0). rewrite <- Zlt_Qlt. simpl length. lia.
Qed.

Lemma div_len {A} (x : Q) (xs : list A) :
  xs <> [] -> div x (len xs) = Ok (x / len xs).
Proof.
  intros Hne. unfold div.
  destruct (Qeq_bool (len xs) 0) eqn:E; [|reflexivity].
  apply Qeq_bool_iff in E. pose proof (len_pos xs Hne). lra.
Qed.

Lemma count_similar_spec (history : list incident) (bd : bird_data) :
  similar_incidents (_get_historical_context history bd) = count_similar history bd.
Proof.
  unfold _get_historical_context, count_similar.
  destruct (List.filter _ history); reflexivity.
Qed.

(** C8, as amended: for every situation analysis and every non-empty list
    of strategic actions the confidence score is
    [clamp(0, 1, (0.8 + avg) / 2 - min(0.1 * n, 0.3) + b)], where [n] is the
    number of complexity factors and [b] is 0.05 when more than five
    similar incidents are on record and 0 otherwise: the bonus of 0.1 is
    added to the base 0.8 inside the average, and so is halved.  The
    number of similar incidents is the number of entries of the decision
    history with the species of the detection. *)
Theorem confidence_score_formula
    (analysis : situation) (strategies : list StrategicAction) :
  strategies <> [] ->
  (exists score,
      _calculate_confidence_score analysis strategies = Ok score
      /\ score ==
         clamp 0 1
           (base_formula (length (complexity_factors analysis)) strategies
            + (if (5 <? similar_incidents (historical analysis))%nat
               then 0.05 else 0)))
  /\ (forall history bd,
        historical (analyze_situation history bd)
        = _get_historical_context history bd
        /\ similar_incidents (_get_historical_context history bd)
           = count_similar history bd).
Proof.
  intros Hne. split.
  - unfold _calculate_confidence_score.
    rewrite (div_len _ _ Hne). cbn [mbind res_bind Py.bind mret res_ret].
    eexists. split; [reflexivity|].
    rewrite max_eq, min_eq. unfold clamp, base_formula, average_success.
    rewrite min_eq.
    assert (Hlen : len (complexity_factors analysis) * 0.1
                   == 0.1 * inject_Z (Z.of_nat (length (complexity_factors analysis))))
      by (unfold len; lra).
    apply Q.max_compat; [reflexivity|].
    apply Q.min_compat; [reflexivity|].
    rewrite Hlen. pose proof (len_pos strategies Hne) as Hpos.
    destruct (5 <? similar_incidents (historical analysis))%nat; field; lra.
  - intros history bd. split; [reflexivity | apply count_similar_spec].
Qed.

(** The low-threat template, whose average success probability is 0.8,
    one complexity factor, no history: (0.8 + 0.8) / 2 - 0.1 = 0.7. *)
Lemma confidence_score_formula_witness :
  let analysis :=
    {| threat_level := LOW; urgency_score := 0;
       complexity_factors := ["Flock coordination detected"];
       historical := {| similar_incidents := 0; average_success_rate := 0 |} |} in
  let strategies := _generate_low_threat_strategies
                      {| species := None; alert_level := None; risk_score := None;
                         communication_analysis := None;
                         behavioral_prediction := None |} in
  (exists score,
      _calculate_confidence_score analysis strategies = Ok score
      /\ score ==
         clamp 0 1
           (base_formula (length (complexity_factors analysis)) strategies
            + (if (5 <? similar_incidents (historical analysis))%nat
               then 0.05 else 0)))
  /\ (forall history bd,
        historical (analyze_situation history bd)
        = _get_historical_context history bd
        /\ similar_incidents (_get_historical_context history bd)
           = count_similar history bd).
Proof.
  intros analysis strategies.
  apply (confidence_score_formula analysis strategies).
  discriminate.
Defined.

(** A House Crow at low threat with six earlier incidents of the species:
    the code scores (0.8 + 0.1 + 0.8) / 2 = 0.85, and the formula with a
    bonus of 0.1 on the score gives 0.9, wherever the bonus is placed
    with respect to the clamp. *)
Lemma history_bonus_is_not_a_tenth :
  let bd :=
    {| species := Some {| scientific := Some "Corvus splendens";
                          common_name := Some "House Crow" |};
       alert_level := Some "LOW";
       risk_score := Some 0.1;
       communication_analysis := Some default_patterns;
       behavioral_prediction := None |} in
  let history :=
    replicate 6 {| incident_species := Some "Corvus splendens";
                   incident_success_rate := Some 0.5 |} in
  exists recommendation,
    generate_next_action_recommendation history bd = Ok recommendation
    /\ recommended_actions recommendation = _generate_low_threat_strategies bd
    /\ risk_factors recommendation = []
    /\ count_similar history bd = 6%nat
    /\ confidence_score recommendation == 0.85
    /\ ~ confidence_score recommendation
         == spec_confidence_bonus_on_score
              (length (risk_factors recommendation))
              (count_similar history bd)
              (recommended_actions recommendation)
    /\ ~ confidence_score recommendation
         == spec_confidence_bonus_in_clamp
              (length (risk_factors recommendation))
              (count_similar history bd)
              (recommended_actions recommendation).
Proof.
  eexists. split; [vm_compute; reflexivity|].
  repeat split; try (intros H; vm_compute in H; discriminate H).
Qed.

(** ** The automated execution loop *)

Lemma execute_one_sounds (bd : bird_data) (now : Q)
    (st : StrategicResponseSystem * list effect) (action : StrategicAction) :
  predator_sounds (execute_one bd now st action).1 = predator_sounds st.1.
Proof.
  unfold execute_one.
  destruct (automated action); [|reflexivity].
  destruct (bool_decide _); reflexivity.
Qed.

Lemma execute_fold_sounds (bd : bird_data) (now : Q)
    (actions : list StrategicAction) (st : StrategicResponseSystem * list effect) :
  predator_sounds (fold_left (execute_one bd now) actions st).1
  = predator_sounds st.1.
Proof.
  revert st. induction actions as [|a actions IH]; intros st; simpl.
  - reflexivity.
  - rewrite IH. apply execute_one_sounds.
Qed.

(** The effects of the loop: for each action that goes through the
    execution branch, in order, its executor if it has one and then its
    log entry. *)
Lemma execute_fold_effects (bd : bird_data) (now : Q)
    (actions : list StrategicAction) (st : StrategicResponseSystem * list effect) :
  (fold_left (execute_one bd now) actions st).2
  = st.2 ++ flat_map
              (fun a => dispatch a ++ [ActionLogged (make_log_entry a bd now)])
              (List.filter executed_automatically actions).
Proof.
  revert st. induction actions as [|a actions IH]; intros st; simpl.
  - by rewrite app_nil_r.
  - rewrite IH. unfold execute_one, executed_automatically.
    destruct (automated a); simpl; [|reflexivity].
    destruct (bool_decide _); simpl; [reflexivity|].
    by rewrite <- !app_assoc.
Qed.

Lemma ActionType_value_sound (t : ActionType) :
  ActionType_value t = "SOUND_DETERRENT" -> t = SOUND_DETERRENT.
Proof. destruct t; simpl; intros H; first [reflexivity | discriminate H]. Qed.

Lemma effects_of_action_not_sound (bd : bird_data) (now : Q)
    (a : StrategicAction) (e : effect) :
  action_type a <> SOUND_DETERRENT ->
  e ∈ dispatch a ++ [ActionLogged (make_log_entry a bd now)] ->
  effect_kind e <> "SOUND_DETERRENT".
Proof.
  intros Hty Hin Hkind. apply Hty, ActionType_value_sound.
  apply elem_of_app in Hin as [Hin|Hin].
  - unfold dispatch in Hin.
    destruct (action_type a) eqn:E;
      first [ by apply elem_of_nil in Hin
            | apply list_elem_of_singleton in Hin; subst e; simpl in Hkind;
              rewrite E in Hkind; discriminate Hkind ].
  - apply list_elem_of_singleton in Hin. subst e. exact Hkind.
Qed.

Lemma executed_automatically_spec (a : StrategicAction) :
  executed_automatically a = true
  <-> automated a = true /\ action_type a <> SOUND_DETERRENT.
Proof.
  unfold executed_automatically.
  rewrite andb_true_iff, negb_true_iff, bool_decide_eq_false. tauto.
Qed.

Lemma strategy_templates_nonempty (level : ThreatLevel) (bd : bird_data) :
  strategy_templates level bd <> [].
Proof.
  destruct level; simpl; try discriminate.
  unfold _generate_medium_threat_strategies.
  destruct (communication_flag bd "flock_communication"); discriminate.
Qed.

(** Generating a recommendation never raises. *)
Lemma generate_returns (history : list incident) (bd : bird_data) :
  exists recommendation,
    generate_next_action_recommendation history bd = Ok recommendation
    /\ recommended_actions recommendation
       = strategy_templates (_assess_threat_level bd) bd.
Proof.
  unfold generate_next_action_recommendation, _calculate_confidence_score.
  cbn [threat_level analyze_situation].
  rewrite (div_len _ _ (strategy_templates_nonempty _ bd)).
  cbn [mbind res_bind Py.bind mret res_ret].
  eexists. split; reflexivity.
Qed.

Lemma execute_effects_not_sound (bd : bird_data)
    (recommendation : NextActionRecommendation) (now : Q)
    (sys : StrategicResponseSystem) :
  Forall (fun e => effect_kind e <> "SOUND_DETERRENT")
    (execute_automated_response bd recommendation now sys).2.
Proof.
  unfold execute_automated_response. rewrite execute_fold_effects. simpl.
  apply Forall_forall. intros e He.
  apply list_elem_of_In, in_flat_map in He as (a & Ha & He).
  apply filter_In in Ha as [_ Ha].
  apply executed_automatically_spec in Ha as [_ Hty].
  apply (effects_of_action_not_sound bd now a); [exact Hty|].
  by apply list_elem_of_In.
Qed.

Lemma update_recommendation_sounds (bd : bird_data) (now : Q) (panel : NextActionPanel) :
  exists panel' effects,
    update_recommendation bd now panel = Ok (panel', effects)
    /\ predator_sounds (strategic_system panel')
       = predator_sounds (strategic_system panel)
    /\ Forall (fun e => effect_kind e <> "SOUND_DETERRENT") effects.
Proof.
  unfold update_recommendation.
  destruct (generate_returns (decision_history (strategic_system panel)) bd)
    as (r & Hr & _).
  rewrite Hr. cbn [mbind res_bind Py.bind].
  pose proof (execute_fold_sounds bd now (recommended_actions r)
                (strategic_system panel, [])) as Hs.
  pose proof (execute_effects_not_sound bd r now (strategic_system panel)) as He.
  unfold execute_automated_response in *.
  destruct (fold_left _ _ _) as [sys effects]. simpl in *.
  eexists _, _. split; [reflexivity|]. split; assumption.
Qed.

Lemma process_detections_sounds (detections : list (bird_data * Q))
    (panel : NextActionPanel) :
  exists panel' effects,
    process_detections detections panel = Ok (panel', effects)
    /\ predator_sounds (strategic_system panel')
       = predator_sounds (strategic_system panel)
    /\ Forall (fun e => effect_kind e <> "SOUND_DETERRENT") effects.
Proof.
  revert panel. induction detections as [|[bd now] rest IH]; intros panel.
  - exists panel, []. repeat split. constructor.
  - simpl.
    destruct (update_recommendation_sounds bd now panel) as (p1 & e1 & H1 & Hs1 & Hf1).
    rewrite H1. cbn [mbind res_bind Py.bind].
    destruct (IH p1) as (p2 & e2 & H2 & Hs2 & Hf2).
    rewrite H2. cbn [mbind res_bind Py.bind mret res_ret].
    exists p2, (e1 ++ e2). split; [reflexivity|]. split.
    + congruence.
    + by apply Forall_app.
Qed.

Lemma last_n_short {A} (n : nat) (xs : list A) :
  (length xs <= n)%nat -> last_n n xs = xs.
Proof.
  intros H. unfold last_n. by replace (length xs - n)%nat with 0%nat by lia.
Qed.

Lemma last_n_length {A} (n : nat) (xs : list A) :
  (length (last_n n xs) <= n)%nat.
Proof. unfold last_n. rewrite length_drop. lia. Qed.

(** Truncating, appending and truncating again keeps the same entries as
    appending and truncating once. *)
Lemma last_n_app_last_n {A} (n : nat) (xs ys : list A) :
  last_n n (last_n n xs ++ ys) = last_n n (xs ++ ys).
Proof.
  destruct (decide (length xs <= n)%nat) as [Hle|Hgt].
  - by rewrite (last_n_short n xs Hle).
  - unfold last_n. rewrite !length_app, length_drop.
    replace (length xs - (length xs - n) + length ys - n)%nat
      with (length ys) by lia.
    replace (length xs + length ys - n)%nat
      with ((length xs - n) + length ys)%nat by lia.
    rewrite <- drop_drop, (drop_app_le xs ys) by lia. reflexivity.
Qed.

(** [_log_action_execution] appends the entry and keeps the last 1000. *)
Lemma log_action_history (action : StrategicAction) (bd : bird_data) (now : Q)
    (sys : StrategicResponseSystem) :
  response_history (_log_action_execution action bd now sys)
  = last_n 1000 (response_history sys ++ [make_log_entry action bd now]).
Proof.
  unfold _log_action_execution. simpl.
  destruct (1000 <? _)%nat eqn:E; [reflexivity|].
  apply Nat.ltb_ge in E. by rewrite last_n_short.
Qed.

Lemma execute_fold_history (bd : bird_data) (now : Q)
    (actions : list StrategicAction) (st : StrategicResponseSystem * list effect) :
  (length (response_history st.1) <= 1000)%nat ->
  response_history (fold_left (execute_one bd now) actions st).1
  = last_n 1000
      (response_history st.1
       ++ ((fun a => make_log_entry a bd now)
             <$> List.filter executed_automatically actions)).
Proof.
  revert st. induction actions as [|a actions IH]; intros st Hlen; simpl.
  - by rewrite app_nil_r, last_n_short.
  - unfold execute_one at 2, executed_automatically at 1.
    destruct (automated a); simpl; [|by apply IH].
    destruct (bool_decide _); simpl; [by apply IH|].
    rewrite IH; cbn [fst snd]; rewrite log_action_history.
    + rewrite last_n_app_last_n, <- app_assoc. reflexivity.
    + apply last_n_length.
Qed.

(** The executors of the loop: enhanced monitoring for MONITOR, the
    emergency stop for EMERGENCY_STOP, and none for the other types. *)
Lemma dispatch_spec (a : StrategicAction) (e : effect) :
  e ∈ dispatch a
  <-> (e = EnhancedMonitoring a /\ action_type a = MONITOR)
      \/ (e = EmergencyStop a /\ action_type a = EMERGENCY_STOP).
Proof.
  unfold dispatch. destruct (action_type a); split; intros H;
    first [ by apply elem_of_nil in H
          | apply list_elem_of_singleton in H; subst e; by auto
          | destruct H as [[H Hty]|[H Hty]];
            first [ discriminate Hty
                  | subst e; by apply list_elem_of_singleton ] ].
Qed.

(** An executor runs exactly for the automated actions of type MONITOR or
    EMERGENCY_STOP. *)
Lemma executed_effects (bd : bird_data) (now : Q)
    (actions : list StrategicAction) (a : StrategicAction) :
  executed a
    (flat_map (fun a => dispatch a ++ [ActionLogged (make_log_entry a bd now)])
       (List.filter executed_automatically actions))
  <-> a ∈ actions /\ automated a = true
      /\ (action_type a = MONITOR \/ action_type a = EMERGENCY_STOP).
Proof.
  unfold executed. split.
  - intros [H|H];
      apply list_elem_of_In, in_flat_map in H as (a' & Ha' & H);
      apply filter_In in Ha' as [Hin Hex];
      apply list_elem_of_In in H; apply list_elem_of_In in Hin;
      apply executed_automatically_spec in Hex as [Hauto _];
      (apply elem_of_app in H as [H|H];
       [|apply list_elem_of_singleton in H; discriminate H]);
      apply dispatch_spec in H as [[Heq Hty]|[Heq Hty]];
      try discriminate Heq; injection Heq as ->; auto.
  - intros (Hin & Hauto & Hty).
    assert (Hmem : forall e, e ∈ dispatch a ->
              e ∈ flat_map
                    (fun a => dispatch a ++ [ActionLogged (make_log_entry a bd now)])
                    (List.filter executed_automatically actions)).
    { intros e He. apply list_elem_of_In, in_flat_map. exists a. split.
      - apply filter_In. split; [by apply list_elem_of_In|].
        apply executed_automatically_spec. split; [exact Hauto|].
        destruct Hty as [Hty|Hty]; rewrite Hty; discriminate.
      - apply list_elem_of_In, elem_of_app. by left. }
    destruct Hty as [Hty|Hty]; [left|right]; apply Hmem, dispatch_spec; auto.
Qed.

(** The automated actions of the templates are of types MONITOR,
    SOUND_DETERRENT and EMERGENCY_STOP. *)
Lemma templates_automated_types (level : ThreatLevel) (bd : bird_data)
    (a : StrategicAction) :
  a ∈ strategy_templates level bd ->
  automated a = true ->
  action_type a <> SOUND_DETERRENT ->
  action_type a = MONITOR \/ action_type a = EMERGENCY_STOP.
Proof.
  intros Ha. destruct level; cbn [strategy_templates] in Ha.
  2: unfold _generate_medium_threat_strategies in Ha;
     destruct (communication_flag bd "flock_communication").
  all: simpl in Ha;
    repeat (apply elem_of_cons in Ha as [->|Ha];
            [simpl; intros Hauto Hty;
             first [ by left | by right | discriminate Hauto | by destruct Hty ]|]);
    by apply elem_of_nil in Ha.
Qed.

(** C3: in every run of [execute_automated_response] the sound library
    is left as it was and no effect is about a SOUND_DETERRENT action,
    whatever its [automated] flag.  Every other action with
    [automated = true] is logged: the entry is appended to the response
    history, of which the last 1000 entries are kept.  It is executed
    when its type is MONITOR or EMERGENCY_STOP, the two types the loop has
    an executor for, and an executor runs for no other action: an
    automated DELAY, REDIRECT or EVACUATE action is only logged.  In the
    recommendations the engine generates the automated actions are of
    types MONITOR, SOUND_DETERRENT and EMERGENCY_STOP, so there the rule
    of the specification holds: every automated action other than the
    sound deterrent is executed and logged.  Over any sequence of
    detections the panel returns and the sound library is never
    engaged. *)
Theorem sound_deterrent_is_never_automatic :
  (forall bd recommendation now sys,
      let out := execute_automated_response bd recommendation now sys in
      predator_sounds out.1 = predator_sounds sys
      /\ Forall (fun e => effect_kind e <> "SOUND_DETERRENT") out.2
      /\ out.2 = flat_map
                   (fun a => dispatch a ++ [ActionLogged (make_log_entry a bd now)])
                   (List.filter executed_automatically
                      (recommended_actions recommendation))
      /\ (forall a,
            a ∈ recommended_actions recommendation ->
            automated a = true ->
            action_type a <> SOUND_DETERRENT ->
            ActionLogged (make_log_entry a bd now) ∈ out.2
            /\ (action_type a = MONITOR -> EnhancedMonitoring a ∈ out.2)
            /\ (action_type a = EMERGENCY_STOP -> EmergencyStop a ∈ out.2))
      /\ (forall a,
            executed a out.2
            <-> a ∈ recommended_actions recommendation
                /\ automated a = true
                /\ (action_type a = MONITOR \/ action_type a = EMERGENCY_STOP))
      /\ ((length (response_history sys) <= 1000)%nat ->
          response_history out.1
          = last_n 1000
              (response_history sys
               ++ ((fun a => make_log_entry a bd now)
                     <$> List.filter executed_automatically
                           (recommended_actions recommendation)))))
  /\ (forall history bd recommendation now sys,
        generate_next_action_recommendation history bd = Ok recommendation ->
        spec_every_automated_action_executed bd
          (recommended_actions recommendation) now
          (execute_automated_response bd recommendation now sys).2)
  /\ (forall detections panel,
        exists panel' effects,
          process_detections detections panel = Ok (panel', effects)
          /\ predator_sounds (strategic_system panel')
             = predator_sounds (strategic_system panel)
          /\ Forall (fun e => effect_kind e <> "SOUND_DETERRENT") effects).
Proof.
  assert (Hlogged : forall bd now actions a,
             a ∈ actions -> automated a = true ->
             action_type a <> SOUND_DETERRENT ->
             forall e,
               e ∈ dispatch a ++ [ActionLogged (make_log_entry a bd now)] ->
               e ∈ flat_map
                     (fun a => dispatch a ++ [ActionLogged (make_log_entry a bd now)])
                     (List.filter executed_automatically actions)).
  { intros bd now actions a Ha Hauto Hty e He.
    apply list_elem_of_In, in_flat_map. exists a. split.
    - apply filter_In. split; [by apply list_elem_of_In|].
      by apply executed_automatically_spec.
    - by apply list_elem_of_In. }
  split; [|split; [|apply process_detections_sounds]].
  - intros bd recommendation now sys out. subst out.
    split; [apply (execute_fold_sounds bd now _ (sys, []))|].
    split; [apply execute_effects_not_sound|].
    unfold execute_automated_response. rewrite execute_fold_effects. simpl.
    split; [reflexivity|].
    split; [|split; [|apply (execute_fold_history bd now _ (sys, []))]].
    + intros a Ha Hauto Hty.
      pose proof (Hlogged bd now _ a Ha Hauto Hty) as Hin.
      repeat split.
      * apply Hin, elem_of_app. right. by apply list_elem_of_singleton.
      * intros Hm. apply Hin, elem_of_app. left. apply dispatch_spec. auto.
      * intros Hs. apply Hin, elem_of_app. left. apply dispatch_spec. auto.
    + intros a. apply executed_effects.
  - intros history bd recommendation now sys Hgen a Ha Hauto Hty.
    destruct (generate_returns history bd) as (r & Hr & Hactions).
    rewrite Hgen in Hr. injection Hr as <-.
    unfold execute_automated_response. rewrite execute_fold_effects. simpl.
    split.
    + apply executed_effects. repeat split; try assumption.
      apply (templates_automated_types (_assess_threat_level bd) bd);
        [by rewrite <- Hactions | exact Hauto | exact Hty].
    + apply (Hlogged bd now _ a Ha Hauto Hty), elem_of_app. right.
      by apply list_elem_of_singleton.
Qed.

(** An operational delay flagged automated: the loop writes its log entry
    and executes nothing for it, so the rule as the specification words
    it fails on this recommendation. *)
Lemma automated_delay_is_only_logged :
  let a :=
    {| action_type := DELAY; priority := 1;
       description := "Implement operational delay until threat clears";
       estimated_duration := 10;
       resources_required := ["air_traffic_control"; "operations_team"];
       success_probability := 0.9;
       risk_assessment := "Necessary precaution for high-risk scenario";
       automated := true |} in
  let bd :=
    {| species := Some {| scientific := Some "Corvus splendens";
                          common_name := Some "House Crow" |};
       alert_level := Some "HIGH";
       risk_score := Some 0.7;
       communication_analysis := Some default_patterns;
       behavioral_prediction := None |} in
  let recommendation :=
    {| recommended_actions := [a]; risk_factors := []; confidence_score := 0.8 |} in
  let sys :=
    {| decision_history := [];
       predator_sounds := library_init [("hawk_screech", 5)] None;
       response_history := [] |} in
  let out := execute_automated_response bd recommendation 0 sys in
  a ∈ recommended_actions recommendation
  /\ automated a = true
  /\ action_type a <> SOUND_DETERRENT
  /\ out.2 = [ActionLogged (make_log_entry a bd 0)]
  /\ response_history out.1 = [make_log_entry a bd 0]
  /\ ~ executed a out.2
  /\ ~ spec_every_automated_action_executed bd
         (recommended_actions recommendation) 0 out.2.
Proof.
  intros a bd recommendation sys out.
  assert (Hin : a ∈ recommended_actions recommendation) by (left).
  assert (Hout : out.2 = [ActionLogged (make_log_entry a bd 0)]) by reflexivity.
  assert (Hnot : ~ executed a out.2).
  { rewrite Hout. intros [H|H]; apply list_elem_of_singleton in H; discriminate H. }
  repeat split; try done.
  intros Hspec. apply Hnot. by apply (Hspec a Hin).
Qed.

(** The critical template: the emergency stop is executed and logged, the
    sound deterrent, although flagged automated, is skipped, and the
    evacuation is manual. *)
Example critical_template_execution :
  let bd :=
    {| species := Some {| scientific := Some "Corvus splendens";
                          common_name := Some "House Crow" |};
       alert_level := Some "CRITICAL";
       risk_score := Some 0.9;
       communication_analysis := Some default_patterns;
       behavioral_prediction := None |} in
  let recommendation :=
    {| recommended_actions := _generate_critical_threat_strategies bd;
       risk_factors := [];
       confidence_score := 0.8 |} in
  let sys :=
    {| decision_history := [];
       predator_sounds := library_init [("hawk_screech", 5)] None;
       response_history := [] |} in
  effect_kind <$> (execute_automated_response bd recommendation 0 sys).2
  = ["EMERGENCY_STOP"; "EMERGENCY_STOP"].
Proof. reflexivity. Qed.

(** ** Playback *)

(** With the stop event set, the threads that outlive [now] are the ones
    still asleep. *)
Lemma resume_stopped (now : Q) (threads : list playback_loop) :
  omap (resume true now) threads
  = List.filter (fun th => gt (wakes_at th) now) threads.
Proof.
  induction threads as [|th threads IH]; [reflexivity|].
  cbn [omap list_omap List.filter]. fold (omap (resume true now) threads).
  rewrite IH. unfold resume. by destruct (gt (wakes_at th) now).
Qed.

Lemma filter_idem {A} (p : A -> bool) (xs : list A) :
  List.filter p (List.filter p xs) = List.filter p xs.
Proof.
  induction xs as [|x xs IH]; [reflexivity|]. simpl.
  destruct (p x) eqn:E; simpl; rewrite ?E, IH; reflexivity.
Qed.

Lemma filter_sublist {A} (p : A -> bool) (xs : list A) :
  sublist (List.filter p xs) xs.
Proof.
  induction xs as [|x xs IH]; simpl; [constructor|].
  destruct (p x); by constructor.
Qed.

(** With the stop event clear no thread returns, whatever the time. *)
Lemma resume_looping (now : Q) (threads : list playback_loop) :
  sound_name <$> omap (resume false now) threads = sound_name <$> threads.
Proof.
  induction threads as [|th threads IH]; [reflexivity|].
  cbn [omap list_omap]. fold (omap (resume false now) threads).
  unfold resume at 1. destruct (gt (wakes_at th) now); simpl; f_equal; exact IH.
Qed.

Lemma elapse_looping (now : Q) (lib : PredatorSoundLibrary) :
  stop_playback_event lib = false ->
  sound_name <$> live_threads (elapse now lib) = sound_name <$> live_threads lib.
Proof.
  intros Hev. unfold elapse. simpl. rewrite Hev. apply resume_looping.
Qed.

(** The threads a stop leaves alive are asleep beyond its return. *)
Lemma stop_threads (now : Q) (lib : PredatorSoundLibrary) :
  let stopped := stop_predator_sound now lib in
  live_threads stopped.1
  = List.filter (fun th => gt (wakes_at th) stopped.2)
      (omap (resume (stop_playback_event lib) now) (live_threads lib)).
Proof.
  unfold stop_predator_sound. cbn [fst snd live_threads elapse stop_playback_event].
  apply resume_stopped.
Qed.

Lemma stop_bookkeeping (now : Q) (lib : PredatorSoundLibrary) :
  let stopped := stop_predator_sound now lib in
  playback_thread stopped.1 = None
  /\ stop_playback_event stopped.1 = true
  /\ communication_analyzer stopped.1
     = (fun _ => predator_status_init) <$> communication_analyzer lib
  /\ sound_cache stopped.1 = sound_cache lib
  /\ threads_started stopped.1 = threads_started lib.
Proof.
  unfold stop_predator_sound, elapse.
  cbn [fst snd playback_thread stop_playback_event communication_analyzer
         sound_cache threads_started live_threads].
  repeat split.
  destruct (communication_analyzer lib);
    repeat match goal with
           | |- context [if ?b then _ else _] => destruct b
           end; reflexivity.
Qed.

(** The status a stop leaves is read as no sound active, at any time. *)
Lemma stopped_status_inactive (now : Q) :
  is_predator_sound_active predator_status_init now = false.
Proof. reflexivity. Qed.

(** C9: [stop_predator_sound] is idempotent.  A second call made when the
    first returns changes nothing at all, and a second call at any other
    time leaves the same bookkeeping: no playback thread, the stop event
    set, the analyzer told that no sound is active; it starts nothing.
    When no playback thread is alive the call returns at once and only
    writes that bookkeeping. *)
Theorem stop_predator_sound_idempotent (now : Q) (lib : PredatorSoundLibrary) :
  let stopped := stop_predator_sound now lib in
  stop_predator_sound stopped.2 stopped.1 = stopped
  /\ (playback_thread stopped.1 = None
      /\ stop_playback_event stopped.1 = true
      /\ communication_analyzer stopped.1
         = (fun _ => predator_status_init) <$> communication_analyzer lib)
  /\ (forall later,
        let again := stop_predator_sound later stopped.1 in
        playback_thread again.1 = playback_thread stopped.1
        /\ stop_playback_event again.1 = stop_playback_event stopped.1
        /\ communication_analyzer again.1 = communication_analyzer stopped.1
        /\ sublist (live_threads again.1) (live_threads stopped.1))
  /\ (live_threads lib = [] ->
      stopped
      = ({| sound_cache := sound_cache lib;
            communication_analyzer :=
              (fun _ => predator_status_init) <$> communication_analyzer lib;
            playback_thread := None;
            stop_playback_event := true;
            live_threads := [];
            threads_started := threads_started lib |}, now)).
Proof.
  intros stopped.
  pose proof (stop_bookkeeping now lib) as (Hth & Hev & Han & Hcache & Hn).
  pose proof (stop_threads now lib) as Hlive.
  fold stopped in Hth, Hev, Han, Hcache, Hn, Hlive.
  split; [|split; [auto|split]].
  - destruct stopped as [lib1 t1] eqn:Es. simpl in *.
    unfold stop_predator_sound, alive_playback_thread, elapse.
    cbn [playback_thread stop_playback_event live_threads communication_analyzer
           sound_cache threads_started].
    rewrite Hth, Hev. cbn [mbind option_bind].
    rewrite !resume_stopped, Hlive, !filter_idem.
    rewrite Nat.ltb_irrefl.
    destruct lib1 as [c a p e l n]. simpl in *. subst.
    f_equal. f_equal. by destruct (communication_analyzer lib).
  - intros later again.
    pose proof (stop_bookkeeping later stopped.1) as (Hth2 & Hev2 & Han2 & _).
    pose proof (stop_threads later stopped.1) as Hlive2.
    fold again in Hth2, Hev2, Han2, Hlive2.
    rewrite Hth2, Hev2, Han2, Hth, Hev, Han. repeat split.
    + by destruct (communication_analyzer lib).
    + rewrite Hlive2, Hev, resume_stopped.
      etrans; apply filter_sublist.
  - intros Hnone. subst stopped.
    unfold stop_predator_sound, alive_playback_thread, elapse.
    rewrite Hnone.
    cbn [playback_thread stop_playback_event live_threads communication_analyzer
           sound_cache threads_started omap list_omap length].
    rewrite Nat.ltb_irrefl.
    destruct (playback_thread lib); cbn [mbind option_bind List.find];
      rewrite ?Nat.ltb_irrefl; reflexivity.
Qed.

(** C2, on the code: a second [play_predator_sound] one second after the
    first, with sounds longer than the two seconds [join] waits.  The
    first thread is asleep when the stop event is set and still asleep
    when [join] times out; the event is cleared before it wakes, so it
    never sees it.  When the second call returns, at time 3, both threads
    are alive, and they stay alive for as long as no further call is
    made. *)
Theorem second_play_leaves_two_playbacks :
  let lib0 :=
    library_init [("hawk_screech", 5); ("eagle_cry", 4)]
      (Some predator_status_init) in
  let after := play_all [("hawk_screech", 0); ("eagle_cry", 1)] lib0 0 in
  after.2 == 3
  /\ stop_playback_event after.1 = false
  /\ playback_thread after.1 = Some 1%nat
  /\ sound_name <$> live_threads after.1 = ["hawk_screech"; "eagle_cry"]
  /\ forall later,
       sound_name <$> live_threads (elapse later after.1)
       = ["hawk_screech"; "eagle_cry"].
Proof.
  intros lib0 after.
  assert (Hev : stop_playback_event after.1 = false) by reflexivity.
  assert (Hlive : sound_name <$> live_threads after.1
                  = ["hawk_screech"; "eagle_cry"]) by reflexivity.
  repeat split; try reflexivity.
  intros later. rewrite (elapse_looping later _ Hev). exact Hlive.
Qed.

(** A thread that wakes and keeps looping sleeps again until some time
    within one sound length of [now]. *)
Lemma next_wake_bounds (th : playback_loop) (now : Q) :
  0 <= duration th ->
  wakes_at th <= now ->
  now <= next_wake th now /\ next_wake th now <= now + duration th.
Proof.
  intros Hd Hw. unfold next_wake.
  destruct (Qle_bool (duration th) 0) eqn:E.
  - apply Qle_bool_iff in E. lra.
  - assert (Hpos : 0 < duration th).
    { destruct (Qlt_le_dec 0 (duration th)) as [H|H]; [exact H|].
      apply Qle_bool_iff in H. congruence. }
    set (x := (now - wakes_at th) / duration th).
    pose proof (Qfloor_le x) as Hlo.
    pose proof (Qlt_floor x) as Hhi.
    rewrite inject_Z_plus in Hhi |- *.
    change (inject_Z 1) with 1 in Hhi |- *.
    set (k := inject_Z (Qfloor x)) in *.
    assert (Hx : duration th * x == now - wakes_at th)
      by (subst x; field; lra).
    assert (H1 : duration th * k <= duration th * x)
      by (apply Qmult_le_l; assumption).
    assert (H2 : duration th * x < duration th * (k + 1))
      by (apply Qmult_lt_l; assumption).
    assert (H3 : duration th * (k + 1) == duration th * k + duration th)
      by ring.
    rewrite H3 in H2 |- *. split; lra.
Qed.

Lemma cached_length_elem (name : string) (cache : list (string * Q)) (d : Q) :
  cached_length name cache = Some d -> exists kv, kv ∈ cache /\ snd kv = d.
Proof.
  induction cache as [|kv cache IH]; [done|]. simpl.
  destruct (String.eqb (fst kv) name).
  - intros H. injection H as <-. exists kv. split; [left | reflexivity].
  - intros H. destruct (IH H) as (kv' & Hin & Hd).
    exists kv'. split; [by right | exact Hd].
Qed.

(** When the thread the object holds wakes within the two seconds,
    [join] waits for it, and the stop leaves no thread alive. *)
Lemma stop_joins_short_sound (now t : Q) (lib : PredatorSoundLibrary) :
  at_most_current lib t ->
  t <= now ->
  let stopped := stop_predator_sound now lib in
  live_threads stopped.1 = [] /\ now <= stopped.2.
Proof.
  intros Hinv Ht stopped.
  pose proof (stop_threads now lib) as Hlive. fold stopped in Hlive.
  destruct Hinv as [Hnone | (th & Hone & Hcur & Hd0 & Hd2 & Hw)].
  - rewrite Hlive, Hnone. split; [reflexivity|].
    subst stopped. unfold stop_predator_sound, alive_playback_thread, elapse.
    rewrite Hnone. cbn [snd live_threads omap list_omap playback_thread].
    destruct (playback_thread lib); cbn [mbind option_bind List.find]; lra.
  - assert (Hret : forall th',
               omap (resume (stop_playback_event lib) now) (live_threads lib) = [th'] ->
               thread_id th' = thread_id th ->
               now <= wakes_at th' -> wakes_at th' <= now + 2 ->
               stopped.2 = wakes_at th').
    { intros th' Hom Hid Hlo Hhi. subst stopped.
      unfold stop_predator_sound, alive_playback_thread, elapse.
      cbn [snd live_threads playback_thread]. rewrite Hom, Hcur.
      cbn [mbind option_bind List.find]. rewrite Hid, Nat.eqb_refl.
      case_gt (wakes_at th') (now + 2); [lra | reflexivity]. }
    rewrite Hlive, Hone. cbn [omap list_omap].
    unfold resume.
    case_gt (wakes_at th) now.
    + rewrite (Hret th); [| by rewrite Hone; cbn [omap list_omap]; unfold resume;
                              rewrite (proj2 (gt_true _ _) Hgt)
                          | reflexivity | lra | lra].
      simpl. case_gt (wakes_at th) (wakes_at th); [lra|]. split; [reflexivity | lra].
    + destruct (stop_playback_event lib) eqn:Hev.
      * split; [reflexivity|].
        subst stopped. unfold stop_predator_sound, alive_playback_thread, elapse.
        cbn [snd live_threads playback_thread]. rewrite Hone, Hev.
        cbn [omap list_omap]. unfold resume.
        rewrite (proj2 (gt_false _ _) Hgt).
        destruct (playback_thread lib); cbn [mbind option_bind List.find]; lra.
      * destruct (next_wake_bounds th now Hd0 Hgt) as [Hlo Hhi].
        set (th' := {| thread_id := thread_id th; sound_name := sound_name th;
                       duration := duration th; wakes_at := next_wake th now |}).
        rewrite (Hret th'); [| by rewrite Hone; cbn [omap list_omap]; unfold resume;
                                 rewrite (proj2 (gt_false _ _) Hgt)
                             | reflexivity | exact Hlo | simpl; lra].
        simpl. case_gt (next_wake th now) (next_wake th now); [lra|].
        split; [reflexivity | exact Hlo].
Qed.

(** With sounds of at most two seconds and calls made one after the
    other, a play leaves at most one thread alive: the one it started,
    playing the sound it was asked for, or none when the sound is not
    cached. *)
Lemma play_preempts_short_sounds (name : string) (now t : Q)
    (lib : PredatorSoundLibrary) :
  short_sounds (sound_cache lib) ->
  at_most_current lib t ->
  t <= now ->
  let out := play_predator_sound name now lib in
  now <= out.2
  /\ sound_cache out.1.2 = sound_cache lib
  /\ at_most_current out.1.2 out.2
  /\ (if out.1.1
      then sound_name <$> live_threads out.1.2 = [name]
      else live_threads out.1.2 = []).
Proof.
  intros Hshort Hinv Ht out.
  pose proof (stop_joins_short_sound now t lib Hinv Ht) as [Hnone Hle].
  pose proof (stop_bookkeeping now lib) as (_ & _ & _ & Hcache & _).
  subst out. unfold play_predator_sound.
  destruct (stop_predator_sound now lib) as [lib1 t1]. simpl in Hnone, Hle, Hcache.
  destruct (cached_length name (sound_cache lib1)) as [d|] eqn:Ec.
  - destruct (cached_length_elem _ _ _ Ec) as (kv & Hin & Hkv).
    rewrite Hcache in Hin.
    unfold short_sounds in Hshort. rewrite Forall_forall in Hshort.
    destruct (Hshort kv Hin) as [Hd0 Hd2]. rewrite Hkv in Hd0, Hd2.
    assert (Hsleeps : gt 0 d = false) by (by apply gt_false).
    cbn [fst snd]. rewrite Hsleeps, Hnone. cbn [negb app live_threads sound_cache].
    repeat split; [exact Hle | exact Hcache |].
    right. eexists. split; [reflexivity|]. simpl. repeat split; try assumption. lra.
  - cbn [fst snd]. repeat split; [exact Hle | exact Hcache | by left | exact Hnone].
Qed.

(** X8: when every cached sound lasts at most the two seconds [join]
    waits and the calls are made one after the other, over any sequence
    of [play_predator_sound] calls at most one playback thread is alive
    after each call, and it is the one the object holds. *)
Lemma play_all_short_sounds (calls : list (string * Q))
    (lib : PredatorSoundLibrary) (t : Q) :
  short_sounds (sound_cache lib) ->
  at_most_current lib t ->
  sequential calls lib t ->
  at_most_current (play_all calls lib t).1 (play_all calls lib t).2
  /\ (length (live_threads (play_all calls lib t).1) <= 1)%nat.
Proof.
  revert lib t. induction calls as [|[name now] rest IH]; intros lib t Hshort Hinv Hseq.
  - simpl. split; [exact Hinv|].
    destruct Hinv as [-> | (th & -> & _)]; simpl; lia.
  - destruct Hseq as [Ht Hseq].
    pose proof (play_preempts_short_sounds name now t lib Hshort Hinv Ht)
      as (_ & Hcache & Hinv' & _).
    simpl. destruct (play_predator_sound name now lib) as [[ok lib'] t'].
    simpl in *. apply IH; [by rewrite Hcache | exact Hinv' | exact Hseq].
Qed.

(** * Further properties of the code *)

Import Monitor Panel.

(** ** What the classifier returns *)

(** The flags and the urgency of the returned pattern, as functions of
    the conditions the rules test. *)
Lemma classifier_lookups (f : audio_features) (si : option species_info) :
  let patterns := analyze_communication_patterns (Some f) si in
  let rapid := species_info_truthy si
               && (mem "rapid_succession" (alarm_patterns_of si)
                   && gt (default 0 (tempo f)) 180) in
  let pitch := species_info_truthy si
               && (mem "pitch_variation" (alarm_patterns_of si)
                   && gt (zcr_variance f) 0.015) in
  (patterns !! "alarm_signal", patterns !! "territorial_behavior",
   patterns !! "flock_communication", patterns !! "urgency_level")
  = (Some (PBool (gt (zcr_variance f) 0.01)),
     Some (PBool (negb (gt (spectral_centroid_mean f) 3000)
                  && gt (spectral_centroid_mean f) 1500)),
     Some (PBool (gt (default 0 (tempo f)) 150)),
     Some (PStr (if pitch then "high"
                 else if rapid then "critical"
                 else if gt (spectral_centroid_mean f) 3000
                         || gt (zcr_variance f) 0.01 then "high"
                 else "low"))).
Proof.
  unfold analyze_communication_patterns,
    rule_call_type, rule_flock, rule_alarm,
    rule_rapid_succession, rule_pitch_variation.
  cbv zeta.
  generalize (species_info_truthy si),
    (mem "rapid_succession" (alarm_patterns_of si)),
    (mem "pitch_variation" (alarm_patterns_of si)),
    (gt (spectral_centroid_mean f) 3000), (gt (spectral_centroid_mean f) 1500),
    (gt (default 0 (tempo f)) 150), (gt (default 0 (tempo f)) 180),
    (gt (zcr_variance f) 0.01), (gt (zcr_variance f) 0.015).
  intros [] [] [] [] [] [] [] [] []; vm_compute; reflexivity.
Qed.

(** The keys the consumers of a pattern index directly are in every
    pattern the classifier returns. *)
Lemma classifier_keys (features : option audio_features) (si : option species_info) :
  let patterns := analyze_communication_patterns features si in
  (exists b, patterns !! "alarm_signal" = Some (PBool b))
  /\ (exists b, patterns !! "territorial_behavior" = Some (PBool b))
  /\ (exists b, patterns !! "flock_communication" = Some (PBool b))
  /\ (exists u, patterns !! "urgency_level" = Some (PStr u)).
Proof.
  destruct features as [f|]; [|repeat split; eexists; reflexivity].
  pose proof (classifier_lookups f si) as H. cbv zeta in H.
  injection H as Ha Ht Hf Hu. eauto 10.
Qed.

(** X1: every pattern the classifier returns, for any features and
    species information, carries the three flags as booleans and an
    urgency that is low, high or critical, never medium.  An alarm signal
    comes with urgency high or critical, and urgency critical comes with
    the flock flag, because the tempo that makes a call critical (above
    180) is above the one that marks a flock (above 150). *)
Theorem classifier_output_shape
    (features : option audio_features) (si : option species_info) :
  let patterns := analyze_communication_patterns features si in
  exists alarm territorial flock urgency,
    patterns !! "alarm_signal" = Some (PBool alarm)
    /\ patterns !! "territorial_behavior" = Some (PBool territorial)
    /\ patterns !! "flock_communication" = Some (PBool flock)
    /\ patterns !! "urgency_level" = Some (PStr urgency)
    /\ (urgency = "low" \/ urgency = "high" \/ urgency = "critical")
    /\ (alarm = true -> urgency = "high" \/ urgency = "critical")
    /\ (urgency = "critical" -> flock = true).
Proof.
  destruct features as [f|].
  2:{ exists false, false, false, "low".
      repeat split; try reflexivity; [by left | discriminate | discriminate]. }
  pose proof (classifier_lookups f si) as H. cbv zeta in H.
  injection H as Ha Ht Hf Hu.
  do 4 eexists. split; [exact Ha|]. split; [exact Ht|].
  split; [exact Hf|]. split; [exact Hu|].
  destruct (species_info_truthy si && (mem "pitch_variation" _ && _)).
  { split; [tauto|]. split; [tauto | discriminate]. }
  destruct (species_info_truthy si) eqn:Hsi; simpl.
  - destruct (mem "rapid_succession" (alarm_patterns_of si)); simpl.
    + case_gt (default 0 (tempo f)) 180.
      * split; [tauto|]. split; [tauto|]. intros _.
        apply gt_true. lra.
      * destruct (gt (zcr_variance f) 0.01), (gt (spectral_centroid_mean f) 3000);
          simpl; (split; [tauto|]); split; first [tauto | discriminate].
    + destruct (gt (zcr_variance f) 0.01), (gt (spectral_centroid_mean f) 3000);
        simpl; (split; [tauto|]); split; first [tauto | discriminate].
  - destruct (gt (zcr_variance f) 0.01), (gt (spectral_centroid_mean f) 3000);
      simpl; (split; [tauto|]); split; first [tauto | discriminate].
Qed.

(** ** What the predictor returns *)

Lemma predict_body_unfold (patterns : gmap string pyval)
    (history : list (gmap string pyval)) :
  predict_body patterns history
  = contributions patterns history ≫= finish_prediction.
Proof. reflexivity. Qed.

(** The prediction for each outcome of the five conditions: the primary
    intent is one of four intents, its confidence is positive and at most
    1, and it is [normal_flight] exactly when no condition holds. *)
Lemma finish_prediction_weights (a t f ha ht : bool) :
  exists primary conf scores,
    finish_prediction (weights a t f ha ht)
    = Ok {| primary_intent := Some primary;
            confidence := Some conf;
            all_scores := Some scores |}
    /\ primary ∈ ["territory_defense"; "flock_gathering";
                  "predator_avoidance"; "normal_flight"]
    /\ 0 < conf /\ conf <= 1
    /\ (primary = "normal_flight" <-> a || t || f || ha || ht = false).
Proof.
  destruct a, t, f, ha, ht; vm_compute;
    do 3 eexists; (split; [reflexivity|]);
    (split; [solve [repeat first [apply list_elem_of_here
                                 | apply list_elem_of_further]]|]);
    (split; [reflexivity|]);
    (split; [discriminate|]);
    split; first [reflexivity | discriminate].
Qed.

(** The predictor's result has its three keys, whatever it is given. *)
Lemma predict_cases (patterns : gmap string pyval)
    (history : list (gmap string pyval)) :
  (exists alarm territorial flock primary conf scores,
      patterns !! "alarm_signal" = Some alarm
      /\ patterns !! "territorial_behavior" = Some territorial
      /\ patterns !! "flock_communication" = Some flock
      /\ predict_behavioral_intent patterns history
         = {| primary_intent := Some primary;
              confidence := Some conf;
              all_scores := Some scores |}
      /\ primary ∈ ["territory_defense"; "flock_gathering";
                    "predator_avoidance"; "normal_flight"]
      /\ 0 < conf /\ conf <= 1)
  \/ ((patterns !! "alarm_signal" = None
       \/ patterns !! "territorial_behavior" = None
       \/ patterns !! "flock_communication" = None)
      /\ predict_behavioral_intent patterns history
         = {| primary_intent := Some "unknown";
              confidence := Some 0.0;
              all_scores := Some [] |}).
Proof.
  unfold predict_behavioral_intent. rewrite predict_body_unfold.
  destruct (patterns !! "alarm_signal") as [a|] eqn:Ha;
    [|right; split; [tauto|];
      unfold contributions, getitem; rewrite Ha; reflexivity].
  destruct (patterns !! "territorial_behavior") as [t|] eqn:Ht;
    [|right; split; [tauto|];
      unfold contributions, getitem; rewrite Ha, Ht; reflexivity].
  destruct (patterns !! "flock_communication") as [f|] eqn:Hf;
    [|right; split; [tauto|];
      unfold contributions, getitem; rewrite Ha, Ht, Hf; reflexivity].
  left. rewrite (contributions_weights patterns history a t f Ha Ht Hf).
  cbn [mbind res_bind Py.bind].
  destruct (finish_prediction_weights (truthy a) (truthy t) (truthy f)
              ((0 <? length history)%nat
               && (2 <? frequency "alarm_signal" (last_n 5 history))%nat)
              ((0 <? length history)%nat
               && (1 <? frequency "territorial_behavior" (last_n 5 history))%nat))
    as (primary & conf & scores & Hfin & Hin & Hpos & Hle & _).
  rewrite Hfin. exists a, t, f, primary, conf, scores.
  repeat split; assumption.
Qed.

Lemma multiplier_of_prediction (primary : string) :
  primary ∈ ["territory_defense"; "flock_gathering"; "predator_avoidance";
             "normal_flight"; "unknown"] ->
  primary <> "landing_approach"
  /\ 0.8 <= get intent_multipliers primary 1.0 <= 1.3.
Proof.
  intros Hin.
  repeat (apply elem_of_cons in Hin as [->|Hin];
          [split; [discriminate | vm_compute; split; discriminate]|]).
  by apply elem_of_nil in Hin.
Qed.

(** X2: for every pattern and history the predicted primary intent is one
    of [territory_defense], [flock_gathering], [predator_avoidance],
    [normal_flight] and [unknown]: nothing ever adds weight to
    [landing_approach], so it is never predicted, and the factor 1.5 the
    risk scorer keeps for it is never applied to a prediction (the
    multiplier is between 0.8 and 1.3).  The confidence is in [0, 1], and
    it is 0 only in the result [unknown]. *)
Theorem predictor_never_predicts_landing
    (patterns : gmap string pyval) (history : list (gmap string pyval)) :
  exists primary conf,
    primary_intent (predict_behavioral_intent patterns history) = Some primary
    /\ confidence (predict_behavioral_intent patterns history) = Some conf
    /\ primary ∈ ["territory_defense"; "flock_gathering";
                  "predator_avoidance"; "normal_flight"; "unknown"]
    /\ primary <> "landing_approach"
    /\ 0.8 <= get intent_multipliers primary 1.0 <= 1.3
    /\ 0 <= conf <= 1
    /\ (conf == 0 <-> primary = "unknown").
Proof.
  destruct (predict_cases patterns history)
    as [(a & t & f & primary & conf & scores & _ & _ & _ & Hp & Hin & Hpos & Hle)
       | [_ Hp]]; rewrite Hp; simpl.
  - assert (Hin' : primary ∈ ["territory_defense"; "flock_gathering";
                              "predator_avoidance"; "normal_flight"; "unknown"]).
    { repeat (apply elem_of_cons in Hin as [->|Hin];
              [by apply (bool_decide_unpack _)|]).
      by apply elem_of_nil in Hin. }
    destruct (multiplier_of_prediction primary Hin') as [Hne Hm].
    exists primary, conf. repeat split; try assumption; try lra.
    intros ->.
    repeat (apply elem_of_cons in Hin as [Hin|Hin]; [discriminate Hin|]).
    by apply elem_of_nil in Hin.
  - exists "unknown", 0.0. repeat split; try discriminate; try reflexivity.
    by apply (bool_decide_unpack _).
Qed.

(** ** The detection loop *)

Lemma or_default_nonempty (xs : list string) (x : string) :
  match xs with [] => [x] | _ => xs end <> [].
Proof. destruct xs; discriminate. Qed.

Lemma interpret_call_meaning_returns (patterns : gmap string pyval)
    (alarm territorial flock urgency : pyval) :
  patterns !! "alarm_signal" = Some alarm ->
  patterns !! "territorial_behavior" = Some territorial ->
  patterns !! "flock_communication" = Some flock ->
  patterns !! "urgency_level" = Some urgency ->
  exists l, interpret_call_meaning patterns = Ok l /\ l <> [].
Proof.
  intros Ha Ht Hf Hu. unfold interpret_call_meaning, getitem.
  rewrite Ha, Ht, Hf, Hu. cbn [mbind res_bind Py.bind mret res_ret].
  eexists. split; [reflexivity | apply or_default_nonempty].
Qed.

Lemma assess_threat_level_returns (patterns : gmap string pyval)
    (intent : intent_dict) (alarm flock urgency : pyval) (primary : string) :
  patterns !! "alarm_signal" = Some alarm ->
  patterns !! "flock_communication" = Some flock ->
  patterns !! "urgency_level" = Some urgency ->
  primary_intent intent = Some primary ->
  exists l, assess_threat_level patterns intent = Ok l /\ l <> [].
Proof.
  intros Ha Hf Hu Hp. unfold assess_threat_level, getitem, primary_intent_item.
  rewrite Ha, Hf, Hu, Hp. cbn [mbind res_bind Py.bind mret res_ret].
  eexists. split; [reflexivity | apply or_default_nonempty].
Qed.

Lemma monitoring_nonempty (intent : intent_dict) :
  get_monitoring_recommendations intent <> [].
Proof. unfold get_monitoring_recommendations. apply or_default_nonempty. Qed.

Lemma risk_score_returns (species : string) (conf : Q)
    (patterns : gmap string pyval) (intent : intent_dict)
    (alarm urgency flock : pyval) :
  patterns !! "alarm_signal" = Some alarm ->
  patterns !! "urgency_level" = Some urgency ->
  patterns !! "flock_communication" = Some flock ->
  exists r, calculate_enhanced_risk_score species conf patterns intent = Ok r.
Proof.
  intros Ha Hu Hf. unfold calculate_enhanced_risk_score, getitem.
  rewrite Ha, Hu, Hf. cbn [mbind res_bind Py.bind mret res_ret].
  eexists. reflexivity.
Qed.

Lemma predict_primary_some (patterns : gmap string pyval)
    (history : list (gmap string pyval)) :
  exists primary,
    primary_intent (predict_behavioral_intent patterns history) = Some primary.
Proof.
  destruct (predict_cases patterns history)
    as [(a & t & f & primary & conf & scores & _ & _ & _ & Hp & _) | [_ Hp]];
    rewrite Hp; eexists; reflexivity.
Qed.

(** One iteration never raises. *)
Lemma process_detection_returns (features : option audio_features)
    (d : detection) (h : list (gmap string pyval)) :
  exists a,
    process_detection features d h
    = Ok (a, last_n 100 (h ++ [pattern_of features d]))
    /\ alert_for features d h a.
Proof.
  unfold process_detection. fold (pattern_of features d).
  set (patterns := pattern_of features d).
  destruct (classifier_keys features
              (Some {| scientific := Some (det_scientific_name d);
                       common_name := Some (det_common_name d) |}))
    as ((a & Ha) & (t & Ht) & (f & Hf) & (u & Hu)).
  fold (pattern_of features d) in Ha, Ht, Hf, Hu. fold patterns in Ha, Ht, Hf, Hu.
  set (intent := predict_behavioral_intent patterns h).
  destruct (risk_score_returns (det_scientific_name d) (det_confidence d)
              patterns intent _ _ _ Ha Hu Hf) as [r Hr].
  destruct (interpret_call_meaning_returns patterns _ _ _ _ Ha Ht Hf Hu)
    as (li & Hli & Hli').
  destruct (predict_primary_some patterns h) as [primary Hprimary].
  destruct (assess_threat_level_returns patterns intent _ _ _ primary
              Ha Hf Hu Hprimary) as (lt & Hlt & Hlt').
  rewrite Hr. cbn [mbind res_bind Py.bind]. rewrite Hli.
  cbn [mbind res_bind Py.bind]. rewrite Hlt.
  cbn [mbind res_bind Py.bind mret res_ret].
  eexists. split.
  - f_equal. f_equal.
    destruct (100 <? _)%nat eqn:E; [reflexivity|].
    apply Nat.ltb_ge in E. by rewrite last_n_short.
  - unfold alert_for. cbn [al_communication_analysis al_behavioral_prediction
                             al_risk_score al_alert_level al_recommended_action
                             al_call_interpretation al_threat_assessment
                             al_recommended_monitoring].
    repeat split; try assumption; try reflexivity.
    + by destruct (alert_level_and_action r).
    + apply monitoring_nonempty.
Qed.

Lemma alerts_for_length (features : option audio_features)
    (detections : list detection) (h : list (gmap string pyval))
    (alerts : list alert) :
  alerts_for features detections h alerts -> length alerts = length detections.
Proof.
  revert h alerts. induction detections as [|d ds IH]; intros h [|a alerts] H;
    simpl in *; try done.
  destruct H as [_ H]. f_equal. by eapply IH.
Qed.

(** The loop never raises: it returns one alert per detection. *)
Lemma detection_loop_returns (features : option audio_features)
    (detections : list detection) (h : list (gmap string pyval))
    (acc : list alert) :
  exists new,
    detection_loop features detections h acc
    = (history_after features detections h, Ok (acc ++ new))
    /\ alerts_for features detections h new.
Proof.
  revert h acc. induction detections as [|d ds IH]; intros h acc.
  - exists []. simpl. by rewrite app_nil_r.
  - destruct (process_detection_returns features d h) as (a & Ha & Hfor).
    simpl. rewrite Ha.
    destruct (IH (last_n 100 (h ++ [pattern_of features d])) (acc ++ [a]))
      as (new & Hloop & Hnew).
    exists (a :: new). rewrite Hloop, <- app_assoc. split; [reflexivity|].
    simpl. split; assumption.
Qed.

(** X3: [analyze_audio_with_ai] never takes its exception handler because
    of the analysis itself.  While a predator sound is active it returns
    no alert and leaves the communication history alone; otherwise it
    returns exactly one alert per detection, in order, each with the
    classifier's pattern, the prediction made on the history the earlier
    detections of the same chunk left, the risk score the scorer returns
    for them, the alert level and action of that score, and non-empty
    insight lists. *)
Theorem analysis_returns_one_alert_per_detection
    (status : predator_status) (now : Q) (features : option audio_features)
    (detections : list detection) (history : list (gmap string pyval)) :
  let out := analyze_audio_with_ai status now features detections history in
  (is_predator_sound_active status now = true -> out = ([], history))
  /\ (is_predator_sound_active status now = false ->
      alerts_for features detections history out.1
      /\ length out.1 = length detections
      /\ out.2 = history_after features detections history).
Proof.
  intros out. subst out. unfold analyze_audio_with_ai. split; intros Hact; rewrite Hact.
  - reflexivity.
  - destruct (detection_loop_returns features detections history [])
      as (new & Hloop & Hnew).
    rewrite Hloop. simpl.
    split; [exact Hnew|]. split; [|reflexivity].
    by eapply alerts_for_length.
Qed.

Lemma history_after_bounded (features : option audio_features)
    (detections : list detection) (h : list (gmap string pyval)) :
  (length h <= 100)%nat ->
  history_after features detections h
  = last_n 100 (h ++ (pattern_of features <$> detections)).
Proof.
  unfold history_after. revert h.
  induction detections as [|d ds IH]; intros h Hlen; simpl.
  - by rewrite app_nil_r, last_n_short.
  - rewrite IH by apply last_n_length.
    rewrite last_n_app_last_n, <- app_assoc. reflexivity.
Qed.

(** X4: the communication history never grows beyond 100 patterns.  From
    a history of at most 100 entries, a call leaves the last 100 of the
    old entries followed by the patterns of the new detections, in
    order. *)
Theorem communication_history_bounded
    (status : predator_status) (now : Q) (features : option audio_features)
    (detections : list detection) (history : list (gmap string pyval)) :
  (length history <= 100)%nat ->
  let out := analyze_audio_with_ai status now features detections history in
  (length out.2 <= 100)%nat
  /\ (is_predator_sound_active status now = false ->
      out.2 = last_n 100 (history ++ (pattern_of features <$> detections))).
Proof.
  intros Hlen out. subst out. unfold analyze_audio_with_ai.
  destruct (is_predator_sound_active status now).
  - split; [exact Hlen | discriminate].
  - destruct (detection_loop_returns features detections history [])
      as (new & Hloop & _).
    rewrite Hloop. simpl. rewrite history_after_bounded by exact Hlen.
    split; [apply last_n_length | reflexivity].
Qed.

(** A full history and two detections in one chunk. *)
Lemma communication_history_bounded_witness :
  let history := replicate 100 default_patterns in
  let detections :=
    [{| det_scientific_name := "Corvus splendens"; det_common_name := "House Crow";
        det_confidence := 0.88; det_start_time := 0; det_end_time := 3 |};
     {| det_scientific_name := "Acridotheres javanicus"; det_common_name := "Javan Myna";
        det_confidence := 0.5; det_start_time := 0; det_end_time := 3 |}] in
  let out := analyze_audio_with_ai predator_status_init 10 None detections history in
  (length out.2 <= 100)%nat
  /\ (is_predator_sound_active predator_status_init 10 = false ->
      out.2 = last_n 100 (history ++ (pattern_of None <$> detections))).
Proof.
  intros history detections.
  apply (communication_history_bounded predator_status_init 10 None detections history).
  subst history. rewrite length_replicate. lia.
Defined.

(** ** The risk score as a function of the detection confidence *)

Lemma min_mono (a b c : Q) : a <= b -> Py.min a c <= Py.min b c.
Proof. intros H. unfold Py.min. case_gt a c; case_gt b c; lra. Qed.

(** X5: a higher detection confidence never lowers the risk score.  For
    the same species, pattern and prediction (with an intent confidence
    in [0, 1]), the scorer either raises the same error for both
    confidences or returns scores in the same order as the
    confidences. *)
Theorem risk_score_monotone_in_confidence
    (species : string) (c1 c2 : Q) (patterns : gmap string pyval)
    (intent : intent_dict) :
  c1 <= c2 ->
  (forall c, confidence intent = Some c -> 0 <= c <= 1) ->
  match calculate_enhanced_risk_score species c1 patterns intent,
        calculate_enhanced_risk_score species c2 patterns intent with
  | Ok r1, Ok r2 => r1 <= r2
  | Raise e1, Raise e2 => e1 = e2
  | _, _ => False
  end.
Proof.
  intros Hc Hic. unfold calculate_enhanced_risk_score, getitem.
  destruct (patterns !! "alarm_signal") as [alarm|]; [|reflexivity].
  cbn [mbind res_bind Py.bind].
  destruct (patterns !! "urgency_level") as [urgency|]; [|reflexivity].
  cbn [mbind res_bind Py.bind].
  destruct (patterns !! "flock_communication") as [flock|]; [|reflexivity].
  cbn [mbind res_bind Py.bind mret res_ret].
  pose proof (base_risk_bounds species) as Hb.
  assert (Hic' : 0 <= default 0.0 (confidence intent) <= 1).
  { destruct (confidence intent) as [c|]; simpl; [by apply Hic | lra]. }
  pose proof (intent_factor_bounds
                (default "normal_flight" (primary_intent intent)) _ Hic') as Hfac.
  set (factor := 1 + _ * _) in *.
  assert (Hbase : base_risk_of species * c1 <= base_risk_of species * c2)
    by (rewrite !(Qmult_comm (base_risk_of species));
        apply Qmult_le_compat_r; lra).
  apply min_mono. apply Qmult_le_compat_r; [|lra].
  destruct (truthy alarm), (eq_str urgency "critical"),
    (eq_str urgency "high"), (truthy flock); lra.
Qed.

(** A Javan Myna heard at confidence 0.4 and at confidence 0.9. *)
Lemma risk_score_monotone_in_confidence_witness :
  match calculate_enhanced_risk_score "Acridotheres javanicus" 0.4
          default_patterns (predict_behavioral_intent default_patterns []),
        calculate_enhanced_risk_score "Acridotheres javanicus" 0.9
          default_patterns (predict_behavioral_intent default_patterns []) with
  | Ok r1, Ok r2 => r1 <= r2
  | Raise e1, Raise e2 => e1 = e2
  | _, _ => False
  end.
Proof.
  apply (risk_score_monotone_in_confidence "Acridotheres javanicus" 0.4 0.9
           default_patterns (predict_behavioral_intent default_patterns [])).
  - lra.
  - intros c Hc. vm_compute in Hc. injection Hc as <-. lra.
Defined.

(** ** Sound selection and playback *)

Lemma cached_length_keys (name : string) (cache : list (string * Q)) :
  is_Some (cached_length name cache) <-> name ∈ cache_keys cache.
Proof.
  unfold cache_keys. induction cache as [|kv cache IH].
  - split; [by intros [? ?] | by intros ?%elem_of_nil].
  - rewrite fmap_cons, elem_of_cons. cbn [cached_length].
    destruct (String.eqb (fst kv) name) eqn:E.
    + apply String.eqb_eq in E. split; [by left | by eexists].
    + apply String.eqb_neq in E. rewrite IH. split; [by right|].
      intros [H|H]; [congruence | exact H].
Qed.

(** X6: with at least one sound loaded the sound deterrent, which only a
    direct call reaches, always succeeds: the selection returns a sound of
    the cache for every species name, behaviour and random draw, the
    library is left with the stop event clear and a new playback thread
    held, which loops the selected sound when its length is not negative,
    and neither the response history nor the decision history records
    the call. *)
Theorem sound_deterrent_plays_cached_sound
    (bd : bird_data) (draw : nat) (now : Q) (sys : StrategicResponseSystem) :
  sound_cache (predator_sounds sys) <> [] ->
  exists s d sys',
    get_effective_predator_sound (sound_cache (predator_sounds sys))
      (common_name_of bd)
      (default "unknown" (behavioral_prediction bd ≫= primary_intent)) draw
    = Ok s
    /\ s ∈ cache_keys (sound_cache (predator_sounds sys))
    /\ cached_length s (sound_cache (predator_sounds sys)) = Some d
    /\ _execute_sound_deterrent bd draw now sys = Ok (true, sys')
    /\ response_history sys' = response_history sys
    /\ decision_history sys' = decision_history sys
    /\ sound_cache (predator_sounds sys') = sound_cache (predator_sounds sys)
    /\ stop_playback_event (predator_sounds sys') = false
    /\ playback_thread (predator_sounds sys')
       = Some (threads_started (predator_sounds sys))
    /\ (0 <= d ->
        exists th,
          th ∈ live_threads (predator_sounds sys')
          /\ thread_id th = threads_started (predator_sounds sys)
          /\ sound_name th = s /\ duration th = d).
Proof.
  intros Hne.
  destruct (selected_sound_is_cached (sound_cache (predator_sounds sys))
              (common_name_of bd)
              (default "unknown" (behavioral_prediction bd ≫= primary_intent))
              draw Hne) as (s & Hs & Hin).
  pose proof Hin as Hcached. apply cached_length_keys in Hcached as [d Hd].
  exists s, d. unfold _execute_sound_deterrent, play_predator_sound.
  rewrite Hs. cbn [mbind res_bind Py.bind].
  pose proof (stop_bookkeeping now (predator_sounds sys))
    as (_ & _ & _ & Hcache & Hstarted).
  destruct (stop_predator_sound now (predator_sounds sys)) as [lib t].
  cbn [fst snd] in Hcache, Hstarted. rewrite Hcache, Hd, Hstarted.
  cbn [mret res_ret]. eexists. repeat split; try eassumption.
  cbn [predator_sounds live_threads]. intros Hd0.
  apply gt_false in Hd0. rewrite Hd0. cbn [negb].
  eexists. split; [apply elem_of_app; right; by left|]. repeat split.
Qed.

Lemma sound_deterrent_plays_cached_sound_witness :
  exists s d sys',
    get_effective_predator_sound [("owl_hoot", 3); ("cat_meow", 2)]
      (common_name_of
         {| species := None; alert_level := None; risk_score := None;
            communication_analysis := None; behavioral_prediction := None |})
      (default "unknown" None) 7
    = Ok s
    /\ s ∈ cache_keys [("owl_hoot", 3); ("cat_meow", 2)]
    /\ cached_length s [("owl_hoot", 3); ("cat_meow", 2)] = Some d
    /\ _execute_sound_deterrent
         {| species := None; alert_level := None; risk_score := None;
            communication_analysis := None; behavioral_prediction := None |}
         7 10
         {| decision_history := [];
            predator_sounds :=
              library_init [("owl_hoot", 3); ("cat_meow", 2)] None;
            response_history := [] |} = Ok (true, sys')
    /\ response_history sys' = []
    /\ decision_history sys' = []
    /\ sound_cache (predator_sounds sys') = [("owl_hoot", 3); ("cat_meow", 2)]
    /\ stop_playback_event (predator_sounds sys') = false
    /\ playback_thread (predator_sounds sys') = Some 0%nat
    /\ (0 <= d ->
        exists th,
          th ∈ live_threads (predator_sounds sys')
          /\ thread_id th = 0%nat /\ sound_name th = s /\ duration th = d).
Proof.
  apply (sound_deterrent_plays_cached_sound
           {| species := None; alert_level := None; risk_score := None;
              communication_analysis := None; behavioral_prediction := None |}
           7 10
           {| decision_history := [];
              predator_sounds :=
                library_init [("owl_hoot", 3); ("cat_meow", 2)] None;
              response_history := [] |}).
  discriminate.
Defined.

(** Every category's list of predator sounds has the hawk screech. *)
Lemma hawk_screech_mapped (category : string) :
  "hawk_screech" ∈ get predator_mappings category
                     ["hawk_screech"; "eagle_cry"; "owl_hoot"].
Proof.
  unfold get. destruct (predator_mappings !! category) as [l|] eqn:E; simpl.
  - apply elem_of_list_to_map_2 in E.
    repeat (apply elem_of_cons in E as [E|E];
            [injection E as _ Hl; subst l; by apply (bool_decide_unpack _)|]).
    by apply elem_of_nil in E.
  - by apply (bool_decide_unpack _).
Qed.

Lemma filter_elem (p : string -> bool) (xs : list string) (x : string) :
  x ∈ List.filter p xs <-> x ∈ xs /\ p x = true.
Proof. rewrite !list_elem_of_In. apply filter_In. Qed.

(** X7: when the hawk screech is loaded the selection never falls back to
    an arbitrary cached sound: the selected sound is cached and is in the
    list of the species' category.  If moreover the behaviour text
    contains [territorial] or [aggressive], in any letter case, the
    selected sound is one of the three aggressive sounds. *)
Theorem selection_with_hawk_screech
    (cache : list (string * Q)) (bird_species bird_behavior : string) (draw : nat) :
  "hawk_screech" ∈ cache_keys cache ->
  exists s,
    get_effective_predator_sound cache bird_species bird_behavior draw = Ok s
    /\ s ∈ cache_keys cache
    /\ s ∈ get predator_mappings (bird_category_of bird_species)
             ["hawk_screech"; "eagle_cry"; "owl_hoot"]
    /\ (contains "territorial" (lower bird_behavior)
        || contains "aggressive" (lower bird_behavior) = true ->
        s ∈ ["hawk_screech"; "eagle_cry"; "falcon_call"]).
Proof.
  intros Hhawk. unfold get_effective_predator_sound.
  rewrite default_mapping. cbn [mbind res_bind Py.bind].
  pose proof (hawk_screech_mapped (bird_category_of bird_species)) as Hmapped.
  set (mapped := get predator_mappings _ _) in *.
  set (avail1 := List.filter _ mapped).
  assert (H1 : "hawk_screech" ∈ avail1)
    by (apply filter_elem; split; [exact Hmapped | by apply mem_true]).
  assert (Hsub1 : forall x, x ∈ avail1 -> x ∈ cache_keys cache /\ x ∈ mapped).
  { intros x Hx. apply filter_elem in Hx as [Hx Hm].
    split; [by apply mem_true | exact Hx]. }
  destruct avail1 as [|a1 l1] eqn:E1; [by apply elem_of_nil in H1|].
  rewrite <- E1 in *. clear E1 a1 l1.
  destruct (contains "territorial" (lower bird_behavior)
            || contains "aggressive" (lower bird_behavior)) eqn:Hbeh.
  - set (aggr := List.filter _ avail1).
    assert (Ha : "hawk_screech" ∈ aggr)
      by (apply filter_elem; split; [exact H1 | reflexivity]).
    destruct aggr as [|a2 l2] eqn:E2; [by apply elem_of_nil in Ha|].
    rewrite <- E2 in *.
    assert (Hne : aggr <> []) by (rewrite E2; discriminate).
    destruct (random_choice_elem aggr draw Hne) as (s & Hs & Hin).
    exists s. split; [by destruct aggr|].
    subst aggr. apply filter_elem in Hin as [Hin Hag].
    destruct (Hsub1 s Hin) as [Hc Hm].
    repeat split; try assumption. intros _. by apply mem_true.
  - assert (Hne : avail1 <> []).
    { intros Hnil. rewrite Hnil in H1. by apply elem_of_nil in H1. }
    destruct (random_choice_elem avail1 draw Hne) as (s & Hs & Hin).
    exists s. split; [by destruct avail1|].
    destruct (Hsub1 s Hin) as [Hc Hm].
    repeat split; try assumption. discriminate.
Qed.

(** A territorial crow, with the hawk and the owl loaded. *)
Lemma selection_with_hawk_screech_witness :
  exists s,
    get_effective_predator_sound [("owl_hoot", 3); ("hawk_screech", 2)]
      "House Crow" "Territorial display" 5 = Ok s
    /\ s ∈ cache_keys [("owl_hoot", 3); ("hawk_screech", 2)]
    /\ s ∈ get predator_mappings (bird_category_of "House Crow")
             ["hawk_screech"; "eagle_cry"; "owl_hoot"]
    /\ (contains "territorial" (lower "Territorial display")
        || contains "aggressive" (lower "Territorial display") = true ->
        s ∈ ["hawk_screech"; "eagle_cry"; "falcon_call"]).
Proof.
  apply (selection_with_hawk_screech [("owl_hoot", 3); ("hawk_screech", 2)]
           "House Crow" "Territorial display" 5).
  by apply (bool_decide_unpack _).
Defined.

(** Three calls, with sounds of 1.5 and 2 seconds. *)
Lemma play_all_short_sounds_witness :
  let lib := library_init [("hawk_screech", 1.5); ("owl_hoot", 2)]
               (Some predator_status_init) in
  let calls := [("hawk_screech", 0); ("owl_hoot", 2); ("hawk_screech", 4.5)] in
  at_most_current (play_all calls lib 0).1 (play_all calls lib 0).2
  /\ (length (live_threads (play_all calls lib 0).1) <= 1)%nat.
Proof.
  intros lib calls.
  apply (play_all_short_sounds calls lib 0).
  - repeat constructor; simpl; lra.
  - by left.
  - simpl. split; [lra|]. split; [vm_compute; discriminate|].
    split; [vm_compute; discriminate | exact I].
Defined.

(** X9: [play_predator_sound] succeeds exactly when the name is a key of
    the cache.  When it is not, the call returns [False] after having
    stopped whatever was playing: it leaves the object exactly as
    [stop_predator_sound] does, with no playback thread held and the stop
    event set. *)
Theorem play_unknown_sound_only_stops
    (name : string) (now : Q) (lib : PredatorSoundLibrary) :
  let out := play_predator_sound name now lib in
  (out.1.1 = true <-> name ∈ cache_keys (sound_cache lib))
  /\ (out.1.1 = false ->
      (out.1.2, out.2) = stop_predator_sound now lib
      /\ playback_thread out.1.2 = None
      /\ stop_playback_event out.1.2 = true).
Proof.
  intros out. subst out. unfold play_predator_sound.
  pose proof (stop_bookkeeping now lib) as (Hth & Hev & _ & Hcache & _).
  destruct (stop_predator_sound now lib) as [lib1 t1]. simpl in Hth, Hev, Hcache.
  rewrite <- cached_length_keys, <- Hcache.
  destruct (cached_length name (sound_cache lib1)) as [d|]; cbn [fst snd].
  - split; [split; [by eexists | reflexivity] | discriminate].
  - split; [split; [discriminate | by intros [? ?]]|].
    intros _. repeat split; assumption.
Qed.

(** X10: playing a sound silences the analysis, and stopping it lets the
    analysis run again.  After a successful [play_predator_sound] on an
    idle library at a time [now] the analyzer's status is active until
    9999 seconds later, and during that time [analyze_audio_with_ai]
    returns no alert and leaves the communication history alone, whatever
    is detected; after a [stop_predator_sound], at any time, the status is
    inactive. *)
Theorem analysis_suppressed_while_playing
    (name : string) (now d : Q) (lib : PredatorSoundLibrary)
    (status0 : predator_status) :
  communication_analyzer lib = Some status0 ->
  live_threads lib = [] ->
  cached_length name (sound_cache lib) = Some d ->
  0 <= d ->
  0 < now ->
  let out := play_predator_sound name now lib in
  out.1.1 = true
  /\ out.2 = now
  /\ exists status,
       communication_analyzer out.1.2 = Some status
       /\ (forall later features detections history,
             later < now + 9999 ->
             analyze_audio_with_ai status later features detections history
             = ([], history))
       /\ (forall t later,
             exists status',
               communication_analyzer (stop_predator_sound t out.1.2).1
               = Some status'
               /\ is_predator_sound_active status' later = false).
Proof.
  intros Han Hlive Hc Hd Hnow out.
  assert (Hstop : stop_predator_sound now lib
                  = ({| sound_cache := sound_cache lib;
                        communication_analyzer := Some predator_status_init;
                        playback_thread := None;
                        stop_playback_event := true;
                        live_threads := [];
                        threads_started := threads_started lib |}, now)).
  { unfold stop_predator_sound, alive_playback_thread, elapse.
    rewrite Hlive, Han.
    cbn [playback_thread stop_playback_event live_threads communication_analyzer
           sound_cache threads_started omap list_omap length].
    rewrite Nat.ltb_irrefl.
    destruct (playback_thread lib); cbn [mbind option_bind List.find];
      rewrite ?Nat.ltb_irrefl; reflexivity. }
  subst out. unfold play_predator_sound. rewrite Hstop.
  cbn [sound_cache]. rewrite Hc.
  rewrite (proj2 (gt_false 0 d) Hd).
  cbn [fst snd negb communication_analyzer fmap option_fmap option_map].
  split; [reflexivity|]. split; [reflexivity|].
  eexists. split; [reflexivity|]. split.
  - intros later features detections history Hlater.
    unfold analyze_audio_with_ai, is_predator_sound_active, update_predator_status.
    cbn [predator_play_start is_predator_playing predator_play_duration negb orb].
    assert (H0 : Qeq_bool now 0 = false).
    { destruct (Qeq_bool now 0) eqn:E; [|reflexivity].
      apply Qeq_bool_iff in E. lra. }
    rewrite H0.
    rewrite (proj2 (gt_true 9999 0)) by lra.
    rewrite (proj2 (gt_true 9999 (later - now))) by lra.
    reflexivity.
  - intros t later.
    match goal with
    | |- context [stop_predator_sound t ?l] =>
        pose proof (stop_bookkeeping t l) as (_ & _ & Hst & _)
    end.
    cbv zeta in Hst. rewrite Hst. simpl.
    eexists. split; [reflexivity | apply stopped_status_inactive].
Qed.

(** The hawk screech, three seconds long, played at time 100. *)
Lemma analysis_suppressed_while_playing_witness :
  let lib := library_init [("hawk_screech", 3)] (Some predator_status_init) in
  let out := play_predator_sound "hawk_screech" 100 lib in
  out.1.1 = true
  /\ out.2 = 100
  /\ exists status,
       communication_analyzer out.1.2 = Some status
       /\ (forall later features detections history,
             later < 100 + 9999 ->
             analyze_audio_with_ai status later features detections history
             = ([], history))
       /\ (forall t later,
             exists status',
               communication_analyzer (stop_predator_sound t out.1.2).1
               = Some status'
               /\ is_predator_sound_active status' later = false).
Proof.
  intros lib.
  apply (analysis_suppressed_while_playing "hawk_screech" 100 3 lib
           predator_status_init).
  - reflexivity.
  - reflexivity.
  - reflexivity.
  - lra.
  - lra.
Defined.

(** ** Threat level and recommendation *)

(** X11: the threat level of the decision engine follows the alert level
    of the analyzer, except for flocks.  For an alert whose level is the
    one the thresholds give to its risk score, converted to the engine's
    input, the threat level is the alert level, unless the pattern has
    the flock flag and the risk score is at most 0.6: then the threat
    level is HIGH although the alert level is LOW or MEDIUM. *)
Theorem threat_level_follows_alert_level (a : alert) :
  (al_alert_level a, al_recommended_action a)
  = alert_level_and_action (al_risk_score a) ->
  let bd := _convert_alert_to_bird_data a in
  ThreatLevel_value (_assess_threat_level bd)
  = if communication_flag bd "flock_communication"
       && negb (gt (al_risk_score a) 0.6)
    then "HIGH" else al_alert_level a.
Proof.
  intros H bd. subst bd.
  unfold _assess_threat_level, _convert_alert_to_bird_data.
  cbn [risk_score alert_level default from_option id].
  set (flock := communication_flag _ _).
  unfold alert_level_and_action in H. revert H.
  case_gt (al_risk_score a) 0.8; case_gt (al_risk_score a) 0.6;
    case_gt (al_risk_score a) 0.4;
    try (exfalso; lra);
    intros H; injection H as -> _; destruct flock; reflexivity.
Qed.

(** A crow in a flock at risk 0.5: the alert is MEDIUM and the threat
    HIGH. *)
Lemma threat_level_follows_alert_level_witness :
  let a :=
    {| al_species := {| scientific := Some "Corvus splendens";
                        common_name := Some "House Crow" |};
       al_confidence := 0.5;
       al_risk_score := 0.5;
       al_alert_level := "MEDIUM";
       al_recommended_action := "INCREASE_MONITORING";
       al_communication_analysis :=
         <["flock_communication" := PBool true]> default_patterns;
       al_behavioral_prediction :=
         predict_behavioral_intent
           (<["flock_communication" := PBool true]> default_patterns) [];
       al_detection_time := (0, 3);
       al_call_interpretation := ["Flock coordination - group movement"];
       al_threat_assessment := ["Flock coordination increases collision risk"];
       al_recommended_monitoring := ["Continue standard monitoring protocols"] |} in
  let bd := _convert_alert_to_bird_data a in
  ThreatLevel_value (_assess_threat_level bd)
  = if communication_flag bd "flock_communication"
       && negb (gt (al_risk_score a) 0.6)
    then "HIGH" else al_alert_level a.
Proof.
  intros a.
  apply (threat_level_follows_alert_level a).
  reflexivity.
Defined.

(** A flock is never assessed below HIGH. *)
Lemma flock_is_high_or_critical (bd : bird_data) :
  communication_flag bd "flock_communication" = true ->
  _assess_threat_level bd = HIGH \/ _assess_threat_level bd = CRITICAL.
Proof.
  intros Hf. unfold _assess_threat_level. rewrite Hf.
  destruct (_ || _); [by right|]. rewrite orb_true_r. by left.
Qed.

(** The action list of a generated recommendation, by threat level; at
    MEDIUM the delay that the template appends for a flock is never
    there. *)
Lemma generated_actions (history : list incident) (bd : bird_data) :
  exists recommendation,
    generate_next_action_recommendation history bd = Ok recommendation
    /\ risk_factors recommendation = _identify_complexity_factors bd
    /\ recommended_actions recommendation
       = strategy_templates (_assess_threat_level bd) bd
    /\ (_assess_threat_level bd = MEDIUM ->
        communication_flag bd "flock_communication" = false).
Proof.
  unfold generate_next_action_recommendation, _calculate_confidence_score.
  cbn [threat_level analyze_situation].
  rewrite (div_len _ _ (strategy_templates_nonempty _ bd)).
  cbn [mbind res_bind Py.bind mret res_ret].
  eexists. repeat split.
  intros Hm. destruct (communication_flag bd "flock_communication") eqn:Hf;
    [|reflexivity].
  destruct (flock_is_high_or_critical bd Hf); congruence.
Qed.

(** X12: every generated recommendation, for any detection and decision
    history, has two or three actions with priorities 1, 2, ... in
    order, and exactly one of them is a sound deterrent, which is flagged
    automated.  A DELAY action only occurs at threat level HIGH: the
    delay the MEDIUM template appends for a flock is never generated,
    because a flock is assessed as HIGH before MEDIUM is considered. *)
Theorem generated_recommendation_shape (history : list incident) (bd : bird_data) :
  exists recommendation,
    generate_next_action_recommendation history bd = Ok recommendation
    /\ let actions := recommended_actions recommendation in
       priority <$> actions = Z.of_nat <$> seq 1 (length actions)
       /\ (2 <= length actions <= 3)%nat
       /\ length (List.filter is_sound_deterrent actions) = 1%nat
       /\ Forall (fun a => is_sound_deterrent a = true -> automated a = true) actions
       /\ (forall a, a ∈ actions -> action_type a = DELAY ->
                     _assess_threat_level bd = HIGH)
       /\ (_assess_threat_level bd = MEDIUM -> length actions = 2%nat).
Proof.
  destruct (generated_actions history bd) as (r & Hr & _ & Hactions & Hmedium).
  exists r. split; [exact Hr|]. cbv zeta. rewrite Hactions.
  destruct (_assess_threat_level bd) eqn:Hlevel; cbn [strategy_templates].
  2: { unfold _generate_medium_threat_strategies.
       rewrite (Hmedium eq_refl). simpl.
       repeat split; try lia; try (repeat constructor; done).
       intros a Ha Hty.
       repeat (apply elem_of_cons in Ha as [->|Ha]; [discriminate Hty|]).
       by apply elem_of_nil in Ha. }
  all: simpl; repeat split; try lia; try (repeat constructor; done);
    try discriminate;
    intros a Ha Hty;
    repeat (apply elem_of_cons in Ha as [->|Ha];
            [first [discriminate Hty | reflexivity]|]);
    by apply elem_of_nil in Ha.
Qed.

Lemma len_nonneg {A} (xs : list A) : 0 <= len xs.
Proof.
  unfold len. change 0 with (inject_Z 0). rewrite <- Zle_Qle. lia.
Qed.

(** The average success probability of each template. *)
Lemma template_average (bd : bird_data) :
  exists avg,
    div (Py.sum (success_probability
                   <$> strategy_templates (_assess_threat_level bd) bd))
        (len (strategy_templates (_assess_threat_level bd) bd)) = Ok avg
    /\ 0.8 <= avg <= 0.88.
Proof.
  destruct (_assess_threat_level bd); cbn [strategy_templates].
  2: { unfold _generate_medium_threat_strategies.
       destruct (communication_flag bd "flock_communication");
         eexists; (split; [vm_compute; reflexivity|]);
         vm_compute; split; discriminate. }
  all: eexists; (split; [vm_compute; reflexivity|]);
    vm_compute; split; discriminate.
Qed.

(** The confidence score of a generated recommendation, without and with
    the bonus for more than five similar incidents. *)
Lemma generated_confidence (history : list incident) (bd : bird_data) :
  exists recommendation,
    generate_next_action_recommendation history bd = Ok recommendation
    /\ if (5 <? similar_incidents (_get_historical_context history bd))%nat
       then 0.55 <= confidence_score recommendation <= 0.89
       else 0.5 <= confidence_score recommendation <= 0.84.
Proof.
  unfold generate_next_action_recommendation, _calculate_confidence_score.
  cbn [threat_level analyze_situation complexity_factors historical].
  destruct (template_average bd) as (avg & Havg & Hlo & Hhi).
  rewrite Havg. cbn [mbind res_bind Py.bind mret res_ret].
  eexists. split; [reflexivity|]. cbn [confidence_score].
  pose proof (min_le_r (len (_identify_complexity_factors bd) * 0.1) 0.3) as Hr1.
  assert (Hr0 : 0 <= Py.min (len (_identify_complexity_factors bd) * 0.1) 0.3).
  { apply min_ge; [|lra].
    pose proof (len_nonneg (_identify_complexity_factors bd)). lra. }
  set (reduction := Py.min _ 0.3) in *. clearbody reduction.
  unfold Qdiv. change (/ 2) with (1 # 2).
  destruct (5 <? _)%nat;
    match goal with
    | |- context [Py.min 1.0 ?x] =>
        assert (Hx : exists y, y == x /\ y = x) by (exists x; split; reflexivity);
        destruct Hx as (y & Hx & <-)
    end;
    unfold Py.min; case_gt 1.0 y; unfold Py.max;
    match goal with
    | |- context [gt ?a ?b] => case_gt a b
    end; lra.
Qed.

(** X13: the confidence score of every generated recommendation is
    between 0.5 and 0.89, whatever the detection and the decision
    history: the clamp to [0, 1] never acts on a recommendation built
    from the templates. *)
Theorem generated_confidence_range (history : list incident) (bd : bird_data) :
  exists recommendation,
    generate_next_action_recommendation history bd = Ok recommendation
    /\ 0.5 <= confidence_score recommendation <= 0.89.
Proof.
  destruct (generated_confidence history bd) as (r & Hr & Hc).
  exists r. split; [exact Hr|].
  destruct (5 <? _)%nat; lra.
Qed.

Lemma templates_sound_automated (level : ThreatLevel) (bd : bird_data)
    (a : StrategicAction) :
  a ∈ strategy_templates level bd ->
  action_type a = SOUND_DETERRENT -> automated a = true.
Proof.
  intros Ha Hty. destruct level; cbn [strategy_templates] in Ha.
  2: { unfold _generate_medium_threat_strategies in Ha.
       destruct (communication_flag bd "flock_communication"); simpl in Ha;
         repeat (apply elem_of_cons in Ha as [->|Ha];
                 [first [reflexivity | discriminate Hty]|]);
         by apply elem_of_nil in Ha. }
  all: simpl in Ha;
    repeat (apply elem_of_cons in Ha as [->|Ha];
            [first [reflexivity | discriminate Hty]|]);
    by apply elem_of_nil in Ha.
Qed.

(** X14: [execute_manual_action] returns [True] exactly when there is a
    current recommendation, the index is within its action list and the
    action at the index is not flagged automated; no negative index is
    accepted.  Consequently the sound deterrent of a generated
    recommendation, which is always flagged automated, is refused: it
    can be executed neither by the automated loop nor through this
    call. *)
Theorem manual_action_only_for_manual_actions :
  (forall action_id panel,
      execute_manual_action action_id panel = true
      <-> exists recommendation a,
            current_recommendation panel = Some recommendation
            /\ (0 <= action_id)%Z
            /\ recommended_actions recommendation !! Z.to_nat action_id = Some a
            /\ automated a = false)
  /\ (forall history bd recommendation sys action_id a,
        generate_next_action_recommendation history bd = Ok recommendation ->
        recommended_actions recommendation !! Z.to_nat action_id = Some a ->
        action_type a = SOUND_DETERRENT ->
        execute_manual_action action_id
          {| strategic_system := sys;
             current_recommendation := Some recommendation |} = false).
Proof.
  assert (Hspec : forall action_id panel,
             execute_manual_action action_id panel = true
             <-> exists recommendation a,
                   current_recommendation panel = Some recommendation
                   /\ (0 <= action_id)%Z
                   /\ recommended_actions recommendation !! Z.to_nat action_id
                      = Some a
                   /\ automated a = false).
  { intros action_id panel. unfold execute_manual_action.
    destruct (current_recommendation panel) as [r|];
      [|split; [discriminate | by intros (? & ? & ? & _)]].
    destruct (0 <=? action_id)%Z eqn:E0; cbn [andb].
    - apply Z.leb_le in E0.
      destruct (action_id <? _)%Z eqn:E1.
      + destruct (recommended_actions r !! Z.to_nat action_id) as [a|] eqn:Ea.
        * rewrite negb_true_iff. split.
          -- intros Hm. exists r, a. auto.
          -- intros (r' & a' & Hr & _ & Ha' & Hm).
             injection Hr as <-. congruence.
        * split; [discriminate|].
          intros (r' & a' & Hr & _ & Ha' & _). injection Hr as <-. congruence.
      + apply Z.ltb_ge in E1. split; [discriminate|].
        intros (r' & a' & Hr & _ & Ha' & _). injection Hr as <-.
        apply lookup_lt_Some in Ha'. lia.
    - apply Z.leb_gt in E0. split; [discriminate|].
      intros (? & ? & _ & H0 & _). lia. }
  split; [exact Hspec|].
  intros history bd r sys action_id a Hgen Ha Hty.
  destruct (generated_actions history bd) as (r' & Hr' & _ & Hactions & _).
  rewrite Hgen in Hr'. injection Hr' as <-.
  assert (Hauto : automated a = true).
  { apply (templates_sound_automated (_assess_threat_level bd) bd);
      [|exact Hty].
    rewrite <- Hactions. by eapply list_elem_of_lookup_2. }
  destruct (execute_manual_action _ _) eqn:E; [|reflexivity].
  apply Hspec in E as (r' & a' & Hr' & _ & Ha' & Hm).
  simpl in Hr'. injection Hr' as <-. congruence.
Qed.

(** ** The histories of the response system *)

Lemma logged_executed (bd : bird_data) (now : Q) (actions : list StrategicAction) :
  logged (flat_map
            (fun a => dispatch a ++ [ActionLogged (make_log_entry a bd now)])
            actions)
  = (fun a => make_log_entry a bd now) <$> actions.
Proof.
  unfold logged. induction actions as [|a actions IH]; [reflexivity|].
  cbn [flat_map]. rewrite !omap_app, IH, fmap_cons. unfold dispatch.
  destruct (action_type a); reflexivity.
Qed.

Lemma execute_one_decisions (bd : bird_data) (now : Q)
    (st : StrategicResponseSystem * list effect) (action : StrategicAction) :
  decision_history (execute_one bd now st action).1 = decision_history st.1.
Proof.
  unfold execute_one.
  destruct (automated action); [|reflexivity].
  destruct (bool_decide _); reflexivity.
Qed.

Lemma execute_fold_decisions (bd : bird_data) (now : Q)
    (actions : list StrategicAction) (st : StrategicResponseSystem * list effect) :
  decision_history (fold_left (execute_one bd now) actions st).1
  = decision_history st.1.
Proof.
  revert st. induction actions as [|a actions IH]; intros st; simpl.
  - reflexivity.
  - rewrite IH. apply execute_one_decisions.
Qed.

(** One update of the panel: the log gains the entries of the effects and
    keeps its last 1000; the decision history is not written. *)
Lemma update_recommendation_histories (bd : bird_data) (now : Q)
    (panel : NextActionPanel) :
  (length (response_history (strategic_system panel)) <= 1000)%nat ->
  exists panel' effects,
    update_recommendation bd now panel = Ok (panel', effects)
    /\ response_history (strategic_system panel')
       = last_n 1000 (response_history (strategic_system panel) ++ logged effects)
    /\ decision_history (strategic_system panel')
       = decision_history (strategic_system panel).
Proof.
  intros Hlen. unfold update_recommendation.
  destruct (generate_returns (decision_history (strategic_system panel)) bd)
    as (r & Hr & _).
  rewrite Hr. cbn [mbind res_bind Py.bind].
  pose proof (execute_fold_history bd now (recommended_actions r)
                (strategic_system panel, []) Hlen) as Hh.
  pose proof (execute_fold_effects bd now (recommended_actions r)
                (strategic_system panel, [])) as He.
  pose proof (execute_fold_decisions bd now (recommended_actions r)
                (strategic_system panel, [])) as Hd.
  unfold execute_automated_response.
  destruct (fold_left _ _ _) as [sys effects].
  cbn [fst snd app] in *. cbn [mret res_ret].
  eexists _, _. split; [reflexivity|]. cbn [strategic_system].
  by rewrite Hh, He, logged_executed, Hd.
Qed.

(** X15: over any sequence of detections handled by the panel, starting
    with at most 1000 log entries, the response history after the run is
    the last 1000 entries of the old history followed by the entries
    logged during the run, in order; it never holds more than 1000
    entries, and the decision history, which the historical bonus of the
    confidence score reads, is never written. *)
Theorem response_history_keeps_last_1000 (detections : list (bird_data * Q))
    (panel : NextActionPanel) :
  (length (response_history (strategic_system panel)) <= 1000)%nat ->
  exists panel' effects,
    process_detections detections panel = Ok (panel', effects)
    /\ response_history (strategic_system panel')
       = last_n 1000 (response_history (strategic_system panel) ++ logged effects)
    /\ (length (response_history (strategic_system panel')) <= 1000)%nat
    /\ decision_history (strategic_system panel')
       = decision_history (strategic_system panel).
Proof.
  revert panel. induction detections as [|[bd now] rest IH]; intros panel Hlen.
  - exists panel, []. cbn [process_detections mret res_ret logged omap].
    rewrite app_nil_r, last_n_short by exact Hlen. auto.
  - cbn [process_detections].
    destruct (update_recommendation_histories bd now panel Hlen)
      as (p1 & e1 & H1 & Hh1 & Hd1).
    rewrite H1. cbn [mbind res_bind Py.bind].
    assert (Hlen1 : (length (response_history (strategic_system p1)) <= 1000)%nat)
      by (rewrite Hh1; apply last_n_length).
    destruct (IH p1 Hlen1) as (p2 & e2 & H2 & Hh2 & Hlen2 & Hd2).
    rewrite H2. cbn [mbind res_bind Py.bind mret res_ret].
    exists p2, (e1 ++ e2). split; [reflexivity|].
    split; [|split; [exact Hlen2 | congruence]].
    rewrite Hh2, Hh1. unfold logged. rewrite omap_app.
    by rewrite last_n_app_last_n, app_assoc.
Qed.

(** A log of 1000 entries, then a CRITICAL and a LOW detection: the
    emergency stop and the monitoring are executed and logged, the skipped
    sound deterrents are not, and the two oldest entries are dropped. *)
Lemma response_history_keeps_last_1000_witness :
  let old_entry :=
    {| log_timestamp := 0; log_action := "DELAY";
       log_species := "Corvus splendens"; log_threat_level := "HIGH";
       log_success_probability := 0.9; log_automated := true |} in
  let critical :=
    {| species := Some {| scientific := Some "Corvus splendens";
                          common_name := Some "House Crow" |};
       alert_level := Some "CRITICAL"; risk_score := Some 0.9;
       communication_analysis := None; behavioral_prediction := None |} in
  let low :=
    {| species := Some {| scientific := Some "Passer domesticus";
                          common_name := Some "House Sparrow" |};
       alert_level := Some "LOW"; risk_score := Some 0.1;
       communication_analysis := None; behavioral_prediction := None |} in
  let panel :=
    {| strategic_system :=
         {| decision_history := [];
            predator_sounds := library_init [] None;
            response_history := replicate 1000 old_entry |};
       current_recommendation := None |} in
  (exists panel' effects,
      process_detections [(critical, 1); (low, 2)] panel = Ok (panel', effects)
      /\ response_history (strategic_system panel')
         = last_n 1000 (replicate 1000 old_entry ++ logged effects)
      /\ (length (response_history (strategic_system panel')) <= 1000)%nat
      /\ decision_history (strategic_system panel') = [])
  /\ match process_detections [(critical, 1); (low, 2)] panel with
     | Ok (panel', effects) =>
         effect_kind <$> effects
         = ["EMERGENCY_STOP"; "EMERGENCY_STOP"; "MONITOR"; "MONITOR"]
         /\ log_action <$> logged effects = ["EMERGENCY_STOP"; "MONITOR"]
         /\ length (response_history (strategic_system panel')) = 1000%nat
         /\ log_action <$> take 2 (response_history (strategic_system panel'))
            = ["DELAY"; "DELAY"]
         /\ log_action <$> last_n 2 (response_history (strategic_system panel'))
            = ["EMERGENCY_STOP"; "MONITOR"]
     | Raise _ => False
     end.
Proof.
  intros old_entry critical low panel. split.
  - apply (response_history_keeps_last_1000 [(critical, 1); (low, 2)] panel).
    cbn [panel strategic_system response_history].
    rewrite length_replicate. lia.
  - vm_compute. repeat split.
Defined.

(** X16: a system whose decision history is empty, as the constructor
    leaves it, never applies the bonus for similar incidents: after any
    sequence of detections handled by the panel the decision history is
    still empty, and the recommendation then generated for any detection
    has a confidence score between 0.5 and 0.84. *)
Theorem history_bonus_unreachable_from_empty_history
    (detections : list (bird_data * Q)) (panel : NextActionPanel) :
  decision_history (strategic_system panel) = [] ->
  (length (response_history (strategic_system panel)) <= 1000)%nat ->
  exists panel' effects,
    process_detections detections panel = Ok (panel', effects)
    /\ decision_history (strategic_system panel') = []
    /\ forall bd, exists recommendation,
         generate_next_action_recommendation
           (decision_history (strategic_system panel')) bd = Ok recommendation
         /\ 0.5 <= confidence_score recommendation <= 0.84.
Proof.
  intros Hempty Hlen. revert panel Hempty Hlen.
  induction detections as [|[bd now] rest IH]; intros panel Hempty Hlen.
  - exists panel, []. split; [reflexivity|]. split; [exact Hempty|].
    intros bd. rewrite Hempty.
    destruct (generated_confidence [] bd) as (r & Hr & Hc).
    exists r. split; [exact Hr|exact Hc].
  - cbn [process_detections].
    destruct (update_recommendation_histories bd now panel Hlen)
      as (p1 & e1 & H1 & Hh1 & Hd1).
    rewrite H1. cbn [mbind res_bind Py.bind].
    assert (Hlen1 : (length (response_history (strategic_system p1)) <= 1000)%nat)
      by (rewrite Hh1; apply last_n_length).
    destruct (IH p1 (eq_trans Hd1 Hempty) Hlen1) as (p2 & e2 & H2 & Hd2 & Hc2).
    rewrite H2. cbn [mbind res_bind Py.bind mret res_ret].
    exists p2, (e1 ++ e2). auto.
Qed.

Lemma history_bonus_unreachable_from_empty_history_witness :
  exists panel' effects,
    process_detections
      [({| species := None; alert_level := Some "CRITICAL"; risk_score := None;
           communication_analysis := None; behavioral_prediction := None |}, 0)]
      {| strategic_system :=
           {| decision_history := [];
              predator_sounds := library_init [] None;
              response_history := [] |};
         current_recommendation := None |} = Ok (panel', effects)
    /\ decision_history (strategic_system panel') = []
    /\ forall bd, exists recommendation,
         generate_next_action_recommendation
           (decision_history (strategic_system panel')) bd = Ok recommendation
         /\ 0.5 <= confidence_score recommendation <= 0.84.
Proof.
  apply (history_bonus_unreachable_from_empty_history
           [({| species := None; alert_level := Some "CRITICAL"; risk_score := None;
                communication_analysis := None; behavioral_prediction := None |}, 0)]
           {| strategic_system :=
                {| decision_history := [];
                   predator_sounds := library_init [] None;
                   response_history := [] |};
              current_recommendation := None |}).
  - reflexivity.
  - simpl. lia.
Defined.

(** ** Success metrics and urgency *)

Lemma sum_nonneg (xs : list Q) :
  Forall (fun x => 0 <= x) xs -> 0 <= Py.sum xs.
Proof.
  induction 1 as [|x xs Hx _ IH].
  - unfold Py.sum. simpl. lra.
  - rewrite sum_cons. lra.
Qed.

Lemma count_automated_le (strategies : list StrategicAction) :
  0 <= inject_Z (Z.of_nat (count_automated strategies)) <= len strategies.
Proof.
  unfold count_automated, len. split.
  - change 0 with (inject_Z 0). rewrite <- Zle_Qle. lia.
  - rewrite <- Zle_Qle. apply Nat2Z.inj_le, List.filter_length_le.
Qed.

(** X17: [_calculate_success_metrics] raises ZeroDivisionError on an empty
    list of strategies; on a non-empty list it returns metrics whose
    automation coverage lies in [0, 1], whose resource efficiency is at
    most 1 and whose time efficiency is at least 0, and at most 1 when no
    estimated duration is negative. *)
Theorem success_metrics_ranges :
  _calculate_success_metrics [] = Raise ZeroDivisionError
  /\ forall strategies, strategies <> [] ->
       exists m,
         _calculate_success_metrics strategies = Ok m
         /\ 0 <= automation_coverage m <= 1
         /\ resource_efficiency m <= 1
         /\ 0 <= time_efficiency m
         /\ (Forall (fun s => (0 <= estimated_duration s)%Z) strategies ->
             time_efficiency m <= 1).
Proof.
  split; [reflexivity|].
  intros strategies Hne. unfold _calculate_success_metrics.
  pose proof (len_pos strategies Hne) as Hlen.
  rewrite !(div_len _ _ Hne). cbn [mbind res_bind Py.bind].
  unfold div at 1.
  destruct (Qeq_bool (len strategies * 10) 0) eqn:E;
    [apply Qeq_bool_iff in E; lra|].
  cbn [mret res_ret]. eexists. split; [reflexivity|].
  cbn [automation_coverage resource_efficiency time_efficiency].
  pose proof (count_automated_le strategies) as [Hc0 Hc1].
  assert (Hres : 0 <= Py.sum ((fun s => len (resources_required s)) <$> strategies)).
  { apply sum_nonneg, Forall_fmap, Forall_true. intros s. apply len_nonneg. }
  repeat split.
  - apply Qle_shift_div_l; [exact Hlen | lra].
  - apply Qle_shift_div_r; [exact Hlen | lra].
  - assert (0 <= Py.sum ((fun s => len (resources_required s)) <$> strategies)
                 / (len strategies * 10))
      by (apply Qle_shift_div_l; lra).
    lra.
  - unfold Py.max.
    match goal with |- context [gt ?a ?b] => case_gt a b end; lra.
  - intros Hdur.
    assert (Hs : 0 <= Py.sum ((fun s => inject_Z (estimated_duration s))
                               <$> strategies)).
    { apply sum_nonneg, Forall_fmap. eapply Forall_impl; [exact Hdur|].
      intros s Hs. cbn. change 0 with (inject_Z 0). by rewrite <- Zle_Qle. }
    assert (0 <= Py.sum ((fun s => inject_Z (estimated_duration s)) <$> strategies)
                 / 60)
      by (apply Qle_shift_div_l; lra).
    unfold Py.max.
    match goal with |- context [gt ?a ?b] => case_gt a b end; lra.
Qed.

Lemma urgency_of (urgency : string) (bd : bird_data) :
  _calculate_urgency_score (with_urgency urgency bd)
  = let base_score := default 0 (risk_score bd) in
    let base_score :=
      if String.eqb urgency "high" then base_score + 0.2
      else if String.eqb urgency "medium" then base_score + 0.1
      else base_score in
    let base_score :=
      if communication_flag bd "flock_communication" then base_score + 0.15
      else base_score in
    let base_score :=
      if communication_flag bd "territorial_behavior" then base_score + 0.1
      else base_score in
    Py.min base_score 1.0.
Proof.
  unfold _calculate_urgency_score, communication_flag, with_urgency, get.
  cbn [risk_score communication_analysis default from_option id].
  rewrite lookup_insert_eq, !lookup_insert_ne by done.
  reflexivity.
Qed.

(** X18: the urgency score is at most 1, and the urgency level
    [critical], which the communication classifier assigns to rapid
    alarm calls, adds nothing to it: with the rest of the detection
    unchanged, the score for [critical] equals the score for [low] and
    is at most the score for [medium], which is at most the score for
    [high]. *)
Theorem critical_urgency_adds_nothing (bd : bird_data) :
  _calculate_urgency_score bd <= 1
  /\ _calculate_urgency_score (with_urgency "critical" bd)
     == _calculate_urgency_score (with_urgency "low" bd)
  /\ _calculate_urgency_score (with_urgency "critical" bd)
     <= _calculate_urgency_score (with_urgency "medium" bd)
  /\ _calculate_urgency_score (with_urgency "medium" bd)
     <= _calculate_urgency_score (with_urgency "high" bd).
Proof.
  split.
  - unfold _calculate_urgency_score. cbv zeta.
    pose proof (min_le_r
      (let b := default 0 (risk_score bd) in
       let b :=
         if eq_str (get (default ∅ (communication_analysis bd)) "urgency_level"
                      (PStr "low")) "high" then b + 0.2
         else if eq_str (get (default ∅ (communication_analysis bd))
                           "urgency_level" (PStr "low")) "medium" then b + 0.1
         else b in
       let b := if communication_flag bd "flock_communication"
                then b + 0.15 else b in
       if communication_flag bd "territorial_behavior" then b + 0.1 else b)
      1.0) as H.
    cbv zeta in H. lra.
  - rewrite !urgency_of. cbv zeta.
    change (String.eqb "critical" "high") with false.
    change (String.eqb "critical" "medium") with false.
    change (String.eqb "low" "high") with false.
    change (String.eqb "low" "medium") with false.
    change (String.eqb "medium" "high") with false.
    change (String.eqb "medium" "medium") with true.
    change (String.eqb "high" "high") with true.
    cbv iota.
    generalize (default 0 (risk_score bd)); intros r.
    destruct (communication_flag bd "flock_communication"),
             (communication_flag bd "territorial_behavior");
      unfold Py.min;
      repeat match goal with
             | |- context [gt ?a ?b] => case_gt a b
             end; repeat split; lra.
Qed.

(** ** Stored audio segments *)

Lemma find_app_skip {A} (f : A -> bool) (xs ys : list A) :
  Forall (fun x => f x = false) xs -> List.find f (xs ++ ys) = List.find f ys.
Proof.
  induction 1 as [|x xs Hx _ IH]; [reflexivity|]. simpl. by rewrite Hx.
Qed.

Lemma find_app_found {A} (f : A -> bool) (xs ys : list A) (a : A) :
  List.find f xs = Some a -> List.find f (xs ++ ys) = Some a.
Proof.
  induction xs as [|x xs IH]; [discriminate|]. simpl.
  destruct (f x); [done | exact IH].
Qed.

Lemma find_filter_other (id id' : string) (segs : list segment) :
  id' <> id ->
  List.find (fun seg => String.eqb (segment_id seg) id')
    (List.filter (fun s => negb (String.eqb (segment_id s) id)) segs)
  = List.find (fun seg => String.eqb (segment_id seg) id') segs.
Proof.
  intros Hne. induction segs as [|s segs IH]; [reflexivity|]. simpl.
  destruct (String.eqb (segment_id s) id) eqn:E; simpl.
  - apply String.eqb_eq in E.
    destruct (String.eqb (segment_id s) id') eqn:E'; [|exact IH].
    apply String.eqb_eq in E'. congruence.
  - by rewrite IH.
Qed.

Lemma find_filter_same (id : string) (segs : list segment) :
  List.find (fun seg => String.eqb (segment_id seg) id)
    (List.filter (fun s => negb (String.eqb (segment_id s) id)) segs) = None.
Proof.
  induction segs as [|s segs IH]; [reflexivity|]. simpl.
  destruct (String.eqb (segment_id s) id) eqn:E; simpl; [exact IH|].
  by rewrite E.
Qed.

Lemma NoDup_fmap_inj_on {A B} (f : A -> B) (xs : list A) (x y : A) :
  NoDup (f <$> xs) -> x ∈ xs -> y ∈ xs -> f x = f y -> x = y.
Proof.
  induction xs as [|a xs IH]; intros Hnd Hx Hy Hf.
  - by apply elem_of_nil in Hx.
  - rewrite fmap_cons in Hnd. apply NoDup_cons in Hnd as [Ha Hnd].
    apply elem_of_cons in Hx as [->|Hx]; apply elem_of_cons in Hy as [->|Hy].
    + reflexivity.
    + destruct Ha. rewrite Hf. by apply list_elem_of_fmap_2.
    + destruct Ha. rewrite <- Hf. by apply list_elem_of_fmap_2.
    + by apply IH.
Qed.

(** The guarded removal raises exactly on a non-empty path that exists
    and is protected. *)
Lemma remove_file_none (prot : gset string) (seg : segment) (fs : gset string) :
  remove_file prot (file_path seg) fs = None <-> removal_raises prot fs seg.
Proof.
  unfold remove_file, os_remove, removal_raises.
  destruct (file_path seg) as [p|];
    [|split; [discriminate | by intros (q & Hq & _)]].
  destruct (String.eqb p "") eqn:E.
  - apply String.eqb_eq in E.
    split; [discriminate|]. intros (q & [= <-] & Hne & _). done.
  - apply String.eqb_neq in E.
    destruct (decide (p ∈ fs)) as [Hfs|Hfs];
      [rewrite (bool_decide_eq_true_2 _ Hfs)
      |rewrite (bool_decide_eq_false_2 _ Hfs)].
    + destruct (decide (p ∈ prot)) as [Hp|Hp];
        [rewrite (bool_decide_eq_true_2 _ Hp)
        |rewrite (bool_decide_eq_false_2 _ Hp)].
      * split; [|done]. intros _. exists p. auto.
      * split; [discriminate|]. intros (q & [= <-] & _ & _ & Hq). done.
    + split; [discriminate|]. intros (q & [= <-] & _ & Hq & _). done.
Qed.

(** When it does not raise, it leaves the other files alone. *)
Lemma remove_file_some (prot : gset string) (path : option string)
    (fs fs' : gset string) (q : string) :
  remove_file prot path fs = Some fs' ->
  q ∈ fs' <-> q ∈ fs /\ (path = Some q -> q = "").
Proof.
  unfold remove_file, os_remove. destruct path as [p|].
  - destruct (String.eqb p "") eqn:E.
    + apply String.eqb_eq in E. intros [= <-].
      split; [|by intros [H _]]. intros H. split; [exact H|]. congruence.
    + apply String.eqb_neq in E.
      destruct (decide (p ∈ fs)) as [Hfs|Hfs];
        [rewrite (bool_decide_eq_true_2 _ Hfs)
        |rewrite (bool_decide_eq_false_2 _ Hfs)].
      * destruct (bool_decide (p ∈ prot)); [discriminate|]. intros [= <-].
        rewrite elem_of_difference, elem_of_singleton. split.
        -- intros [H1 H2]. split; [exact H1|]. intros [= ->]. done.
        -- intros [H1 H2]. split; [exact H1|]. intros ->. apply E. by apply H2.
      * intros [= <-]. split; [|by intros [H _]].
        intros H. split; [exact H|]. intros [= ->]. done.
  - intros [= <-]. split; [|by intros [H _]]. intros H. split; [exact H|]. discriminate.
Qed.

(** The removal loop runs to its end exactly when no removal raises. *)
Lemma remove_files_completes (prot : gset string) (segs : list segment)
    (fs : gset string) :
  (remove_files prot segs fs).2 = true
  <-> Forall (fun seg => ~ removal_raises prot fs seg) segs.
Proof.
  revert fs. induction segs as [|s segs IH]; intros fs; cbn [remove_files].
  - split; [constructor | reflexivity].
  - rewrite Forall_cons.
    destruct (remove_file prot (file_path s) fs) as [fs'|] eqn:E.
    + assert (Hs : ~ removal_raises prot fs s).
      { intros H. apply remove_file_none in H. congruence. }
      assert (Heq : forall seg,
                 removal_raises prot fs' seg <-> removal_raises prot fs seg).
      { intros seg. unfold removal_raises.
        split; intros (p & Hp & Hne & Hin & Hprot); exists p;
          repeat split; try assumption.
        - by apply (remove_file_some _ _ _ _ p E) in Hin as [Hin _].
        - apply (remove_file_some _ _ _ _ p E). split; [exact Hin|].
          intros Hpath. destruct Hs. exists p. auto. }
      rewrite IH. split.
      * intros H. split; [exact Hs|]. eapply Forall_impl; [exact H|].
        intros seg Hn Hr. by apply Hn, Heq.
      * intros [_ H]. eapply Forall_impl; [exact H|].
        intros seg Hn Hr. by apply Hn, Heq.
    + cbn [snd]. split; [discriminate|]. intros [H _]. destruct H.
      by apply remove_file_none.
Qed.

(** After a loop that ran to its end, a file is left when it was there
    and no removed segment names it. *)
Lemma remove_files_elem (prot : gset string) (segs : list segment)
    (fs : gset string) (q : string) :
  (remove_files prot segs fs).2 = true ->
  q ∈ (remove_files prot segs fs).1
  <-> q ∈ fs /\ Forall (fun seg => file_path seg = Some q -> q = "") segs.
Proof.
  revert fs. induction segs as [|s segs IH]; intros fs; cbn [remove_files].
  - intros _. cbn [fst].
    split; [intros H; split; [exact H | constructor] | by intros [H _]].
  - destruct (remove_file prot (file_path s) fs) as [fs'|] eqn:E; [|discriminate].
    intros Hc. rewrite (IH _ Hc), Forall_cons, (remove_file_some _ _ _ _ q E).
    tauto.
Qed.

(** [save_audio_segment] in one step: the new segment is appended, the
    files of the segments to drop are removed in order, and the list is
    cut to its last 100 entries when the removal loop ran to its end. *)
Lemma save_unfold (id path : string) (st : storage) :
  let removal :=
    remove_files (protected st) (dropped_by_save (stored_segments st))
      (files st ∪ {[path]}) in
  save_audio_segment id path st
  = {| stored_segments :=
         (if removal.2 then last_n 99 (stored_segments st)
          else stored_segments st)
         ++ [{| segment_id := id; file_path := Some path |}];
       files := removal.1;
       protected := protected st |}.
Proof.
  cbv zeta.
  unfold save_audio_segment, cleanup_old_segments, dropped_by_save, last_n.
  cbn [stored_segments files protected]. rewrite length_app. cbn [length].
  unfold MAX_STORED_SEGMENTS.
  destruct (_ <? _)%nat eqn:E.
  - apply Nat.ltb_lt in E. rewrite take_app_le by lia.
    destruct (remove_files _ _ _) as [fs completed]. cbn [fst snd].
    destruct completed; [|reflexivity].
    rewrite drop_app_le by lia.
    by replace (length (stored_segments st) + 1 - 100)%nat
      with (length (stored_segments st) - 99)%nat by lia.
  - apply Nat.ltb_ge in E.
    replace (length (stored_segments st) + 1 - 100)%nat with 0%nat by lia.
    replace (length (stored_segments st) - 99)%nat with 0%nat by lia.
    reflexivity.
Qed.

(** The numbered storages are consistent. *)
Lemma numbered_storage_files_present (n : nat) :
  NoDup (file_path <$> stored_segments (numbered_storage n)) ->
  files_present (numbered_storage n).
Proof.
  intros Hnd. split; [exact Hnd|].
  unfold numbered_storage. cbn [stored_segments files].
  apply Forall_fmap, Forall_forall. intros k Hk.
  exists (numbered_path k). split; [reflexivity|]. split; [discriminate|].
  apply elem_of_list_to_set. by apply list_elem_of_fmap_2.
Qed.

(** X19: [save_audio_segment] (when the file is written) appends the new
    segment and cuts the list to its last 100 entries exactly when no
    [os.remove] of a dropped segment's file raises.  When none raises the
    stored list is the last 99 of the old segments followed by the new
    one; when one raises the list is not cut: it is the whole old list
    followed by the new segment and holds more than 100 entries.  In
    both cases the new segment is last, a lookup of the new id finds a
    segment with that id, and it finds the new segment when no stored
    segment had the id before. *)
Theorem save_keeps_last_100_unless_removal_raises
    (id path : string) (st : storage) :
  let new := {| segment_id := id; file_path := Some path |} in
  let st' := save_audio_segment id path st in
  let disk := files st ∪ {[path]} in
  let dropped := dropped_by_save (stored_segments st) in
  (Forall (fun seg => ~ removal_raises (protected st) disk seg) dropped ->
   stored_segments st' = last_n 99 (stored_segments st) ++ [new]
   /\ (length (stored_segments st') <= 100)%nat)
  /\ (Exists (removal_raises (protected st) disk) dropped ->
      stored_segments st' = stored_segments st ++ [new]
      /\ (100 < length (stored_segments st'))%nat)
  /\ last (stored_segments st') = Some new
  /\ (exists seg, get_audio_segment_info id st' = Some seg /\ segment_id seg = id)
  /\ (Forall (fun seg => segment_id seg <> id) (stored_segments st) ->
      get_audio_segment_info id st' = Some new).
Proof.
  cbv zeta. rewrite save_unfold. cbv zeta. cbn [stored_segments].
  pose proof (remove_files_completes (protected st)
                (dropped_by_save (stored_segments st)) (files st ∪ {[path]}))
    as Hcompletes.
  set (f := fun seg => String.eqb (segment_id seg) id).
  assert (Hnew : List.find f [{| segment_id := id; file_path := Some path |}]
                 = Some {| segment_id := id; file_path := Some path |}).
  { unfold f. simpl. by rewrite String.eqb_refl. }
  assert (Hkept : exists j kept,
             kept = drop j (stored_segments st)
             /\ (if (remove_files (protected st)
                       (dropped_by_save (stored_segments st))
                       (files st ∪ {[path]})).2
                 then last_n 99 (stored_segments st)
                 else stored_segments st) = kept).
  { destruct (remove_files _ _ _).2; eexists _, _; split; try reflexivity.
    instantiate (1 := 0%nat). reflexivity. }
  destruct Hkept as (j & kept & Hdrop & Hkept).
  split; [|split; [|rewrite Hkept; split; [|split]]].
  - intros Hall. apply Hcompletes in Hall. rewrite Hall. split; [reflexivity|].
    rewrite length_app. unfold last_n. rewrite length_drop. simpl. lia.
  - intros Hex.
    destruct (remove_files _ _ _).2 eqn:E.
    + pose proof (proj1 Hcompletes eq_refl) as Hall.
      apply Exists_exists in Hex as (seg & Hin & Hr).
      rewrite Forall_forall in Hall. by destruct (Hall seg Hin).
    + split; [reflexivity|]. rewrite length_app. simpl.
      apply Exists_exists in Hex as (seg & Hin & _).
      unfold dropped_by_save, MAX_STORED_SEGMENTS in Hin.
      destruct (decide (length (stored_segments st) + 1 - 100 = 0)%nat) as [Hz|Hz].
      * rewrite Hz in Hin. by apply elem_of_nil in Hin.
      * lia.
  - apply last_snoc.
  - unfold get_audio_segment_info. cbn [stored_segments]. fold f.
    destruct (List.find f kept) as [seg|] eqn:E.
    + exists seg. split; [by apply find_app_found|].
      apply find_some in E as [_ E]. by apply String.eqb_eq in E.
    + eexists. rewrite find_app_skip, Hnew; [done|].
      apply Forall_forall. intros x Hx.
      apply (find_none _ _ E). by apply list_elem_of_In.
  - intros Hfresh. unfold get_audio_segment_info. cbn [stored_segments]. fold f.
    rewrite find_app_skip; [exact Hnew|].
    rewrite Hdrop. apply Forall_drop. eapply Forall_impl; [exact Hfresh|].
    intros seg Hseg. unfold f. by apply String.eqb_neq.
Qed.

(** A full storage whose oldest file cannot be removed: the save leaves
    101 segments in the list. *)
Example save_with_protected_file_keeps_101 :
  let st := {| stored_segments := stored_segments (numbered_storage 100);
               files := files (numbered_storage 100);
               protected := {[numbered_path 1]} |} in
  length (stored_segments (save_audio_segment "1a2b3c4d" "new.wav" st)) = 101%nat
  /\ length (stored_segments
               (save_audio_segment "1a2b3c4d" "new.wav" (numbered_storage 100)))
     = 100%nat.
Proof. split; vm_compute; reflexivity. Qed.

(** X20: [save_audio_segment] keeps the storage consistent when the new
    file has a non-empty name that no stored segment uses and no
    [os.remove] of a dropped segment's file raises: afterwards the stored
    segments still name pairwise different files that all exist, and the
    file of every segment that was dropped from the list has been
    removed. *)
Theorem save_keeps_files_present (id path : string) (st : storage) :
  files_present st ->
  path <> "" ->
  Some path ∉ file_path <$> stored_segments st ->
  Forall (fun seg => ~ removal_raises (protected st) (files st ∪ {[path]}) seg)
    (dropped_by_save (stored_segments st)) ->
  files_present (save_audio_segment id path st)
  /\ stored_segments (save_audio_segment id path st)
     = last_n 99 (stored_segments st)
       ++ [{| segment_id := id; file_path := Some path |}]
  /\ forall seg p,
       seg ∈ stored_segments st ->
       seg ∉ stored_segments (save_audio_segment id path st) ->
       file_path seg = Some p ->
       p ∉ files (save_audio_segment id path st).
Proof.
  intros [Hnd Hfiles] Hpath Hfresh Hall. rewrite save_unfold. cbv zeta.
  pose proof (proj2 (remove_files_completes _ _ _) Hall) as Hc.
  rewrite Hc. cbn [stored_segments files].
  pose proof (fun q => remove_files_elem (protected st)
                (dropped_by_save (stored_segments st)) (files st ∪ {[path]}) q Hc)
    as Helem.
  unfold dropped_by_save, last_n, MAX_STORED_SEGMENTS in *.
  replace (length (stored_segments st) - 99)%nat
    with (length (stored_segments st) + 1 - 100)%nat by lia.
  set (k := (length (stored_segments st) + 1 - 100)%nat) in *.
  pose proof (take_drop k (stored_segments st)) as Hsplit.
  assert (Hnd' : NoDup (file_path <$> take k (stored_segments st)
                        ++ drop k (stored_segments st)))
    by (by rewrite Hsplit).
  rewrite fmap_app in Hnd'. apply NoDup_app in Hnd' as (_ & Hdisj & Hnd_kept).
  assert (Hevicted : forall seg p,
             seg ∈ take k (stored_segments st) -> file_path seg = Some p ->
             p <> "" /\ Some p ∉ file_path <$> drop k (stored_segments st)).
  { intros seg p Hseg Hp. split.
    - assert (Hin : seg ∈ stored_segments st)
        by (rewrite <- Hsplit; apply elem_of_app; by left).
      rewrite Forall_forall in Hfiles.
      destruct (Hfiles seg Hin) as (q & Hq & Hne & _). congruence.
    - apply Hdisj. rewrite <- Hp. by apply list_elem_of_fmap_2. }
  split; [split|split; [reflexivity|]]; cbn [stored_segments files].
  - rewrite fmap_app. apply NoDup_app. repeat split.
    + exact Hnd_kept.
    + intros x Hx Hx'. simpl in Hx'. apply list_elem_of_singleton in Hx'. subst x.
      apply Hfresh. rewrite <- Hsplit, fmap_app. apply elem_of_app. by right.
    + simpl. apply NoDup_singleton.
  - apply Forall_app. split.
    + apply Forall_forall. intros seg Hseg.
      assert (Hin : seg ∈ stored_segments st)
        by (rewrite <- Hsplit; apply elem_of_app; by right).
      rewrite Forall_forall in Hfiles.
      destruct (Hfiles seg Hin) as (q & Hq & Hne & Hq').
      exists q. repeat split; try assumption.
      apply Helem. split; [by apply elem_of_union_l|].
      apply Forall_forall. intros seg' Hseg' Hq''.
      destruct (Hevicted seg' q Hseg' Hq'') as [_ Hout].
      destruct Hout. rewrite <- Hq. by apply list_elem_of_fmap_2.
    + apply Forall_singleton. exists path. repeat split; try assumption.
      apply Helem. split; [apply elem_of_union_r; by apply elem_of_singleton|].
      apply Forall_forall. intros seg' Hseg' Hq''.
      destruct Hfresh. rewrite <- Hq'', <- Hsplit, fmap_app.
      apply elem_of_app. left. by apply list_elem_of_fmap_2.
  - intros seg p Hin Hout Hp Hp'.
    assert (Hseg : seg ∈ take k (stored_segments st)).
    { rewrite <- Hsplit in Hin. apply elem_of_app in Hin as [Hin|Hin]; [exact Hin|].
      destruct Hout. apply elem_of_app. by left. }
    apply Helem in Hp' as [_ Hallp].
    rewrite Forall_forall in Hallp.
    destruct (Hevicted seg p Hseg Hp) as [Hne _]. by apply Hne, (Hallp seg).
Qed.

(** A full storage of 100 numbered segments: the save drops the first
    segment and removes its file, and keeps the other 99 with theirs. *)
Lemma save_keeps_files_present_witness :
  let st' := save_audio_segment "1a2b3c4d" "new.wav" (numbered_storage 100) in
  (files_present st'
   /\ stored_segments st'
      = last_n 99 (stored_segments (numbered_storage 100))
        ++ [{| segment_id := "1a2b3c4d"; file_path := Some "new.wav" |}]
   /\ forall seg p,
        seg ∈ stored_segments (numbered_storage 100) ->
        seg ∉ stored_segments st' ->
        file_path seg = Some p ->
        p ∉ files st')
  /\ (length (stored_segments st') = 100%nat
      /\ head (stored_segments st') = Some (numbered_segment 2)
      /\ bool_decide (numbered_path 1 ∈ files st') = false
      /\ bool_decide (numbered_path 2 ∈ files st') = true
      /\ bool_decide ("new.wav" ∈ files st') = true).
Proof.
  intros st'. split.
  - apply (save_keeps_files_present "1a2b3c4d" "new.wav" (numbered_storage 100)).
    + apply numbered_storage_files_present.
      apply (bool_decide_unpack _). vm_compute. reflexivity.
    + discriminate.
    + apply (bool_decide_unpack _). vm_compute. reflexivity.
    + apply Forall_forall. intros seg _ (p & _ & _ & _ & Hp).
      by apply elem_of_empty in Hp.
  - vm_compute. repeat split.
Defined.

(** X21: [delete_audio_segment] returns [True] exactly when a segment
    with the id is stored, the first such segment has a file path, and
    the removal of its file, if the file exists, does not raise.  When it
    returns [False] the storage is unchanged; when it returns [True] no
    segment with the id is stored any more and the lookup of every other
    id gives what it gave before. *)
Theorem delete_removes_every_segment_of_id (id : string) (st : storage) :
  let r := delete_audio_segment id st in
  (r.1 = true <-> exists seg p, get_audio_segment_info id st = Some seg
                                /\ file_path seg = Some p
                                /\ ~ (p ∈ files st /\ p ∈ protected st))
  /\ (r.1 = false -> r.2 = st)
  /\ (r.1 = true ->
      get_audio_segment_info id r.2 = None
      /\ Forall (fun seg => segment_id seg <> id) (stored_segments r.2)
      /\ forall id', id' <> id ->
           get_audio_segment_info id' r.2 = get_audio_segment_info id' st).
Proof.
  cbv zeta. unfold delete_audio_segment, os_remove.
  destruct (get_audio_segment_info id st) as [seg|] eqn:Hget;
    [|cbn [fst snd]; repeat split; try done;
      intros (seg' & p & Hseg' & _); discriminate].
  destruct (file_path seg) as [p|] eqn:Hp;
    [|cbn [fst snd]; repeat split; try done;
      intros (seg' & p & [= <-] & Hp' & _); congruence].
  assert (Hok : forall fs,
             let st' := {| stored_segments :=
                             List.filter
                               (fun s => negb (String.eqb (segment_id s) id))
                               (stored_segments st);
                           files := fs;
                           protected := protected st |} in
             get_audio_segment_info id st' = None
             /\ Forall (fun seg => segment_id seg <> id) (stored_segments st')
             /\ forall id', id' <> id ->
                  get_audio_segment_info id' st' = get_audio_segment_info id' st).
  { intros fs. cbv zeta. repeat split.
    - apply find_filter_same.
    - cbn [stored_segments]. apply Forall_forall. intros s Hs.
      apply list_elem_of_In, filter_In in Hs as [_ Hs].
      apply negb_true_iff in Hs. by apply String.eqb_neq.
    - intros id' Hne. by apply find_filter_other. }
  destruct (decide (p ∈ files st)) as [Hfs|Hfs];
    [rewrite (bool_decide_eq_true_2 _ Hfs)
    |rewrite (bool_decide_eq_false_2 _ Hfs)].
  - destruct (decide (p ∈ protected st)) as [Hprot|Hprot];
      [rewrite (bool_decide_eq_true_2 _ Hprot)
      |rewrite (bool_decide_eq_false_2 _ Hprot)]; cbn [fst snd].
    + repeat split; try done.
      intros (seg' & p' & [= <-] & Hp' & Hn). destruct Hn.
      assert (p' = p) by congruence. by subst p'.
    + split; [|split; [done | intros _; apply Hok]].
      split; [|done]. intros _. exists seg, p. repeat split; try done. tauto.
  - cbn [fst snd]. split; [|split; [done | intros _; apply Hok]].
    split; [|done]. intros _. exists seg, p. repeat split; try done. tauto.
Qed.

(** X22: [delete_audio_segment] keeps a consistent storage consistent,
    whether it succeeds or not, and after a call that returned [True] the
    file of the segment it found is gone. *)
Theorem delete_keeps_files_present (id : string) (st : storage) :
  files_present st ->
  files_present (delete_audio_segment id st).2
  /\ ((delete_audio_segment id st).1 = true ->
      forall seg p,
        get_audio_segment_info id st = Some seg -> file_path seg = Some p ->
        p ∉ files (delete_audio_segment id st).2).
Proof.
  intros [Hnd Hfiles]. unfold delete_audio_segment, os_remove.
  destruct (get_audio_segment_info id st) as [seg|] eqn:Hget;
    [|split; [by split | discriminate]].
  destruct (file_path seg) as [p|] eqn:Hp;
    [|split; [by split | discriminate]].
  assert (Hkept : forall s,
             s ∈ List.filter (fun s => negb (String.eqb (segment_id s) id))
                   (stored_segments st) ->
             exists q, file_path s = Some q /\ q <> "" /\ q ∈ files st /\ q <> p).
  { intros s Hs.
    apply list_elem_of_In, filter_In in Hs as [Hin Hs].
    apply list_elem_of_In in Hin.
    rewrite Forall_forall in Hfiles.
    destruct (Hfiles s Hin) as (q & Hq & Hne & Hq').
    exists q. repeat split; try assumption. intros ->.
    unfold get_audio_segment_info in Hget.
    apply find_some in Hget as [Hseg Hid].
    apply list_elem_of_In in Hseg. apply String.eqb_eq in Hid.
    assert (s = seg)
      by (apply (NoDup_fmap_inj_on file_path (stored_segments st));
          congruence).
    subst s. apply negb_true_iff, String.eqb_neq in Hs. contradiction. }
  assert (Hnd' : NoDup (file_path <$>
                        List.filter (fun s => negb (String.eqb (segment_id s) id))
                          (stored_segments st)))
    by (eapply sublist_NoDup; [exact Hnd | apply fmap_sublist, filter_sublist]).
  destruct (decide (p ∈ files st)) as [Hfs|Hfs];
    [rewrite (bool_decide_eq_true_2 _ Hfs)
    |rewrite (bool_decide_eq_false_2 _ Hfs)].
  - destruct (bool_decide (p ∈ protected st)); cbn [fst snd];
      [split; [by split | discriminate]|].
    split; [split; [exact Hnd'|]|]; cbn [stored_segments files].
    + apply Forall_forall. intros s Hs.
      destruct (Hkept s Hs) as (q & Hq & Hne & Hin & Hqp).
      exists q. repeat split; try assumption.
      apply elem_of_difference. split; [exact Hin|].
      by rewrite elem_of_singleton.
    + intros _ seg' p' [= <-] Hp'. rewrite Hp in Hp'. injection Hp' as <-.
      rewrite elem_of_difference, elem_of_singleton. tauto.
  - cbn [fst snd]. split; [split; [exact Hnd'|]|]; cbn [stored_segments files].
    + apply Forall_forall. intros s Hs.
      destruct (Hkept s Hs) as (q & Hq & Hne & Hin & Hqp).
      exists q. auto.
    + intros _ seg' p' [= <-] Hp'. rewrite Hp in Hp'. by injection Hp' as <-.
Qed.

(** Three numbered segments, of which the second is deleted: the call
    succeeds and leaves the first and the third segment with their
    files. *)
Lemma delete_keeps_files_present_witness :
  let r := delete_audio_segment (segment_id (numbered_segment 2))
             (numbered_storage 3) in
  (files_present r.2
   /\ (r.1 = true ->
       forall seg p,
         get_audio_segment_info (segment_id (numbered_segment 2))
           (numbered_storage 3) = Some seg ->
         file_path seg = Some p ->
         p ∉ files r.2))
  /\ (r.1 = true
      /\ stored_segments r.2 = [numbered_segment 1; numbered_segment 3]
      /\ files r.2 = list_to_set [numbered_path 1; numbered_path 3]).
Proof.
  intros r. split.
  - apply (delete_keeps_files_present (segment_id (numbered_segment 2))
             (numbered_storage 3)).
    apply numbered_storage_files_present.
    apply (bool_decide_unpack _). vm_compute. reflexivity.
  - repeat split; vm_compute; reflexivity.
Defined.

(** X23: the deletion works by id on the list and by path on the disk.
    When two stored segments of a consistent storage carry the same id
    and the removal of the first one's file does not raise, deleting the
    id returns [True] and drops both from the list but removes the file
    of the first one only: the file of the other is still on disk and no
    stored segment names it. *)
Theorem delete_with_shared_id_leaves_a_file (id : string) (st : storage)
    (first other : segment) (p : string) :
  files_present st ->
  get_audio_segment_info id st = Some first ->
  ~ removal_raises (protected st) (files st) first ->
  other ∈ stored_segments st ->
  segment_id other = id ->
  other <> first ->
  file_path other = Some p ->
  (delete_audio_segment id st).1 = true
  /\ p ∈ files (delete_audio_segment id st).2
  /\ Forall (fun seg => file_path seg <> Some p)
            (stored_segments (delete_audio_segment id st).2).
Proof.
  intros [Hnd Hfiles] Hget Hremovable Hother Hid Hne Hp.
  assert (Hfirst : first ∈ stored_segments st).
  { unfold get_audio_segment_info in Hget.
    apply find_some in Hget as [Hin _]. by apply list_elem_of_In. }
  rewrite Forall_forall in Hfiles.
  destruct (Hfiles first Hfirst) as (q & Hq & Hqne & Hqin).
  destruct (Hfiles other Hother) as (p' & Hp' & _ & Hin).
  assert (p' = p) by congruence. subst p'.
  assert (Hqp : p <> q).
  { intros ->. apply Hne.
    apply (NoDup_fmap_inj_on file_path (stored_segments st)); congruence. }
  assert (Hprot : q ∉ protected st).
  { intros Hprot. apply Hremovable. exists q. auto. }
  unfold delete_audio_segment, os_remove. rewrite Hget, Hq.
  rewrite (bool_decide_eq_true_2 _ Hqin), (bool_decide_eq_false_2 _ Hprot).
  cbn [fst snd stored_segments files].
  split; [reflexivity|]. split.
  - apply elem_of_difference. split; [exact Hin|].
    by rewrite elem_of_singleton.
  - apply Forall_forall. intros s Hs Hsp.
    apply list_elem_of_In, filter_In in Hs as [Hs Hsid].
    apply list_elem_of_In in Hs.
    assert (s = other)
      by (apply (NoDup_fmap_inj_on file_path (stored_segments st)); congruence).
    subst s. apply negb_true_iff, String.eqb_neq in Hsid. contradiction.
Qed.

Lemma delete_with_shared_id_leaves_a_file_witness :
  (delete_audio_segment "0f9e8d7c"
     {| stored_segments :=
          [{| segment_id := "0f9e8d7c"; file_path := Some "audio_segments/a.wav" |};
           {| segment_id := "5b6a7988"; file_path := Some "audio_segments/c.wav" |};
           {| segment_id := "0f9e8d7c"; file_path := Some "audio_segments/b.wav" |}];
        files := {["audio_segments/a.wav"; "audio_segments/b.wav";
                   "audio_segments/c.wav"]};
        protected := ∅ |}).1 = true
  /\ "audio_segments/b.wav"
       ∈ files
           (delete_audio_segment "0f9e8d7c"
              {| stored_segments :=
                   [{| segment_id := "0f9e8d7c";
                       file_path := Some "audio_segments/a.wav" |};
                    {| segment_id := "5b6a7988";
                       file_path := Some "audio_segments/c.wav" |};
                    {| segment_id := "0f9e8d7c";
                       file_path := Some "audio_segments/b.wav" |}];
                 files := {["audio_segments/a.wav"; "audio_segments/b.wav";
                            "audio_segments/c.wav"]};
                 protected := ∅ |}).2
  /\ Forall (fun seg => file_path seg <> Some "audio_segments/b.wav")
       (stored_segments
          (delete_audio_segment "0f9e8d7c"
             {| stored_segments :=
                  [{| segment_id := "0f9e8d7c";
                      file_path := Some "audio_segments/a.wav" |};
                   {| segment_id := "5b6a7988";
                      file_path := Some "audio_segments/c.wav" |};
                   {| segment_id := "0f9e8d7c";
                      file_path := Some "audio_segments/b.wav" |}];
                files := {["audio_segments/a.wav"; "audio_segments/b.wav";
                           "audio_segments/c.wav"]};
                protected := ∅ |}).2).
Proof.
  apply (delete_with_shared_id_leaves_a_file "0f9e8d7c"
           {| stored_segments :=
                [{| segment_id := "0f9e8d7c";
                    file_path := Some "audio_segments/a.wav" |};
                 {| segment_id := "5b6a7988";
                    file_path := Some "audio_segments/c.wav" |};
                 {| segment_id := "0f9e8d7c";
                    file_path := Some "audio_segments/b.wav" |}];
              files := {["audio_segments/a.wav"; "audio_segments/b.wav";
                         "audio_segments/c.wav"]};
              protected := ∅ |}
           {| segment_id := "0f9e8d7c"; file_path := Some "audio_segments/a.wav" |}
           {| segment_id := "0f9e8d7c"; file_path := Some "audio_segments/b.wav" |}
           "audio_segments/b.wav").
  - split; cbn [stored_segments files].
    + apply (bool_decide_unpack _). vm_compute. reflexivity.
    + apply Forall_forall. intros seg Hseg.
      repeat (apply elem_of_cons in Hseg as [->|Hseg];
              [eexists; split; [reflexivity|]; split; [discriminate|];
               apply (bool_decide_unpack _); vm_compute; reflexivity|]).
      by apply elem_of_nil in Hseg.
  - reflexivity.
  - intros (q & _ & _ & _ & Hq). by apply elem_of_empty in Hq.
  - cbn [stored_segments].
    do 2 apply list_elem_of_further. apply list_elem_of_here.
  - reflexivity.
  - discriminate.
  - reflexivity.
Defined.
